(** * TicketHunter: scheduling, ingestion and broadcast core

    A shallow embedding of [app.py] (with the tables of [database.py]) and
    the properties of its task scheduler, ingestion workers, store
    operations and event queue.

    Conventions of the embedding:
    - Python [str] values are Rocq strings holding the UTF-8 bytes;
    - [datetime] values are integers (seconds on some fixed time line);
    - a Python expression that may raise is a value of [result];
    - collaborators (the language-model API, the feed service, the clock)
      are inputs of the functions that call them. *)

From stdpp Require Import base strings list gmap pretty.
From Stdlib Require Import ZArith Lia Ascii.

Open Scope Z_scope.

(** ** Python values, exceptions *)

(** An exception: its class name and [str(e)]. *)
Inductive exn := Exn (cls : string) (msg : string).

Definition str (e : exn) : string := match e with Exn _ m => m end.

Inductive result (A : Type) :=
| Ok (a : A)
| Raise (e : exn).
Arguments Ok {A} a.
Arguments Raise {A} e.

#[global] Instance result_ret : MRet result := fun _ a => Ok a.
#[global] Instance result_bind : MBind result := fun _ _ k r =>
  match r with
  | Ok a => k a
  | Raise e => Raise e
  end.

(** [try: body except Exception as e: handler e]. *)
Definition try_except {A} (body : result A) (handler : exn → result A) : result A :=
  match body with
  | Ok a => Ok a
  | Raise e => handler e
  end.

(** What [json.loads] / [response.json()] produce. An object is the parsed
    [dict], kept as an association list read at the first binding of a key. *)
#[warnings="-register-all"]
Inductive json :=
| JNull
| JBool (b : bool)
| JNum (n : Z)
| JStr (s : string)
| JArr (l : list json)
| JObj (kv : list (string * json)).

Fixpoint assoc {A} (k : string) (kv : list (string * A)) : option A :=
  match kv with
  | [] => None
  | (k', v) :: rest => if String.eqb k k' then Some v else assoc k rest
  end.

(** [d.get(k, dflt)]: only a [dict] has the method. *)
Definition py_get (d : json) (k : string) (dflt : json) : result json :=
  match d with
  | JObj kv => Ok (default dflt (assoc k kv))
  | _ => Raise (Exn "AttributeError" "object has no attribute 'get'")
  end.

(** [v[0]]. On a [str] the first character is a [str] again; the embedding
    keeps the first byte, which no caller looks into. *)
Definition py_index0 (v : json) : result json :=
  match v with
  | JArr (x :: _) => Ok x
  | JArr [] => Raise (Exn "IndexError" "list index out of range")
  | JStr (String c _) => Ok (JStr (String c ""))
  | JStr "" => Raise (Exn "IndexError" "string index out of range")
  | JObj _ => Raise (Exn "KeyError" "0")
  | _ => Raise (Exn "TypeError" "object is not subscriptable")
  end.

(** The code points [str.strip()] removes, in UTF-8: U+0009..U+000D,
    U+001C..U+0020, U+0085, U+00A0, U+1680, U+2000..U+200A, U+2028, U+2029,
    U+202F, U+205F, U+3000. *)
Definition whitespace : list (list N) :=
  [ [9]; [10]; [11]; [12]; [13]; [28]; [29]; [30]; [31]; [32];
    [194; 133]; [194; 160]; [225; 154; 128];
    [226; 128; 128]; [226; 128; 129]; [226; 128; 130]; [226; 128; 131];
    [226; 128; 132]; [226; 128; 133]; [226; 128; 134]; [226; 128; 135];
    [226; 128; 136]; [226; 128; 137]; [226; 128; 138];
    [226; 128; 168]; [226; 128; 169]; [226; 128; 175]; [226; 129; 159];
    [227; 128; 128] ]%N.

Fixpoint starts_with (w l : list N) : bool :=
  match w, l with
  | [], _ => true
  | a :: w', b :: l' => N.eqb a b && starts_with w' l'
  | _ :: _, [] => false
  end.

Fixpoint lstrip_bytes (ws : list (list N)) (fuel : nat) (l : list N) : list N :=
  match fuel with
  | O => l
  | S fuel' =>
      match find (fun w => starts_with w l) ws with
      | Some w => lstrip_bytes ws fuel' (drop (length w) l)
      | None => l
      end
  end.

Definition bytes_of (s : string) : list N := N_of_ascii <$> String.list_ascii_of_string s.
Definition of_bytes (l : list N) : string := String.string_of_list_ascii (ascii_of_N <$> l).

(** [s.strip()]. *)
Definition py_strip (s : string) : string :=
  let l := bytes_of s in
  let l1 := lstrip_bytes whitespace (length l) l in
  let l2 := lstrip_bytes (reverse <$> whitespace) (length l1) (reverse l1) in
  of_bytes (reverse l2).

(** [v.strip()] on a JSON value: only [str] has the method. *)
Definition py_str_strip (v : json) : result string :=
  match v with
  | JStr s => Ok (py_strip s)
  | _ => Raise (Exn "AttributeError" "object has no attribute 'strip'")
  end.

(** ** Keyword optimisation ([optimize_search_keyword]) *)

(** The outcome of [requests.post]: it raises (connection error, timeout),
    or answers with a status code, a text and, when the text is JSON, the
    value [response.json()] returns. *)
Inductive http_outcome :=
| HttpRaise (e : exn)
| HttpResponse (status_code : Z) (text : string) (body : option json).

Definition response_json (body : option json) : result json :=
  match body with
  | Some j => Ok j
  | None => Raise (Exn "JSONDecodeError" "Expecting value")
  end.

(** [result.get("choices", [{}])[0].get("message", {}).get("content", "")]. *)
Definition message_content (j : json) : result json :=
  choices ← py_get j "choices" (JArr [JObj []]);
  first ← py_index0 choices;
  message ← py_get first "message" (JObj []);
  py_get message "content" (JStr "").

(** The body of the [try] block. *)
Definition optimize_search_keyword_body (original_keyword : string)
    (post : http_outcome) : result string :=
  match post with
  | HttpRaise e => Raise e
  | HttpResponse status_code _ body =>
      if negb (status_code =? 200) then Ok original_keyword
      else
        j ← response_json body;
        content ← message_content j;
        optimized_keyword ← py_str_strip content;
        if String.eqb optimized_keyword "" then Ok original_keyword
        else Ok optimized_keyword
  end.

Definition optimize_search_keyword (original_keyword : string)
    (post : http_outcome) : result string :=
  try_except (optimize_search_keyword_body original_keyword post)
    (fun _ => Ok original_keyword).


(** ** Calendar dates ([datetime.strptime(s, '%Y-%m-%d').date()]) *)

Record date := Date { year : Z; month : Z; day : Z }.

Definition is_digit (c : N) : bool := ((48 <=? c) && (c <=? 57))%N.
Definition digit_val (c : N) : Z := Z.of_N (c - 48).

(** The code point at the head of a text, which is in UTF-8, and the rest
    of the text. *)
Definition is_continuation (b : N) : bool := ((128 <=? b) && (b <? 192))%N.

Definition utf8_head (l : list N) : option (N * list N) :=
  match l with
  | a :: rest =>
      if (a <? 128)%N then Some (a, rest)
      else if ((192 <=? a) && (a <? 224))%N then
        match rest with
        | b :: rest' =>
            if is_continuation b
            then Some (((a - 192) * 64 + (b - 128))%N, rest') else None
        | _ => None
        end
      else if ((224 <=? a) && (a <? 240))%N then
        match rest with
        | b :: c :: rest' =>
            if is_continuation b && is_continuation c
            then Some (((a - 224) * 4096 + (b - 128) * 64 + (c - 128))%N, rest')
            else None
        | _ => None
        end
      else if ((240 <=? a) && (a <? 248))%N then
        match rest with
        | b :: c :: d :: rest' =>
            if is_continuation b && is_continuation c && is_continuation d
            then Some (((a - 240) * 262144 + (b - 128) * 4096
                        + (c - 128) * 64 + (d - 128))%N, rest')
            else None
        | _ => None
        end
      else None
  | [] => None
  end.

(** [\d] of a [str] pattern matches every decimal digit of Unicode (the
    category Nd), and [int] reads them. The digits come in runs of ten, from
    a zero on; these are the zeros of Unicode 14.0, the version of
    Python 3.11. *)
Definition decimal_zeros : list N :=
  [
    48; 1632; 1776; 1984; 2406; 2534; 2662; 2790;
    2918; 3046; 3174; 3302; 3430; 3558; 3664; 3792;
    3872; 4160; 4240; 6112; 6160; 6470; 6608; 6784;
    6800; 6992; 7088; 7232; 7248; 42528; 43216; 43264;
    43472; 43504; 43600; 44016; 65296; 66720; 68912; 69734;
    69872; 69942; 70096; 70384; 70736; 70864; 71248; 71360;
    71472; 71904; 72016; 72784; 73040; 73120; 92768; 92864;
    93008; 120782; 120792; 120802; 120812; 120822; 123200; 123632;
    125264; 130032
  ]%N.

(** A decimal digit at the head of the text: its value and the rest. *)
Definition decimal_digit (l : list N) : option (Z * list N) :=
  '(c, rest) ← utf8_head l;
  z ← find (λ z, (z <=? c) && (c <? z + 10))%N decimal_zeros;
  Some (Z.of_N (c - z), rest).

(** [%Y] is the pattern [\d\d\d\d]. *)
Definition year_digits (l : list N) : option (Z * list N) :=
  '(y1, l1) ← decimal_digit l;
  '(y2, l2) ← decimal_digit l1;
  '(y3, l3) ← decimal_digit l2;
  '(y4, l4) ← decimal_digit l3;
  Some (1000 * y1 + 100 * y2 + 10 * y3 + y4, l4).

(** [%m] is the pattern [1[0-2]|0[1-9]|[1-9]]: every alternative that
    matches at the head of [l], in the order the matcher tries them. *)
Definition month_alternatives (l : list N) : list (Z * list N) :=
  match l with
  | a :: rest1 =>
      (match rest1 with
       | b :: rest2 =>
           (if (a =? 49)%N && is_digit b && (b <=? 50)%N
            then [(10 + digit_val b, rest2)] else []) ++
           (if (a =? 48)%N && is_digit b && negb (b =? 48)%N
            then [(digit_val b, rest2)] else [])
       | [] => []
       end) ++
      (if is_digit a && negb (a =? 48)%N then [(digit_val a, rest1)] else [])
  | [] => []
  end.

(** [%d] is the pattern [3[0-1]|[1-2]\d|0[1-9]|[1-9]| [1-9]]. *)
Definition day_alternatives (l : list N) : list (Z * list N) :=
  match l with
  | a :: rest1 =>
      (match rest1 with
       | b :: rest2 =>
           (if (a =? 51)%N && is_digit b && (b <=? 49)%N
            then [(30 + digit_val b, rest2)] else [])
       | [] => []
       end) ++
      (if ((a =? 49) || (a =? 50))%N then
         match decimal_digit rest1 with
         | Some (b, rest2) => [(10 * digit_val a + b, rest2)]
         | None => []
         end
       else []) ++
      (match rest1 with
       | b :: rest2 =>
           (if (a =? 48)%N && is_digit b && negb (b =? 48)%N
            then [(digit_val b, rest2)] else [])
       | [] => []
       end) ++
      (if is_digit a && negb (a =? 48)%N then [(digit_val a, rest1)] else []) ++
      (match rest1 with
       | b :: rest2 =>
           if (a =? 32)%N && is_digit b && negb (b =? 48)%N
           then [(digit_val b, rest2)] else []
       | [] => []
       end)
  | [] => []
  end.

Definition is_leap (y : Z) : bool :=
  ((y mod 4 =? 0) && negb (y mod 100 =? 0)) || (y mod 400 =? 0).

Definition days_in_month (y m : Z) : Z :=
  if m =? 2 then (if is_leap y then 29 else 28)
  else if (m =? 4) || (m =? 6) || (m =? 9) || (m =? 11) then 30
  else 31.

Definition value_error (msg : string) : exn := Exn "ValueError" msg.

(** [repr(s)] of a text: between single quotes, or between double quotes
    when the text has a single quote and no double quote; the quote, the
    backslash and the control characters are escaped. Characters outside
    ASCII are copied (Python escapes those of them that are not printable). *)
Definition hex_digit (d : N) : N := (if d <? 10 then 48 + d else 87 + d)%N.

Definition py_repr_char (quote c : N) : list N :=
  if ((c =? quote) || (c =? 92))%N then [92; c]%N
  else if (c =? 9)%N then [92; 116]%N
  else if (c =? 10)%N then [92; 110]%N
  else if (c =? 13)%N then [92; 114]%N
  else if ((c <? 32) || (c =? 127))%N
       then [92; 120; hex_digit (c / 16); hex_digit (c mod 16)]%N
  else [c].

Definition py_repr (s : string) : string :=
  let l := bytes_of s in
  let quote := if existsb (N.eqb 39) l && negb (existsb (N.eqb 34) l)
               then 34%N else 39%N in
  of_bytes (quote :: concat (py_repr_char quote <$> l) ++ [quote]).

(** The [ValueError] for a text that the pattern does not match. *)
Definition does_not_match (s : string) : exn :=
  value_error ("time data " +:+ py_repr s +:+ " does not match format '%Y-%m-%d'").

(** The pattern is matched at the start of the text (a month alternative is
    kept only if ["-"] follows it), the whole text must be consumed, and the
    fields must form a date of the proleptic calendar from year 1 on. *)
Definition strptime_ymd (s : string) : result date :=
  match year_digits (bytes_of s) with
  | Some (y, 45%N :: rest) =>
      match filter (λ c, head c.2 = Some 45%N) (month_alternatives rest) with
      | (m, _ :: rest') :: _ =>
          match day_alternatives rest' with
          | (d, []) :: _ =>
              if y =? 0 then Raise (value_error "year 0 is out of range")
              else if d <=? days_in_month y m then Ok (Date y m d)
              else Raise (value_error "day is out of range for month")
          | (_, (_ :: _) as left) :: _ =>
              Raise (value_error ("unconverted data remains: " +:+ of_bytes left))
          | [] => Raise (does_not_match s)
          end
      | _ => Raise (does_not_match s)
      end
  | _ => Raise (does_not_match s)
  end.

(** [d.strftime('%Y-%m-%d')] (line 584 of [app.py]), for the years from
    1000 on, where the year is written with its four digits on every
    platform: the digits of the year, of the month and of the day. *)
Definition digit_char (n : Z) : ascii := ascii_of_N (48 + Z.to_N n).

Definition strftime_ymd (d : date) : string :=
  String (digit_char (year d / 1000))
    (String (digit_char (year d / 100 mod 10))
       (String (digit_char (year d / 10 mod 10))
          (String (digit_char (year d mod 10))
             (String "-"
                (String (digit_char (month d / 10))
                   (String (digit_char (month d mod 10))
                      (String "-"
                         (String (digit_char (day d / 10))
                            (String (digit_char (day d mod 10)) ""))))))))).

(** ** The tables of [database.py] *)

Module Note.
Record t := mk {
  note_id : string;            (* primary key *)
  description : string;
  note_url : string;
  create_time : Z;
  created_at : Z
}.
End Note.

Module Ticket.
Record t := mk {
  id : Z;                      (* primary key *)
  note_id : option string;     (* nullable foreign key to notes *)
  is_ticket_resale : bool;
  event_name : string;
  city : string;
  event_date : option date;
  area : string;
  price : string;
  quantity : string;
  contact : string;
  notes : string;
  created_at : Z
}.

Definition with_note_id (v : option string) (x : t) : t :=
  mk (id x) v (is_ticket_resale x) (event_name x) (city x) (event_date x)
     (area x) (price x) (quantity x) (contact x) (notes x) (created_at x).
End Ticket.

Module WorkflowExecution.
Record t := mk {
  id : Z;                      (* primary key *)
  code : Z;
  cost : Z;
  msg : string;
  status : string;
  raw_response : json;
  created_at : Z;
  message : string;
  is_scheduled : bool;
  schedule_interval : Z;
  last_run_at : option Z;
  next_run_at : option Z;
  run_count : option Z
}.

Definition with_status (v : string) (x : t) : t :=
  mk (id x) (code x) (cost x) (msg x) v (raw_response x) (created_at x)
     (message x) (is_scheduled x) (schedule_interval x) (last_run_at x)
     (next_run_at x) (run_count x).
Definition with_code (v : Z) (x : t) : t :=
  mk (id x) v (cost x) (msg x) (status x) (raw_response x) (created_at x)
     (message x) (is_scheduled x) (schedule_interval x) (last_run_at x)
     (next_run_at x) (run_count x).
Definition with_message (v : string) (x : t) : t :=
  mk (id x) (code x) (cost x) (msg x) (status x) (raw_response x)
     (created_at x) v (is_scheduled x) (schedule_interval x) (last_run_at x)
     (next_run_at x) (run_count x).
Definition with_is_scheduled (v : bool) (x : t) : t :=
  mk (id x) (code x) (cost x) (msg x) (status x) (raw_response x)
     (created_at x) (message x) v (schedule_interval x) (last_run_at x)
     (next_run_at x) (run_count x).
Definition with_last_run_at (v : option Z) (x : t) : t :=
  mk (id x) (code x) (cost x) (msg x) (status x) (raw_response x)
     (created_at x) (message x) (is_scheduled x) (schedule_interval x) v
     (next_run_at x) (run_count x).
Definition with_next_run_at (v : option Z) (x : t) : t :=
  mk (id x) (code x) (cost x) (msg x) (status x) (raw_response x)
     (created_at x) (message x) (is_scheduled x) (schedule_interval x)
     (last_run_at x) v (run_count x).
Definition with_run_count (v : option Z) (x : t) : t :=
  mk (id x) (code x) (cost x) (msg x) (status x) (raw_response x)
     (created_at x) (message x) (is_scheduled x) (schedule_interval x)
     (last_run_at x) (next_run_at x) v.
End WorkflowExecution.

(** The committed content of the database: one list of rows per table. *)
Record Store := mkStore {
  notes : list Note.t;
  tickets : list Ticket.t;
  workflow_executions : list WorkflowExecution.t
}.

Definition empty_store : Store := mkStore [] [] [].

(** [Note.query.get(note_id)] on committed rows. *)
Definition get_note (db : Store) (note_id : string) : option Note.t :=
  find (λ n, String.eqb (Note.note_id n) note_id) (notes db).

(** [Ticket.query.filter_by(note_id=note_id).first()]. *)
Definition first_ticket_of (db : Store) (note_id : string) : option Ticket.t :=
  find (λ k, bool_decide (Ticket.note_id k = Some note_id)) (tickets db).

(** [WorkflowExecution.query.get(task_id)]. *)
Definition get_task (db : Store) (task_id : Z) : option WorkflowExecution.t :=
  find (λ w, WorkflowExecution.id w =? task_id) (workflow_executions db).

(** The UPDATE a commit issues for a loaded task whose attributes were
    assigned: the row with that key gets the assignments [f]. *)
Definition update_task (db : Store) (task_id : Z)
    (f : WorkflowExecution.t → WorkflowExecution.t) : Store :=
  mkStore (notes db) (tickets db)
    ((λ w, if WorkflowExecution.id w =? task_id then f w else w)
       <$> workflow_executions db).

(** The key an integer primary key gets on INSERT: one more than the
    largest key of the table. *)
Definition next_id (ids : list Z) : Z := 1 + foldr Z.max 0 ids.

(** How many notes, and how many tickets, the store holds for a post. *)
Definition count_notes (db : Store) (note_id : string) : nat :=
  length (filter (λ n, Note.note_id n = note_id) (notes db)).

Definition count_tickets (db : Store) (note_id : string) : nat :=
  length (filter (λ k, Ticket.note_id k = Some note_id) (tickets db)).

(** ** The unit of work of [db.session]

    Flask-SQLAlchemy binds [db.session] to the application context that is
    current: every [with app.app_context():] block works on a session of its
    own and, when the block is left, the session is removed, which rolls back
    whatever it had not committed. Rows that were added are sent to the
    database by [flush] inside the session's open transaction (a duplicate
    primary key raises there) and become part of the store at [commit]. *)
Record Session := mkSession {
  new_notes : list Note.t;
  new_tickets : list Ticket.t     (* their [id] is assigned on INSERT *)
}.

Definition new_session : Session := mkSession [] [].

Definition session_add_note (s : Session) (n : Note.t) : Session :=
  mkSession (new_notes s ++ [n]) (new_tickets s).

Definition session_add_ticket (s : Session) (k : Ticket.t) : Session :=
  mkSession (new_notes s) (new_tickets s ++ [k]).

(** [db.session.get(Note, note_id)]: the session's own rows, then the store. *)
Definition session_get_note (db : Store) (s : Session) (note_id : string)
    : option Note.t :=
  match find (λ n, String.eqb (Note.note_id n) note_id) (new_notes s) with
  | Some n => Some n
  | None => get_note db note_id
  end.

Definition integrity_error : exn :=
  Exn "IntegrityError" "UNIQUE constraint failed: notes.note_id".

(** INSERT fills the column defaults: [created_at] is [datetime.utcnow()]. *)
Fixpoint insert_notes (utcnow : Z) (rows : list Note.t) (table : list Note.t)
    : result (list Note.t) :=
  match rows with
  | [] => Ok table
  | n :: rest =>
      if existsb (λ m, String.eqb (Note.note_id m) (Note.note_id n)) table
      then Raise integrity_error
      else
        let row := Note.mk (Note.note_id n) (Note.description n)
                     (Note.note_url n) (Note.create_time n) utcnow in
        insert_notes utcnow rest (table ++ [row])
  end.

(** Tickets get their key and [created_at] on INSERT. SQLite does not check
    the foreign key to [notes] (the application does not switch the check
    on), so a ticket may refer to a note that is not in the store. *)
Fixpoint insert_tickets (utcnow : Z) (rows : list Ticket.t)
    (table : list Ticket.t) : list Ticket.t :=
  match rows with
  | [] => table
  | k :: rest =>
      let row := Ticket.mk (next_id (Ticket.id <$> table)) (Ticket.note_id k)
                   (Ticket.is_ticket_resale k) (Ticket.event_name k)
                   (Ticket.city k) (Ticket.event_date k) (Ticket.area k)
                   (Ticket.price k) (Ticket.quantity k) (Ticket.contact k)
                   (Ticket.notes k) utcnow in
      insert_tickets utcnow rest (table ++ [row])
  end.

(** [db.session.flush()]: the INSERTs run in the session's transaction; the
    store other sessions read is not changed. *)
Definition session_flush (utcnow : Z) (db : Store) (s : Session)
    : result Session :=
  _ ← insert_notes utcnow (new_notes s) (notes db);
  Ok s.

(** [db.session.commit()]: flush, then the transaction becomes the store. *)
Definition session_commit (utcnow : Z) (db : Store) (s : Session)
    : result (Store * Session) :=
  notes' ← insert_notes utcnow (new_notes s) (notes db);
  Ok (mkStore notes' (insert_tickets utcnow (new_tickets s) (tickets db))
        (workflow_executions db),
      new_session).

(** ** Events and the event queue ([notify_clients], [/stream]) *)

(** The fields of a ticket that travel in a result and in a [ticket_update]. *)
Module Snapshot.
Record t := mk {
  event_name : string;
  city : string;
  event_date : option date;
  price : string;
  area : string;
  quantity : string;
  contact : string;
  notes : string;
  note_url : string
}.
End Snapshot.

(** The [data] dictionaries the program sends. Timestamps are kept as
    numbers where the code sends their ISO text. *)
Inductive event_data :=
| TaskStatus (task_id : Z) (status : string) (message : string)
| TaskRun (task_id : Z) (status : string) (message : string) (run_count : Z)
    (last_run_at next_run_at : option Z)
| TicketFound (task_id : Z) (ticket : Snapshot.t)
| TaskDeleted (task_id : Z).

Record message := mkMessage {
  type : string;
  data : event_data;
  timestamp : Z
}.

(** What a subscriber of [/stream] is sent. *)
Inductive frame :=
| DataFrame (m : message)          (* "data: <json>\n\n" *)
| Heartbeat.                       (* ": heartbeat\n\n" *)

(** One turn of the loop of [event_stream]: [event_queue.get(timeout=30)]
    takes the oldest message off the queue; on an empty queue it raises
    [Empty] after the timeout and a heartbeat is sent. *)
Definition event_stream_next (queue : list message) : list message * frame :=
  match queue with
  | m :: rest => (rest, DataFrame m)
  | [] => ([], Heartbeat)
  end.

(** The one module-level [event_queue] with the streams of the connected
    subscribers (what each has been sent so far, oldest first). *)
Record Bus := mkBus {
  bus_queue : list message;
  streams : list (list frame)
}.

Inductive bus_action :=
| Put (m : message)                (* [event_queue.put(message)] *)
| Next (subscriber : nat).         (* that subscriber's generator resumes *)

Definition bus_step (b : Bus) (a : bus_action) : Bus :=
  match a with
  | Put m => mkBus (bus_queue b ++ [m]) (streams b)
  | Next i =>
      match streams b !! i with
      | Some sent =>
          let '(queue', f) := event_stream_next (bus_queue b) in
          mkBus queue' (<[i := sent ++ [f]]> (streams b))
      | None => b
      end
  end.

Definition bus_run (b : Bus) (actions : list bus_action) : Bus :=
  foldl bus_step b actions.

(** The messages a stream carries, and how often it carries [m]. *)
Definition received (sent : list frame) : list message :=
  omap (λ f, match f with DataFrame m => Some m | Heartbeat => None end) sent.

Definition puts (actions : list bus_action) : list message :=
  omap (λ a, match a with Put m => Some m | Next _ => None end) actions.

(** ** The scheduler registry ([Monitor]) *)

(** A key of a Python [dict]: an [int] or a [str]; the two never compare
    equal. *)
Abbreviation pykey := (Z + string)%type.

(** A job of the APScheduler job store: the callable is
    [execute_scheduled_task], called with [args]; [seconds] is the interval
    given to [add_job] (the trigger fires every [seconds] seconds, and every
    second when 0 is given). *)
Record Job := mkJob {
  args : Z * string;
  seconds : Z;
  paused : bool
}.

Record Monitor := mkMonitor {
  task_jobs : gmap pykey string;
  scheduler : gmap string Job
}.

Definition new_monitor : Monitor := mkMonitor ∅ ∅.

Definition job_lookup_error (job_id : string) : exn :=
  Exn "JobLookupError" ("No job by the id of " +:+ job_id +:+ " was found").

(** [scheduler.remove_job], [pause_job], [resume_job] raise on an unknown id. *)
Definition remove_job (job_id : string) (jobs : gmap string Job)
    : result (gmap string Job) :=
  match jobs !! job_id with
  | Some _ => Ok (delete job_id jobs)
  | None => Raise (job_lookup_error job_id)
  end.

Definition set_paused (v : bool) (job_id : string) (jobs : gmap string Job)
    : result (gmap string Job) :=
  match jobs !! job_id with
  | Some j => Ok (<[job_id := mkJob (args j) (seconds j) v]> jobs)
  | None => Raise (job_lookup_error job_id)
  end.

Definition pause_job := set_paused true.
Definition resume_job := set_paused false.

(** [f"task_{task_id}"] *)
Definition job_id_of (task_id : Z) : string := "task_" +:+ pretty task_id.

(** ** The state of the process and its collaborators *)

(** The clock: the [k]-th reading of [datetime.utcnow()] and of the local
    [datetime.now()]. *)
Record Clock := mkClock {
  utc : nat → Z;
  local : nat → Z
}.

(** A request sent to a collaborator. *)
Inductive call :=
| CallOptimize (keyword : string)      (* chat completion, keyword prompt *)
| CallSearch (keyword : string)        (* [search_feeds] of the feed service *)
| CallAnalyze (text : string).         (* chat completion, ticket prompt *)

Record World := mkWorld {
  db : Store;
  db_lock : option nat;                (* the worker that holds [db_lock] *)
  event_queue : list message;
  monitor : Monitor;
  calls : list call;                   (* requests sent so far, oldest first *)
  reads : nat                          (* clock readings taken so far *)
}.

Definition set_db (v : Store) (w : World) : World :=
  mkWorld v (db_lock w) (event_queue w) (monitor w) (calls w) (reads w).
Definition set_db_lock (v : option nat) (w : World) : World :=
  mkWorld (db w) v (event_queue w) (monitor w) (calls w) (reads w).
Definition set_monitor (v : Monitor) (w : World) : World :=
  mkWorld (db w) (db_lock w) (event_queue w) v (calls w) (reads w).
Definition record_call (c : call) (w : World) : World :=
  mkWorld (db w) (db_lock w) (event_queue w) (monitor w) (calls w ++ [c])
    (reads w).

Definition utcnow (clk : Clock) (w : World) : Z * World :=
  (utc clk (reads w),
   mkWorld (db w) (db_lock w) (event_queue w) (monitor w) (calls w)
     (S (reads w))).

Definition now (clk : Clock) (w : World) : Z * World :=
  (local clk (reads w),
   mkWorld (db w) (db_lock w) (event_queue w) (monitor w) (calls w)
     (S (reads w))).

Definition notify_clients (clk : Clock) (event_type : string)
    (data : event_data) (w : World) : World :=
  let '(t, w1) := now clk w in
  mkWorld (db w1) (db_lock w1)
    (event_queue w1 ++ [mkMessage event_type data t])
    (monitor w1) (calls w1) (reads w1).

(** ** [Monitor]: registering, pausing, resuming and removing a timer *)

Definition add_task_schedule (clk : Clock) (task_id : Z) (keyword : string)
    (interval_seconds : Z) (w : World) : World :=
  let job_id := job_id_of task_id in
  let mon := monitor w in
  let jobs1 :=
    if bool_decide (inr job_id ∈ dom (task_jobs mon)) then
      match remove_job job_id (scheduler mon) with
      | Ok jobs => jobs
      | Raise _ => scheduler mon
      end
    else scheduler mon in
  let jobs2 := <[job_id := mkJob (task_id, keyword) interval_seconds false]> jobs1 in
  let w1 := set_monitor (mkMonitor (<[inl task_id := job_id]> (task_jobs mon)) jobs2) w in
  match get_task (db w1) task_id with
  | Some _ =>
      let '(t, w2) := utcnow clk w1 in
      set_db (update_task (db w2) task_id
                (WorkflowExecution.with_next_run_at (Some (t + interval_seconds))))
             w2
  | None => w1
  end.

Definition pause_task_schedule (task_id : Z) (w : World) : World * bool :=
  let job_id := job_id_of task_id in
  let mon := monitor w in
  if bool_decide (inr job_id ∈ dom (task_jobs mon)) then
    match pause_job job_id (scheduler mon) with
    | Ok jobs =>
        let w1 := set_monitor (mkMonitor (task_jobs mon) jobs) w in
        match get_task (db w1) task_id with
        | Some _ =>
            (set_db (update_task (db w1) task_id
                       (WorkflowExecution.with_status "paused")) w1, true)
        | None => (w1, true)
        end
    | Raise _ => (w, false)
    end
  else (w, false).

Definition resume_task_schedule (task_id : Z) (w : World) : World * bool :=
  let job_id := job_id_of task_id in
  let mon := monitor w in
  if bool_decide (inr job_id ∈ dom (task_jobs mon)) then
    match resume_job job_id (scheduler mon) with
    | Ok jobs =>
        let w1 := set_monitor (mkMonitor (task_jobs mon) jobs) w in
        match get_task (db w1) task_id with
        | Some _ =>
            (set_db (update_task (db w1) task_id
                       (WorkflowExecution.with_status "running")) w1, true)
        | None => (w1, true)
        end
    | Raise _ => (w, false)
    end
  else (w, false).

Definition remove_task_schedule (task_id : Z) (w : World) : World * bool :=
  let job_id := job_id_of task_id in
  let mon := monitor w in
  if bool_decide (inr job_id ∈ dom (task_jobs mon)) then
    match remove_job job_id (scheduler mon) with
    | Ok jobs =>
        match task_jobs mon !! inl task_id with
        | Some _ =>
            let w1 := set_monitor
                        (mkMonitor (delete (inl task_id) (task_jobs mon)) jobs) w in
            match get_task (db w1) task_id with
            | Some _ =>
                (set_db (update_task (db w1) task_id
                           (λ task, WorkflowExecution.with_status "stopped"
                                      (WorkflowExecution.with_is_scheduled false task)))
                        w1, true)
            | None => (w1, true)
            end
        | None =>
            (* [del self.task_jobs[task_id]] raises [KeyError] *)
            (set_monitor (mkMonitor (task_jobs mon) jobs) w, false)
        end
    | Raise _ => (w, false)
    end
  else (w, false).

(** ** One post: [process_single_feed] *)

(** A candidate of the feed service: the keys the program reads. A missing
    [id] reads as the empty text, a missing [noteCard] as the empty dict. *)
Module Feed.
Record t := mk {
  modelType : string;
  id : string;
  noteCard : list (string * string)
}.
End Feed.

(** [note_card.get('displayTitle', '')] *)
Definition displayTitle (feed : Feed.t) : string :=
  default "" (assoc "displayTitle" (Feed.noteCard feed)).

(** The dictionary [analyze_ticket_content] returns; a missing text key
    reads as the empty text, [is_ticket_resale] is the truth value of the
    entry. The entries are passed to the columns of the ticket as they are:
    [binds] says whether the INSERT takes them, that is whether the entry
    [is_ticket_resale] is one the Boolean column accepts ([True], [False],
    1, 0) and no text entry is a list or a dict. *)
Module TicketInfo.
Record t := mk {
  is_ticket_resale : bool;
  event_name : string;
  city : string;
  event_date : string;
  area : string;
  price : string;
  quantity : string;
  contact : string;
  notes : string;
  binds : bool
}.
End TicketInfo.

(** [{"is_ticket_resale": False}] *)
Definition not_resale : TicketInfo.t :=
  TicketInfo.mk false "" "" "" "" "" "" "" "" true.

(** The INSERT of a ticket whose entries do not bind raises while its
    parameters are processed (a [StatementError] around the [TypeError] of
    the Boolean column, or the driver's error for a list or a dict); the
    text names the value and the statement. *)
Definition statement_error : exn :=
  Exn "StatementError" "(builtins.TypeError) Not a boolean value".

(** What the language model call of [analyze_ticket_content] comes to: no
    usable answer (an HTTP error, no JSON in the text, an exception), or the
    dictionary found in the answer. *)
Inductive analysis :=
| NoAnswer
| Answer (info : TicketInfo.t).

Definition analyze_ticket_content (api : string → analysis) (note_desc : string)
    : TicketInfo.t :=
  match api note_desc with
  | NoAnswer => not_resale
  | Answer info => info
  end.

(** The dictionaries [process_single_feed] returns. *)
Inductive outcome :=
| NotNoteType                       (* success False, reason not_note_type *)
| IncompleteData                    (* success False, reason incomplete_data *)
| AlreadyExists (note_id : string)  (* success False, reason already_exists *)
| TicketExists (note_id : string)   (* success False, reason ticket_exists *)
| TicketSaved (ticket : Snapshot.t) (* success True, is_ticket True *)
| NoteOnly (note_id : string)       (* success True, is_ticket False *)
| Failed (error : string).          (* success False, reason error *)

Definition success (o : outcome) : bool :=
  match o with
  | TicketSaved _ | NoteOnly _ => true
  | _ => false
  end.

Definition is_ticket (o : outcome) : bool :=
  match o with
  | TicketSaved _ => true
  | _ => false
  end.

Definition reason (o : outcome) : option string :=
  match o with
  | NotNoteType => Some "not_note_type"
  | IncompleteData => Some "incomplete_data"
  | AlreadyExists _ => Some "already_exists"
  | TicketExists _ => Some "ticket_exists"
  | Failed _ => Some "error"
  | TicketSaved _ | NoteOnly _ => None
  end.

Definition note_url_of (feed_id : string) : string :=
  "https://www.xiaohongshu.com/explore/" +:+ feed_id.

(** [Ticket(note_id=feed_id, ...)] of lines 560-572; the date text is parsed
    when it is not empty. *)
Definition build_ticket (feed_id : string) (info : TicketInfo.t)
    : result Ticket.t :=
  event_date ←
    (if String.eqb (TicketInfo.event_date info) "" then Ok None
     else d ← strptime_ymd (TicketInfo.event_date info); Ok (Some d));
  Ok (Ticket.mk 0 (Some feed_id) (TicketInfo.is_ticket_resale info)
        (TicketInfo.event_name info) (TicketInfo.city info) event_date
        (TicketInfo.area info) (TicketInfo.price info)
        (TicketInfo.quantity info) (TicketInfo.contact info)
        (TicketInfo.notes info) 0).

Definition snapshot_of (k : Ticket.t) (note_url : string) : Snapshot.t :=
  Snapshot.mk (Ticket.event_name k) (Ticket.city k) (Ticket.event_date k)
    (Ticket.price k) (Ticket.area k) (Ticket.quantity k) (Ticket.contact k)
    (Ticket.notes k) note_url.

(** Where a call of [process_single_feed] stands. Between two points the
    call does one thing that other workers can observe or be blocked by. *)
Inductive pc :=
| Queued                            (* submitted, no worker has taken it *)
| Entry                             (* line 510 *)
| AcquireNoteLock                   (* line 522, waiting for [db_lock] *)
| GetNote                           (* line 525, lock held *)
| AddNote                           (* lines 531-543, lock held *)
| Analyze                           (* line 546, no lock held *)
| AcquireTicketLock (info : TicketInfo.t)   (* line 551 *)
| QueryTicket (info : TicketInfo.t)         (* line 554, lock held *)
| AddTicket (info : TicketInfo.t)           (* lines 560-592, lock held *)
| AcquireCommitLock                 (* line 595 *)
| CommitNote                        (* line 597, lock held *)
| Except (e : exn)                  (* lines 600-610 *)
| Return (o : outcome).

Record Worker := mkWorker {
  feed : Feed.t;
  api : string → analysis;          (* the classifier, for this call *)
  at_pc : pc;
  analyses : nat                    (* calls of the classifier made so far *)
}.

Definition goto (p : pc) (t : Worker) : Worker :=
  mkWorker (feed t) (api t) p (analyses t).

(** Leaving [with db_lock: with app.app_context(): ...]: the session of the
    block is removed, the lock is released. *)
Definition leave_block (w : World) : World := set_db_lock None w.

(** One step of worker [tid]; [None] when it cannot move (it waits for the
    lock, or it has returned). *)
Definition worker_step (clk : Clock) (tid : nat) (w : World) (t : Worker)
    : option (World * Worker) :=
  let feed_id := Feed.id (feed t) in
  match at_pc t with
  | Queued => Some (w, goto Entry t)
  | Entry =>
      if negb (String.eqb (Feed.modelType (feed t)) "note") then
        Some (w, goto (Return NotNoteType) t)
      else if String.eqb feed_id "" || bool_decide (Feed.noteCard (feed t) = []) then
        Some (w, goto (Return IncompleteData) t)
      else Some (w, goto AcquireNoteLock t)
  | AcquireNoteLock =>
      match db_lock w with
      | None => Some (set_db_lock (Some tid) w, goto GetNote t)
      | Some _ => None
      end
  | GetNote =>
      match session_get_note (db w) new_session feed_id with
      | Some _ => Some (leave_block w, goto (Return (AlreadyExists feed_id)) t)
      | None => Some (w, goto AddNote t)
      end
  | AddNote =>
      let '(create_time, w1) := now clk w in
      let note := Note.mk feed_id (displayTitle (feed t)) (note_url_of feed_id)
                    create_time 0 in
      let session := session_add_note new_session note in
      let '(t_flush, w2) := utcnow clk w1 in
      match session_flush t_flush (db w2) session with
      | Ok _ => Some (leave_block w2, goto Analyze t)
      | Raise e => Some (leave_block w2, goto (Except e) t)
      end
  | Analyze =>
      let info := analyze_ticket_content (api t) (displayTitle (feed t)) in
      let w1 := record_call (CallAnalyze (displayTitle (feed t))) w in
      let t1 := mkWorker (feed t) (api t) (at_pc t) (S (analyses t)) in
      if TicketInfo.is_ticket_resale info
      then Some (w1, goto (AcquireTicketLock info) t1)
      else Some (w1, goto AcquireCommitLock t1)
  | AcquireTicketLock info =>
      match db_lock w with
      | None => Some (set_db_lock (Some tid) w, goto (QueryTicket info) t)
      | Some _ => None
      end
  | QueryTicket info =>
      match first_ticket_of (db w) feed_id with
      | Some _ => Some (leave_block w, goto (Return (TicketExists feed_id)) t)
      | None => Some (w, goto (AddTicket info) t)
      end
  | AddTicket info =>
      match build_ticket feed_id info with
      | Raise e => Some (leave_block w, goto (Except e) t)
      | Ok ticket =>
          let session := session_add_ticket new_session ticket in
          let '(t_commit, w1) := utcnow clk w in
          if negb (TicketInfo.binds info) then
            (* the column defaults are evaluated, then the parameters *)
            Some (leave_block w1, goto (Except statement_error) t)
          else
            match session_commit t_commit (db w1) session with
            | Raise e => Some (leave_block w1, goto (Except e) t)
            | Ok (db', _) =>
                Some (leave_block (set_db db' w1),
                      goto (Return (TicketSaved
                                      (snapshot_of ticket (note_url_of feed_id)))) t)
            end
      end
  | AcquireCommitLock =>
      match db_lock w with
      | None => Some (set_db_lock (Some tid) w, goto CommitNote t)
      | Some _ => None
      end
  | CommitNote =>
      let '(t_commit, w1) := utcnow clk w in
      match session_commit t_commit (db w1) new_session with
      | Raise e => Some (leave_block w1, goto (Except e) t)
      | Ok (db', _) => Some (leave_block (set_db db' w1), goto (Return (NoteOnly feed_id)) t)
      end
  | Except e =>
      (* [db.session.rollback()] in a context of its own: nothing to undo *)
      Some (w, goto (Return (Failed (str e))) t)
  | Return _ => None
  end.

Fixpoint run_worker (fuel : nat) (clk : Clock) (tid : nat) (w : World)
    (t : Worker) : World * Worker :=
  match fuel with
  | O => (w, t)
  | S fuel' =>
      match worker_step clk tid w t with
      | Some (w', t') => run_worker fuel' clk tid w' t'
      | None => (w, t)
      end
  end.

(** [process_single_feed(feed, workflow_execution_id)] called on its own:
    the steps of the call, one after the other (nine at most). The second
    argument is not read by the function. *)
Definition process_single_feed (clk : Clock) (api : string → analysis)
    (feed : Feed.t) (workflow_execution_id : Z) (w : World) : World * Worker :=
  run_worker 9 clk 0 w (mkWorker feed api Entry 0).

Definition outcome_of (t : Worker) : option outcome :=
  match at_pc t with
  | Return o => Some o
  | _ => None
  end.

(** ** The worker pool ([ThreadPoolExecutor(max_workers=5)]) *)

Record Pool := mkPool {
  world : World;
  workers : list Worker;            (* one per submitted feed, in order *)
  completed : list nat              (* workers that returned, first first *)
}.

Definition is_queued (t : Worker) : bool :=
  match at_pc t with Queued => true | _ => false end.

Definition has_returned (t : Worker) : bool :=
  match at_pc t with Return _ => true | _ => false end.

Definition in_flight (t : Worker) : bool :=
  negb (is_queued t) && negb (has_returned t).

Definition max_workers : nat := 5.

(** The executor hands the submissions out in order, to five threads: the
    [i]-th starts once the earlier ones have started and fewer than five
    are running. *)
Definition can_start (i : nat) (ws : list Worker) : bool :=
  forallb (λ t, negb (is_queued t)) (take i ws)
  && bool_decide (length (filter (λ t, in_flight t = true) ws) < max_workers)%nat.

(** Worker [i] moves, if it can. *)
Definition pool_step (clk : Clock) (p : Pool) (i : nat) : Pool :=
  match workers p !! i with
  | Some t =>
      if is_queued t && negb (can_start i (workers p)) then p
      else
        match worker_step clk i (world p) t with
        | Some (w', t') =>
            mkPool w' (<[i := t']> (workers p))
              (if has_returned t' then completed p ++ [i] else completed p)
        | None => p
        end
  | None => p
  end.

(** The pool of a run before any worker has moved. *)
Definition new_pool (apis : nat → string → analysis) (feeds : list Feed.t)
    (w : World) : Pool :=
  mkPool w (imap (λ i f, mkWorker f (apis i) Queued 0) feeds) [].

(** Worker [i] moves until it returns or has to wait. *)
Definition pool_finish_one (clk : Clock) (p : Pool) (i : nat) : Pool :=
  Nat.iter 10 (λ q, pool_step clk q i) p.

(** The [with ThreadPoolExecutor(...)] block: the workers move as the
    interleaving [schedule] says; at the end of the block the executor is
    joined, so whoever holds the lock and then everybody else runs to the
    end. *)
Definition run_pool (clk : Clock) (schedule : list nat)
    (apis : nat → string → analysis) (feeds : list Feed.t) (w : World) : Pool :=
  let p1 := foldl (pool_step clk) (new_pool apis feeds w) schedule in
  let holder := match db_lock (world p1) with Some i => [i] | None => [] end in
  foldl (pool_finish_one clk) p1 (holder ++ seq 0 (length feeds)).

(** The results, in the order [as_completed] yields them. *)
Definition results (p : Pool) : list outcome :=
  omap (λ i, t ← workers p !! i; outcome_of t) (completed p).

(** ** The collaborators of a run *)

Record Env := mkEnv {
  clock : Clock;
  chat_api : string → http_outcome;
      (* the answer to the keyword prompt for a keyword *)
  mcp_search : string → result (list Feed.t);
      (* connecting and [client.search_feeds(keyword, sort_by="最新")] *)
  analysis_api : nat → string → analysis;
      (* the answer to the ticket prompt, for the [i]-th feed of the run *)
  schedule : list nat
      (* the interleaving of the workers of the run *)
}.

Definition pretty_nat (n : nat) : string := pretty (Z.of_nat n).

(** ** A timer fire: [execute_scheduled_task] *)

(** The [except] block of lines 356-365. *)
Definition scheduled_task_failed (clk : Clock) (task_id : Z) (e : exn)
    (w : World) : World :=
  let message := "执行失败: " +:+ str e in
  let w1 := set_db (update_task (db w) task_id
                      (WorkflowExecution.with_message message)) w in
  notify_clients clk "task_update" (TaskStatus task_id "running" message) w1.

(** Lines 282-296: the execution information of the task is updated,
    committed and announced. Gives the new run counter too. *)
Definition begin_scheduled_run (clk : Clock) (task_id : Z)
    (task : WorkflowExecution.t) (w : World) : World * Z :=
  let '(last_run_at, w1) := utcnow clk w in
  let run_count := default 0 (WorkflowExecution.run_count task) + 1 in
  let '(t2, w2) := utcnow clk w1 in
  let next_run_at := t2 + WorkflowExecution.schedule_interval task in
  let message := "第 " +:+ pretty run_count +:+ " 次定时执行" in
  let w3 :=
    set_db (update_task (db w2) task_id
              (λ x, WorkflowExecution.with_message message
                      (WorkflowExecution.with_next_run_at (Some next_run_at)
                         (WorkflowExecution.with_run_count (Some run_count)
                            (WorkflowExecution.with_last_run_at
                               (Some last_run_at) x))))) w2 in
  (notify_clients clk "task_update"
     (TaskRun task_id "running" message run_count
        (Some last_run_at) (Some next_run_at)) w3,
   run_count).

(** Lines 317-354: the feeds that were found are processed by the pool and
    the result of the run is written to the task and announced. *)
Definition scheduled_run_feeds (env : Env) (task_id run_count : Z)
    (feeds : list Feed.t) (w : World) : World :=
  let clk := clock env in
  let w1 := notify_clients clk "task_update"
              (TaskStatus task_id "running"
                 ("找到 " +:+ pretty_nat (length feeds) +:+ " 条笔记，正在分析..."))
              w in
  let p := run_pool clk (schedule env) (analysis_api env) feeds w1 in
  let ticket_count :=
    length (filter (λ r, success r && is_ticket r = true) (results p)) in
  let message := "第 " +:+ pretty run_count +:+ " 次执行完成，发现 "
                 +:+ pretty_nat ticket_count +:+ " 条新票务" in
  let w2 := set_db (update_task (db (world p)) task_id
                      (WorkflowExecution.with_message message))
                   (world p) in
  notify_clients clk "task_update" (TaskStatus task_id "running" message) w2.

(** Lines 301-365: the [try] block and its [except]. *)
Definition scheduled_run_search (env : Env) (task_id : Z) (keyword : string)
    (run_count : Z) (w : World) : World :=
  let clk := clock env in
  let w1 := record_call (CallOptimize keyword) w in
  match optimize_search_keyword keyword (chat_api env keyword) with
  | Raise e => scheduled_task_failed clk task_id e w1
  | Ok optimized_keyword =>
      let w2 := notify_clients clk "task_update"
                  (TaskStatus task_id "running"
                     ("正在搜索小红书内容（" +:+ optimized_keyword +:+ "）..."))
                  w1 in
      let w3 := record_call (CallSearch optimized_keyword) w2 in
      match mcp_search env optimized_keyword with
      | Raise e => scheduled_task_failed clk task_id e w3
      | Ok feeds => scheduled_run_feeds env task_id run_count feeds w3
      end
  end.

Definition execute_scheduled_task (env : Env) (task_id : Z) (keyword : string)
    (w : World) : World :=
  match get_task (db w) task_id with
  | None => w
  | Some task =>
      let status := WorkflowExecution.status task in
      if negb (bool_decide (status ∈ ["running"; "paused"])) then w
      else if String.eqb status "paused" then w
      else
        let '(w1, run_count) := begin_scheduled_run (clock env) task_id task w in
        scheduled_run_search env task_id keyword run_count w1
  end.

(** ** Task creation: [execute_search_task] *)

(** The loop over [as_completed] (lines 696-721): [processed_notes] results
    have been seen and [ticket_count] of them were tickets. *)
Fixpoint report_results (clk : Clock) (task_id : Z) (total_notes : nat)
    (processed_notes ticket_count : nat) (rs : list outcome) (w : World)
    : World * nat :=
  match rs with
  | [] => (w, ticket_count)
  | r :: rest =>
      let processed_notes := S processed_notes in
      let '(w1, ticket_count) :=
        match r with
        | TicketSaved ticket =>
            (notify_clients clk "ticket_update" (TicketFound task_id ticket) w,
             S ticket_count)
        | _ => (w, ticket_count)
        end in
      let w2 :=
        if (processed_notes mod 5 =? 0)%nat || (processed_notes =? total_notes)%nat
        then notify_clients clk "task_update"
               (TaskStatus task_id "running"
                  ("已处理 " +:+ pretty_nat processed_notes +:+ "/"
                   +:+ pretty_nat total_notes +:+ " 条数据，发现 "
                   +:+ pretty_nat ticket_count +:+ " 条票务"))
               w1
        else w1 in
      report_results clk task_id total_notes processed_notes ticket_count rest w2
  end.

(** Lines 624-648: the task is created in state [running], its timer is
    registered and the start of the search is announced. Gives the key of
    the task too. *)
Definition create_task (clk : Clock) (keyword optimized_keyword : string)
    (w : World) : World * Z :=
  let '(created_at, w1) := utcnow clk w in
  let task_id := next_id (WorkflowExecution.id <$> workflow_executions (db w1)) in
  let workflow_execution :=
    WorkflowExecution.mk task_id 200 0
      (if String.eqb keyword optimized_keyword then keyword
       else keyword +:+ " (优化为: " +:+ optimized_keyword +:+ ")")
      "running" (JObj []) created_at "首次执行中..." true 60 None None (Some 0) in
  let w2 := set_db (mkStore (notes (db w1)) (tickets (db w1))
                      (workflow_executions (db w1) ++ [workflow_execution]))
                   w1 in
  let w3 := add_task_schedule clk task_id keyword 60 w2 in
  (notify_clients clk "task_update"
     (TaskStatus task_id "running"
        ("正在搜索：" +:+ optimized_keyword +:+
         (if String.eqb keyword optimized_keyword then ""
          else " (优化自: " +:+ keyword +:+ ")")))
     w3,
   task_id).

(** Lines 657-667: the search of the feed service raised. *)
Definition search_task_failed (clk : Clock) (task_id : Z) (e : exn) (w : World)
    : World :=
  let w1 := set_db (update_task (db w) task_id
                      (λ x, WorkflowExecution.with_code 500
                              (WorkflowExecution.with_status "failed" x)))
                   w in
  notify_clients clk "task_update"
    (TaskStatus task_id "failed" ("MCP 服务调用失败: " +:+ str e)) w1.

(** Lines 671-679: the search found nothing. *)
Definition search_task_empty (clk : Clock) (task_id : Z) (w : World) : World :=
  let w1 := set_db (update_task (db w) task_id
                      (WorkflowExecution.with_status "completed")) w in
  notify_clients clk "task_update"
    (TaskStatus task_id "completed" "未找到相关数据") w1.

(** Lines 681-732: the feeds are processed by the pool, every result is
    reported, the task is completed. *)
Definition search_task_feeds (env : Env) (task_id : Z) (feeds : list Feed.t)
    (w : World) : World :=
  let clk := clock env in
  let total_notes := length feeds in
  let p := run_pool clk (schedule env) (analysis_api env) feeds w in
  let '(w1, ticket_count) :=
    report_results clk task_id total_notes 0 0 (results p) (world p) in
  let w2 := set_db (update_task (db w1) task_id
                      (WorkflowExecution.with_status "completed")) w1 in
  notify_clients clk "task_update"
    (TaskStatus task_id "completed"
       ("搜索完成，共处理 " +:+ pretty_nat total_notes
        +:+ " 条数据，发现 " +:+ pretty_nat ticket_count +:+ " 条票务信息"))
    w2.

Definition execute_search_task (env : Env) (keyword : string) (w : World)
    : World * bool :=
  let clk := clock env in
  let w0 := record_call (CallOptimize keyword) w in
  match optimize_search_keyword keyword (chat_api env keyword) with
  | Raise e => (w0, false)          (* line 734: no task has been created *)
  | Ok optimized_keyword =>
      let '(w1, task_id) := create_task clk keyword optimized_keyword w0 in
      let w2 := record_call (CallSearch optimized_keyword) w1 in
      match mcp_search env optimized_keyword with
      | Raise e => (search_task_failed clk task_id e w2, false)
      | Ok [] => (search_task_empty clk task_id w2, false)
      | Ok feeds => (search_task_feeds env task_id feeds w2, true)
      end
  end.

(** ** Deleting a task: the route [/tasks/<task_id>/delete] *)

(** [Ticket.query.join(Note).filter(Ticket.created_at >= task_created_at)]:
    the tickets that have their note, from that time on. *)
Definition joined_since (db : Store) (task_created_at : Z) (k : Ticket.t) : bool :=
  match Ticket.note_id k with
  | Some note_id =>
      bool_decide (is_Some (get_note db note_id))
      && (task_created_at <=? Ticket.created_at k)
  | None => false
  end.

(** The commit of lines 993-1008. Deleting a note whose [tickets] relationship
    still holds tickets (no delete cascade is declared in [database.py])
    clears their [note_id]. *)
Definition delete_task_rows (task : WorkflowExecution.t) (db : Store) : Store :=
  let task_created_at := WorkflowExecution.created_at task in
  let note_ids := omap Ticket.note_id
                    (filter (λ k, joined_since db task_created_at k = true)
                       (tickets db)) in
  mkStore
    (filter (λ n, Note.note_id n ∉ note_ids) (notes db))
    ((λ k, match Ticket.note_id k with
           | Some note_id =>
               if bool_decide (note_id ∈ note_ids)
               then Ticket.with_note_id None k else k
           | None => k
           end)
       <$> filter (λ k, joined_since db task_created_at k = false) (tickets db))
    (filter (λ x, WorkflowExecution.id x ≠ WorkflowExecution.id task)
       (workflow_executions db)).

(** The answer of the route: the [success] flag and the status code. *)
Definition delete_task (clk : Clock) (task_id : Z) (w : World)
    : World * (bool * Z) :=
  let '(w1, _) := remove_task_schedule task_id w in
  match get_task (db w1) task_id with
  | Some workflow_execution =>
      let w2 := set_db (delete_task_rows workflow_execution (db w1)) w1 in
      (notify_clients clk "task_update" (TaskDeleted task_id) w2, (true, 200))
  | None => (w1, (false, 404))
  end.

(** ** The answer of the classifier: [analyze_ticket_content], lines 374-436 *)

(** [s.find(c)] and [s.rfind(c)] for a character [c] of one byte: the index
    of the first and of the last occurrence, [-1] when there is none. The
    indices count bytes where Python counts code points; the slice between
    two of them is the same text. *)
Fixpoint py_find (c : ascii) (s : string) : Z :=
  match s with
  | EmptyString => -1
  | String a rest =>
      if Ascii.eqb a c then 0
      else let i := py_find c rest in if i <? 0 then -1 else 1 + i
  end.

Fixpoint py_rfind (c : ascii) (s : string) : Z :=
  match s with
  | EmptyString => -1
  | String a rest =>
      let i := py_rfind c rest in
      if 0 <=? i then 1 + i else if Ascii.eqb a c then 0 else -1
  end.

(** [s[i:j]] for [0 <= i <= j <= len(s)]. *)
Definition py_slice (s : string) (i j : Z) : string :=
  String.substring (Z.to_nat i) (Z.to_nat (j - i)) s.

(** [{"is_ticket_resale": False}] as a JSON value. *)
Definition not_resale_json : json := JObj [("is_ticket_resale", JBool false)].

(** [event_data.get("choices", [{}])[0].get("delta", {})] *)
Definition delta_of (event_data : json) : result json :=
  choices ← py_get event_data "choices" (JArr [JObj []]);
  first ← py_index0 choices;
  py_get first "delta" (JObj []).

(** One turn of the loop over the events of the stream (lines 405-414);
    [loads] is [json.loads], which raises on a text that is not JSON. *)
Definition add_event (loads : string → result json) (full_text data : string)
    : result string :=
  if String.eqb data "" then Ok full_text
  else
    match loads data with
    | Raise _ => Ok full_text
    | Ok event_data =>
        delta ← delta_of event_data;
        match delta with
        | JObj kv =>
            match assoc "content" kv with
            | Some (JStr content) => Ok (full_text +:+ content)
            | Some _ => Raise (Exn "TypeError" "can only concatenate str to str")
            | None => Ok full_text
            end
        | _ => Ok full_text
        end
    end.

Fixpoint read_events (loads : string → result json) (full_text : string)
    (events : list string) : result string :=
  match events with
  | [] => Ok full_text
  | data :: rest =>
      full_text' ← add_event loads full_text data;
      read_events loads full_text' rest
  end.

(** Lines 418-431: the text from the first opening brace to the last
    closing brace is parsed. *)
Definition ticket_json (loads : string → result json) (full_text : string)
    : json :=
  let json_start := py_find "{" full_text in
  let json_end := py_rfind "}" full_text + 1 in
  if (0 <=? json_start) && (json_start <? json_end) then
    match loads (py_slice full_text json_start json_end) with
    | Ok result => result
    | Raise _ => not_resale_json
    end
  else not_resale_json.

(** The outcome of the streaming request: it raises, or answers with a
    status code, a text and the events of the stream, which ends or breaks
    with an exception after them. *)
Inductive stream_outcome :=
| StreamRaise (e : exn)
| StreamResponse (status_code : Z) (text : string) (events : list string)
    (broken : option exn).

(** The dictionary [analyze_ticket_content] returns, from the outcome of
    its request. *)
Definition analyze_ticket_stream (loads : string → result json)
    (post : stream_outcome) : json :=
  match post with
  | StreamRaise _ => not_resale_json
  | StreamResponse status_code _ events broken =>
      if negb (status_code =? 200) then not_resale_json
      else
        match read_events loads "" events, broken with
        | Ok full_text, None => ticket_json loads full_text
        | _, _ => not_resale_json
        end
  end.

(** The integers SQLite holds: the keys of the tables are among them. *)
Definition sqlite_integer (z : Z) : Prop := - 2 ^ 63 ≤ z < 2 ^ 63.

(** ** Stopping, pausing and resuming a task: the routes *)

(** [/tasks/<task_id>/stop] (lines 916-938): the answer is the [success]
    flag and the status code, for a task id that the store can hold as a
    key (see [sqlite_integer]; the query for a larger one raises and the
    route answers 500). *)
Definition stop_task (clk : Clock) (task_id : Z) (w : World)
    : World * (bool * Z) :=
  match get_task (db w) task_id with
  | Some _ =>
      let '(w1, _) := remove_task_schedule task_id w in
      let w2 := set_db (update_task (db w1) task_id
                          (λ x, WorkflowExecution.with_message "任务已停止"
                                  (WorkflowExecution.with_is_scheduled false
                                     (WorkflowExecution.with_status "stopped" x))))
                       w1 in
      (notify_clients clk "task_update"
         (TaskStatus task_id "stopped" "任务已停止") w2,
       (true, 200))
  | None => (w, (false, 404))
  end.

(** [/tasks/<task_id>/pause] (lines 940-954). *)
Definition pause_task (clk : Clock) (task_id : Z) (w : World)
    : World * (bool * Z) :=
  let '(w1, success) := pause_task_schedule task_id w in
  if success then
    (notify_clients clk "task_update"
       (TaskStatus task_id "paused" "任务已暂停") w1,
     (true, 200))
  else (w1, (false, 400)).

(** [/tasks/<task_id>/resume] (lines 956-970). *)
Definition resume_task (clk : Clock) (task_id : Z) (w : World)
    : World * (bool * Z) :=
  let '(w1, success) := resume_task_schedule task_id w in
  if success then
    (notify_clients clk "task_update"
       (TaskStatus task_id "running" "任务已恢复") w1,
     (true, 200))
  else (w1, (false, 400)).

(** ** Starting the monitor *)

(** [Monitor.start] (lines 127-141); [is_running] is the flag of the
    monitor, given and returned. When the monitor was not running, the
    timers of the tasks that are scheduled and [running] are registered
    again, each with the search terms of its task as the keyword. *)
Definition start (clk : Clock) (is_running : bool) (w : World) : bool * World :=
  if negb is_running then
    let active_tasks :=
      filter (λ x, WorkflowExecution.is_scheduled x = true
                   ∧ WorkflowExecution.status x = "running")
        (workflow_executions (db w)) in
    (true,
     foldl (λ w task,
              add_task_schedule clk (WorkflowExecution.id task)
                (WorkflowExecution.msg task)
                (WorkflowExecution.schedule_interval task) w)
       w active_tasks)
  else (is_running, w).

(** ** Operations, one after the other *)

(** What happens to the process: a search is submitted, the timer of a job
    fires, a task is stopped, paused, resumed or deleted. *)
Inductive operation :=
| Search (keyword : string)
| Fire (job_id : string)
| Stop (task_id : Z)
| Pause (task_id : Z)
| Resume (task_id : Z)
| Delete (task_id : Z).

(** The scheduler calls [execute_scheduled_task] with the arguments the job
    was registered with ([args=[task_id, keyword]], line 176), when the job
    is registered and not paused. *)
Definition fire_job (env : Env) (job_id : string) (w : World) : World :=
  match scheduler (monitor w) !! job_id with
  | Some j =>
      if paused j then w
      else execute_scheduled_task env (args j).1 (args j).2 w
  | None => w
  end.

Definition perform (env : Env) (o : operation) (w : World) : World :=
  match o with
  | Search keyword => (execute_search_task env keyword w).1
  | Fire job_id => fire_job env job_id w
  | Stop task_id => (stop_task (clock env) task_id w).1
  | Pause task_id => (pause_task (clock env) task_id w).1
  | Resume task_id => (resume_task (clock env) task_id w).1
  | Delete task_id => (delete_task (clock env) task_id w).1
  end.

(** Each operation with the collaborators it meets. *)
Definition perform_all (steps : list (Env * operation)) (w : World) : World :=
  foldl (λ w s, perform s.1 s.2 w) w steps.

(** ** Statements used by the properties *)

(** The ways the optimisation call can fail: the request raises, the answer
    is not a success, the body is not JSON, the answer has not the expected
    shape, the content is not a text, or it is empty once stripped (which is
    also what a missing [choices], [message] or [content] reads as). *)
Inductive optimization_failed : http_outcome → Prop :=
| failed_request e :
    optimization_failed (HttpRaise e)
| failed_status status_code text body :
    status_code ≠ 200 →
    optimization_failed (HttpResponse status_code text body)
| failed_body text :
    optimization_failed (HttpResponse 200 text None)
| failed_shape text j e :
    message_content j = Raise e →
    optimization_failed (HttpResponse 200 text (Some j))
| failed_content_type text j v e :
    message_content j = Ok v → py_str_strip v = Raise e →
    optimization_failed (HttpResponse 200 text (Some j))
| failed_empty text j s :
    message_content j = Ok (JStr s) → py_strip s = "" →
    optimization_failed (HttpResponse 200 text (Some j)).


(** Messages of one type in a queue, and searches among the calls. *)
Definition of_type (event_type : string) (queue : list message) : list message :=
  filter (λ m, type m = event_type) queue.

Definition is_search (c : call) : bool :=
  match c with CallSearch _ => true | _ => false end.

Definition is_analyze (c : call) : bool :=
  match c with CallAnalyze _ => true | _ => false end.

Definition searches (cs : list call) : nat :=
  length (filter (λ c, is_search c = true) cs).

(** The registry is keyed by task ids: this holds of the empty registry and
    [add_task_schedule] keeps it. *)
Definition int_keyed (mon : Monitor) : Prop :=
  ∀ k, k ∈ dom (task_jobs mon) → ∃ task_id : Z, k = inl task_id.

(** How many messages the subscribers have received altogether. *)
Definition delivered (b : Bus) : nat :=
  length (concat (received <$> streams b)).

(** A ticket the deletion of a task takes: its note is in the store and it
    was persisted at or after [since]; and a note it takes: one that such a
    ticket refers to. *)
Definition ticket_taken (db : Store) (since : Z) (k : Ticket.t) : Prop :=
  ∃ note_id, Ticket.note_id k = Some note_id
             ∧ is_Some (get_note db note_id)
             ∧ since ≤ Ticket.created_at k.

Definition note_taken (db : Store) (since : Z) (note_id : string) : Prop :=
  ∃ k, k ∈ tickets db ∧ ticket_taken db since k
       ∧ Ticket.note_id k = Some note_id.

(** What the workers of a pool may do to the world: add tickets and call
    the classifier. Notes, tasks, the event queue and the timers stay. *)
Record worker_effect (w w' : World) : Prop := mk_worker_effect {
  effect_notes : notes (db w') = notes (db w);
  effect_tasks : workflow_executions (db w') = workflow_executions (db w);
  effect_queue : event_queue w' = event_queue w;
  effect_monitor : monitor w' = monitor w;
  effect_tickets : ∃ added, tickets (db w') = tickets (db w) ++ added;
  effect_calls : ∃ made, calls w' = calls w ++ made
                         ∧ Forall (λ c, is_analyze c = true) made
}.

(** The points of [process_single_feed] inside a [with db_lock:] block, and
    the points a call can be at without having called the classifier. *)
Definition holds_lock (p : pc) : bool :=
  match p with
  | GetNote | AddNote | QueryTicket _ | AddTicket _ | CommitNote => true
  | _ => false
  end.

Definition before_analysis (p : pc) : bool :=
  match p with
  | Queued | Entry | AcquireNoteLock | GetNote | AddNote => true
  | Return NotNoteType | Return IncompleteData | Return (AlreadyExists _) => true
  | _ => false
  end.

(** How many steps a call is from its return, at most. *)
Definition remaining (p : pc) : nat :=
  match p with
  | Queued => 10
  | Entry => 9
  | AcquireNoteLock => 8
  | GetNote => 7
  | AddNote => 6
  | Analyze => 5
  | AcquireTicketLock _ => 4
  | QueryTicket _ => 3
  | AddTicket _ => 2
  | AcquireCommitLock => 4
  | CommitNote => 2
  | Except _ => 1
  | Return _ => 0
  end.

(** The lock is free and the worker is outside the blocks, or the worker is
    inside a block and holds the lock. *)
Definition lock_fits (tid : nat) (w : World) (t : Worker) : Prop :=
  (db_lock w = None ∧ holds_lock (at_pc t) = false)
  ∨ (db_lock w = Some tid ∧ holds_lock (at_pc t) = true).

(** What holds of a pool at every moment, for the post [note_id]: a worker
    inside a block holds the lock; a worker about to add its ticket has seen
    that there is none; the store has at most one ticket for the post; a
    worker that has not reached the classifier has not called it. *)
Record pool_inv (note_id : string) (p : Pool) : Prop := mk_pool_inv {
  inv_lock : ∀ i t, workers p !! i = Some t → holds_lock (at_pc t) = true →
                    db_lock (world p) = Some i;
  inv_absent : ∀ i t info, workers p !! i = Some t → at_pc t = AddTicket info →
                           count_tickets (db (world p)) (Feed.id (feed t)) = 0%nat;
  inv_unique : (count_tickets (db (world p)) note_id ≤ 1)%nat;
  inv_analyses : ∀ i t, workers p !! i = Some t →
                        before_analysis (at_pc t) = true → analyses t = 0%nat
}.

(** The bookkeeping of a pool: a worker inside a block holds the lock and
    the lock is held by a worker inside a block; the workers were started in
    the order of submission; [completed] lists the workers that returned,
    once each. *)
Record pool_ok (p : Pool) : Prop := mk_pool_ok {
  ok_lock : ∀ i t, workers p !! i = Some t → holds_lock (at_pc t) = true →
                   db_lock (world p) = Some i;
  ok_holder : ∀ i, db_lock (world p) = Some i →
                   ∃ t, workers p !! i = Some t ∧ holds_lock (at_pc t) = true;
  ok_fifo : ∀ i j ti tj, (i < j)%nat → workers p !! i = Some ti →
                         workers p !! j = Some tj →
                         is_queued ti = true → is_queued tj = true;
  ok_completed : ∀ i, i ∈ completed p
                      ↔ ∃ t, workers p !! i = Some t ∧ has_returned t = true;
  ok_nodup : NoDup (completed p)
}.

(** The tickets among the results of a pool, and the tickets that the
    messages of a queue announce. *)
Definition saved_tickets (rs : list outcome) : list Snapshot.t :=
  omap (λ r, match r with TicketSaved k => Some k | _ => None end) rs.

Definition announced (queue : list message) : list Snapshot.t :=
  omap (λ m, match data m with TicketFound _ k => Some k | _ => None end) queue.

(** The snapshot a stored ticket was returned with (lines 575-586: the URL
    is built from the post the ticket refers to), and the snapshot a worker
    has returned, if it saved a ticket. *)
Definition announcement_of (k : Ticket.t) : Snapshot.t :=
  snapshot_of k (note_url_of (default "" (Ticket.note_id k))).

Definition saved_by (t : Worker) : option Snapshot.t :=
  match at_pc t with
  | Return (TicketSaved ticket) => Some ticket
  | _ => None
  end.

(** The columns of a task that a timer fire does not assign: the key, the
    status, the search terms, the time of creation, the code and the
    schedule. *)
Definition kept_by_timer (x : WorkflowExecution.t)
    : Z * string * string * Z * Z * bool * Z :=
  (WorkflowExecution.id x, WorkflowExecution.status x, WorkflowExecution.msg x,
   WorkflowExecution.created_at x, WorkflowExecution.code x,
   WorkflowExecution.is_scheduled x, WorkflowExecution.schedule_interval x).

(** An event of the stream that the loop reads: it has data and the data
    is JSON. *)
Definition readable (loads : string → result json) (data : string) : bool :=
  negb (String.eqb data "")
  && match loads data with Ok _ => true | Raise _ => false end.

(** A date of the calendar with a year of four digits. *)
Definition four_digit_date (d : date) : Prop :=
  1000 ≤ year d ≤ 9999 ∧ 1 ≤ month d ≤ 12
  ∧ 1 ≤ day d ≤ days_in_month (year d) (month d).

(** A candidate that passes the checks of lines 510-519, and one that
    moreover has no note in the store: the posts a run classifies. *)
Definition well_formed (f : Feed.t) : bool :=
  String.eqb (Feed.modelType f) "note"
  && negb (String.eqb (Feed.id f) "" || bool_decide (Feed.noteCard f = [])).

Definition eligible (db : Store) (f : Feed.t) : bool :=
  well_formed f
  && match get_note db (Feed.id f) with None => true | Some _ => false end.

(** The request a worker has sent to the classifier, if it has. *)
Definition analysed_call (t : Worker) : option call :=
  match analyses t with
  | O => None
  | S _ => Some (CallAnalyze (displayTitle (feed t)))
  end.

(** Where a worker stands, against the store [db0] its pool started from:
    it has called the classifier, once, exactly when it is past line 546;
    it got there only for a post that is eligible, and it answers
    [already_exists] only for a well-formed post that has its note. *)
Definition worker_ok (db0 : Store) (t : Worker) : Prop :=
  match at_pc t with
  | Queued | Entry => analyses t = 0%nat
  | AcquireNoteLock | GetNote =>
      analyses t = 0%nat ∧ well_formed (feed t) = true
  | AddNote | Analyze =>
      analyses t = 0%nat ∧ eligible db0 (feed t) = true
  | Return NotNoteType | Return IncompleteData =>
      analyses t = 0%nat ∧ well_formed (feed t) = false
  | Return (AlreadyExists note_id) =>
      analyses t = 0%nat ∧ well_formed (feed t) = true
      ∧ eligible db0 (feed t) = false ∧ note_id = Feed.id (feed t)
  | _ => analyses t = 1%nat ∧ eligible db0 (feed t) = true
  end.

(** What holds of a pool for the posts [feeds], started in the world [w0],
    at every moment: the notes are those of [w0]; the workers have the posts
    in order and stand as [worker_ok] says; the requests sent since the start
    are those of the workers that have called the classifier; the tickets
    added since the start are for eligible posts. *)
Record pool_trace (w0 : World) (feeds : list Feed.t) (p : Pool) : Prop :=
  mk_pool_trace {
  trace_notes : notes (db (world p)) = notes (db w0);
  trace_feeds : feed <$> workers p = feeds;
  trace_workers : ∀ i t, workers p !! i = Some t → worker_ok (db w0) t;
  trace_calls : ∃ made, calls (world p) = calls w0 ++ made
                        ∧ made ≡ₚ omap analysed_call (workers p);
  trace_tickets : ∃ added,
      tickets (db (world p)) = tickets (db w0) ++ added
      ∧ Forall (λ k, ∃ f, f ∈ feeds ∧ Ticket.note_id k = Some (Feed.id f)
                          ∧ eligible (db w0) f = true) added
}.

(** ** Sample states *)

Definition sample_clock : Clock :=
  mkClock (λ k, 1000 + Z.of_nat k) (λ k, 29800 + Z.of_nat k).

Definition fresh_world : World :=
  mkWorld empty_store None [] new_monitor [] 0.

(** A timer was registered for task 5, which has no row in the store. *)
Definition orphan_timer_world : World :=
  add_task_schedule sample_clock 5 "周杰伦" 60 fresh_world.

Definition sample_message : message :=
  mkMessage "task_update" (TaskStatus 1 "running" "正在搜索：周杰伦") 29800.

(** Task 1 was created at time 100. The store holds a post persisted later
    that is no ticket offer, and an older post with an older ticket. *)
Definition sample_task : WorkflowExecution.t :=
  WorkflowExecution.mk 1 200 0 "周杰伦" "running" (JObj []) 100 "首次执行中..."
    true 60 None (Some 160) (Some 0).

Definition later_note : Note.t :=
  Note.mk "n2" "周杰伦演唱会 repo" (note_url_of "n2") 150 150.

Definition older_note : Note.t :=
  Note.mk "n1" "出周杰伦门票" (note_url_of "n1") 50 50.

Definition older_ticket : Ticket.t :=
  Ticket.mk 1 (Some "n1") true "周杰伦演唱会" "上海" None "内场" "1200" "2" "vx" "" 50.

Definition sample_store : Store :=
  mkStore [older_note; later_note] [older_ticket] [sample_task].

Definition sample_world : World :=
  mkWorld sample_store None [] new_monitor [] 0.

(** Collaborators for the samples: the keyword API answers with an error
    status (the keyword is used as it is), the feed service as given, the
    classifier as given; the workers run one after the other. *)
Definition sample_env (found : result (list Feed.t)) (verdict : analysis) : Env :=
  mkEnv sample_clock (λ _, HttpResponse 500 "" None) (λ _, found)
    (λ _ _, verdict) [].

Definition timeout_error : exn := Exn "ReadTimeout" "Read timed out.".

(** A post the store has not seen, and a positive verdict on it. *)
Definition new_feed : Feed.t :=
  Feed.mk "note" "n3" [("displayTitle", "出两张周杰伦上海站内场")].

Definition resale_info : TicketInfo.t :=
  TicketInfo.mk true "周杰伦演唱会" "上海" "2025-10-01" "内场" "1200" "2" "vx: abc" ""
    true.

Definition resale_snapshot : Snapshot.t :=
  Snapshot.mk "周杰伦演唱会" "上海" (Some (Date 2025 10 1)) "1200" "内场" "2"
    "vx: abc" "" (note_url_of "n3").

(** A positive verdict whose date is no calendar date, and a candidate of
    another kind. *)
Definition vague_info : TicketInfo.t :=
  TicketInfo.mk true "周杰伦演唱会" "上海" "10月初" "内场" "1200" "2" "vx: abc" ""
    true.

Definition video_feed : Feed.t :=
  Feed.mk "video" "v1" [("displayTitle", "周杰伦演唱会现场")].

(** A post whose note the sample store holds. *)
Definition seen_feed : Feed.t :=
  Feed.mk "note" "n1" [("displayTitle", "出周杰伦门票")].

(** A reader of JSON texts that knows two of them. *)
Definition sample_loads (data : string) : result json :=
  if String.eqb data "[]" then Ok (JArr [])
  else if String.eqb data "{}" then Ok (JObj [])
  else Raise (Exn "JSONDecodeError" "Expecting value").
(** * Properties *)

(** ** Keyword optimisation fails open *)

Lemma optimize_search_keyword_total original_keyword post :
  ∃ s, optimize_search_keyword original_keyword post = Ok s.
Proof.
  unfold optimize_search_keyword, try_except.
  destruct (optimize_search_keyword_body original_keyword post); eauto.
Qed.

Lemma optimize_search_keyword_refines original_keyword text j s :
  message_content j = Ok (JStr s) → py_strip s ≠ "" →
  optimize_search_keyword original_keyword (HttpResponse 200 text (Some j))
  = Ok (py_strip s).
Proof.
  intros Hc Hs. unfold optimize_search_keyword, optimize_search_keyword_body.
  cbn. rewrite Hc. cbn.
  destruct (String.eqb_spec (py_strip s) ""); [contradiction | reflexivity].
Qed.

(** C9: [optimize_search_keyword] always returns a keyword, never an
    exception, and whenever the optimisation call fails (the request raises,
    the status is not 200, the content is missing, empty or ill-formed) the
    keyword it returns is the original one. *)
Theorem optimize_search_keyword_fails_open original_keyword post :
  (∃ s, optimize_search_keyword original_keyword post = Ok s) ∧
  (optimization_failed post →
   optimize_search_keyword original_keyword post = Ok original_keyword).
Proof.
  split; [apply optimize_search_keyword_total |].
  intros Hfail. unfold optimize_search_keyword, optimize_search_keyword_body.
  destruct Hfail as [e | status_code text body Hst | text | text j e Hc
                    | text j v e Hc Hv | text j s Hc Hs]; cbn.
  - reflexivity.
  - destruct (Z.eqb_spec status_code 200); [contradiction | reflexivity].
  - reflexivity.
  - rewrite Hc. reflexivity.
  - rewrite Hc. cbn. rewrite Hv. reflexivity.
  - rewrite Hc. cbn. rewrite Hs. reflexivity.
Qed.

Lemma optimize_search_keyword_fails_open_witness :
  optimization_failed (HttpResponse 200 "{}" (Some (JObj [("choices", JArr [])])))
  ∧ optimize_search_keyword "周杰伦演唱会有票转让吗"
      (HttpResponse 200 "{}" (Some (JObj [("choices", JArr [])])))
    = Ok "周杰伦演唱会有票转让吗".
Proof.
  assert (H : optimization_failed
                (HttpResponse 200 "{}" (Some (JObj [("choices", JArr [])])))).
  { eapply failed_shape. reflexivity. }
  split; [exact H |].
  exact (proj2 (optimize_search_keyword_fails_open _ _) H).
Defined.

Example optimize_timeout :
  optimize_search_keyword "五月天 北京" (HttpRaise (Exn "Timeout" "timed out"))
  = Ok "五月天 北京".
Proof. reflexivity. Qed.

Example optimize_null_content :
  optimize_search_keyword "五月天 北京"
    (HttpResponse 200 ""
       (Some (JObj [("choices", JArr [JObj [("message", JObj [("content", JNull)])]])])))
  = Ok "五月天 北京".
Proof. reflexivity. Qed.

Example optimize_blank_content :
  optimize_search_keyword "五月天 北京"
    (HttpResponse 200 ""
       (Some (JObj [("choices", JArr [JObj [("message", JObj [("content", JStr " 
 ")])]])])))
  = Ok "五月天 北京".
Proof. reflexivity. Qed.

Example optimize_refined :
  optimize_search_keyword "求一张北京的五月天演唱会门票"
    (HttpResponse 200 ""
       (Some (JObj [("choices",
                     JArr [JObj [("message", JObj [("content", JStr " 五月天 北京
")])]])])))
  = Ok "五月天 北京".
Proof. reflexivity. Qed.

(** ** The registry lookup of pause, resume and remove *)

Lemma int_keyed_new : int_keyed new_monitor.
Proof. intros k Hk. cbn in Hk. set_solver. Qed.

Lemma int_keyed_add_task_schedule clk task_id keyword interval_seconds w :
  int_keyed (monitor w) →
  int_keyed (monitor (add_task_schedule clk task_id keyword interval_seconds w)).
Proof.
  intros Hk. unfold add_task_schedule.
  assert (Hmon : ∀ jobs, int_keyed
            (mkMonitor (<[inl task_id := job_id_of task_id]> (task_jobs (monitor w))) jobs)).
  { intros jobs k. cbn. rewrite dom_insert_L. intros [Hin | Hin]%elem_of_union.
    - apply elem_of_singleton in Hin. eauto.
    - apply Hk, Hin. }
  destruct (get_task _ task_id); cbn; apply Hmon.
Qed.

Lemma job_id_not_registered mon task_id :
  int_keyed mon →
  bool_decide (inr (job_id_of task_id) ∈ dom (task_jobs mon)) = false.
Proof.
  intros Hk. apply bool_decide_eq_false. intros Hin.
  destruct (Hk _ Hin) as [z Hz]. discriminate.
Qed.

Lemma pause_task_schedule_not_found task_id w :
  int_keyed (monitor w) → pause_task_schedule task_id w = (w, false).
Proof. intros Hk. unfold pause_task_schedule. by rewrite job_id_not_registered. Qed.

Lemma resume_task_schedule_not_found task_id w :
  int_keyed (monitor w) → resume_task_schedule task_id w = (w, false).
Proof. intros Hk. unfold resume_task_schedule. by rewrite job_id_not_registered. Qed.

Lemma remove_task_schedule_not_found task_id w :
  int_keyed (monitor w) → remove_task_schedule task_id w = (w, false).
Proof. intros Hk. unfold remove_task_schedule. by rewrite job_id_not_registered. Qed.

(** C10: with a timer registered for task 5 and no row for it in the store,
    pause, resume and remove all answer [False] and leave the timer as it is:
    the registry is keyed by the task id while the three methods look up the
    job id. *)
Theorem orphan_timer_is_not_found :
  task_jobs (monitor orphan_timer_world) !! inl 5 = Some "task_5"
  ∧ scheduler (monitor orphan_timer_world) !! "task_5"
    = Some (mkJob (5, "周杰伦") 60 false)
  ∧ get_task (db orphan_timer_world) 5 = None
  ∧ pause_task_schedule 5 orphan_timer_world = (orphan_timer_world, false)
  ∧ resume_task_schedule 5 orphan_timer_world = (orphan_timer_world, false)
  ∧ remove_task_schedule 5 orphan_timer_world = (orphan_timer_world, false).
Proof.
  assert (Hk : int_keyed (monitor orphan_timer_world)).
  { apply int_keyed_add_task_schedule, int_keyed_new. }
  split; [vm_compute; reflexivity |].
  split; [vm_compute; reflexivity |].
  split; [vm_compute; reflexivity |].
  split; [| split].
  - apply pause_task_schedule_not_found, Hk.
  - apply resume_task_schedule_not_found, Hk.
  - apply remove_task_schedule_not_found, Hk.
Qed.

(** ** The event queue is drained by whoever reads first *)

Lemma received_snoc sent f :
  received (sent ++ [f])
  = received sent ++ match f with DataFrame m => [m] | Heartbeat => [] end.
Proof. unfold received. rewrite omap_app. by destruct f. Qed.

Lemma delivered_insert (ss : list (list frame)) i sent f :
  ss !! i = Some sent →
  length (concat (received <$> <[i := sent ++ [f]]> ss))
  = (length (concat (received <$> ss))
     + match f with DataFrame _ => 1 | Heartbeat => 0 end)%nat.
Proof.
  revert i. induction ss as [| s ss IH]; intros [| i] Hi; try discriminate.
  - injection Hi as ->. cbn [list_insert insert fmap list_fmap concat].
    rewrite received_snoc, !length_app. destruct f; cbn; lia.
  - cbn [list_insert insert fmap list_fmap concat].
    rewrite !length_app. cbn in Hi.
    change (list_fmap _ _ received ?l) with (received <$> l).
    rewrite <- Nat.add_assoc. f_equal. apply IH, Hi.
Qed.

Lemma puts_cons a actions : puts (a :: actions) = puts [a] ++ puts actions.
Proof. by destruct a. Qed.

Lemma bus_step_conservation b a :
  (delivered (bus_step b a) + length (bus_queue (bus_step b a))
   = delivered b + length (bus_queue b) + length (puts [a]))%nat.
Proof.
  destruct a as [m | i].
  - change (delivered (bus_step b (Put m))) with (delivered b).
    change (bus_queue (bus_step b (Put m))) with (bus_queue b ++ [m]).
    change (length (puts [Put m])) with 1%nat.
    rewrite length_app. cbn [length]. lia.
  - change (length (puts [Next i])) with 0%nat.
    unfold bus_step. destruct (streams b !! i) as [sent |] eqn:Hi; [| lia].
    unfold event_stream_next.
    destruct (bus_queue b) as [| m rest] eqn:Hq; unfold delivered;
      cbn [streams bus_queue]; rewrite (delivered_insert _ _ _ _ Hi);
      cbn [length]; lia.
Qed.

(** X10: every message that was put is in the queue or in exactly one
    stream, whatever the subscribers do: what the subscribers received
    altogether and what still waits add up to what was put, so no message is
    delivered twice and none is lost. *)
Lemma bus_conservation b actions :
  (delivered (bus_run b actions) + length (bus_queue (bus_run b actions))
   = delivered b + length (bus_queue b) + length (puts actions))%nat.
Proof.
  revert b. induction actions as [| a actions IH]; intros b.
  - change (bus_run b []) with b. change (length (puts [])) with 0%nat. lia.
  - change (bus_run b (a :: actions)) with (bus_run (bus_step b a) actions).
    rewrite IH, bus_step_conservation, (puts_cons a actions), length_app. lia.
Qed.

(** C6: two subscribers are connected and one message is published; the
    first subscriber to read takes it off the queue and the second is sent a
    heartbeat: its stream never contains the message. *)
Theorem second_subscriber_misses_message :
  bus_run (mkBus [] [[]; []]) [Put sample_message; Next 0%nat; Next 1%nat]
  = mkBus [] [[DataFrame sample_message]; [Heartbeat]]
  ∧ ∀ later, Forall (λ a, ∃ i, a = Next i) later →
      received
        (default [] (streams (bus_run (mkBus [] [[]; []])
                                ([Put sample_message; Next 0%nat; Next 1%nat] ++ later))
                     !! 1%nat))
      = [].
Proof.
  split; [reflexivity |].
  intros later Hlater. unfold bus_run. rewrite foldl_app.
  change (foldl bus_step (mkBus [] [[]; []]) [Put sample_message; Next 0%nat; Next 1%nat])
    with (mkBus [] [[DataFrame sample_message]; [Heartbeat]]).
  assert (H : ∀ s0 s1, received s1 = [] →
            received (default [] (streams (foldl bus_step (mkBus [] [s0; s1]) later) !! 1%nat)) = []).
  { induction Hlater as [| a later [i ->] _ IH]; intros s0 s1 Hs1; [exact Hs1 |].
    cbn [foldl]. destruct i as [| [| i]]; cbn.
    - apply IH, Hs1.
    - apply IH. unfold received. rewrite omap_app. fold (received s1).
      rewrite Hs1. reflexivity.
    - apply IH, Hs1. }
  apply H. reflexivity.
Qed.

(** ** Rows of the store *)

Lemma find_fmap_stable {A} (p : A → bool) (g : A → A) (l : list A) :
  (∀ x, p (g x) = p x) → find p (g <$> l) = g <$> find p l.
Proof.
  intros Hp. induction l as [| x l IH]; [reflexivity |].
  cbn. rewrite Hp. destruct (p x); [reflexivity | exact IH].
Qed.

Lemma find_is_Some {A} (p : A → bool) (l : list A) :
  is_Some (find p l) ↔ ∃ x, x ∈ l ∧ p x = true.
Proof.
  split.
  - intros [x Hx]. apply find_some in Hx as [Hin Hp].
    exists x. split; [by apply list_elem_of_In | exact Hp].
  - intros (x & Hin & Hp). destruct (find p l) eqn:Hf; [eauto |].
    apply list_elem_of_In in Hin. by rewrite (find_none _ _ Hf x Hin) in Hp.
Qed.

Lemma get_task_id db task_id task :
  get_task db task_id = Some task → WorkflowExecution.id task = task_id.
Proof. intros H. apply find_some in H as [_ H]. lia. Qed.

Lemma get_task_elem_of db task_id task :
  get_task db task_id = Some task → task ∈ workflow_executions db.
Proof. intros H. apply find_some in H as [H _]. by apply list_elem_of_In. Qed.

Lemma get_task_update db task_id f :
  (∀ x, WorkflowExecution.id (f x) = WorkflowExecution.id x) →
  get_task (update_task db task_id f) task_id = f <$> get_task db task_id.
Proof.
  intros Hf. unfold get_task, update_task. cbn.
  rewrite find_fmap_stable.
  - destruct (find _ _) as [x |] eqn:Hx; [| reflexivity].
    apply find_some in Hx as [_ Hx]. cbn. by rewrite Hx.
  - intros x. destruct (WorkflowExecution.id x =? task_id) eqn:E; [| exact E].
    by rewrite Hf.
Qed.

Lemma update_task_notes db task_id f : notes (update_task db task_id f) = notes db.
Proof. reflexivity. Qed.

Lemma update_task_tickets db task_id f :
  tickets (update_task db task_id f) = tickets db.
Proof. reflexivity. Qed.

Lemma get_note_is_Some db note_id :
  is_Some (get_note db note_id) ↔ ∃ n, n ∈ notes db ∧ Note.note_id n = note_id.
Proof.
  unfold get_note. rewrite find_is_Some. split; intros (n & Hin & Hn); exists n.
  - split; [exact Hin | by apply String.eqb_eq].
  - split; [exact Hin | by apply String.eqb_eq].
Qed.

(** ** Notifications touch the queue and the clock only *)

Lemma notify_clients_db clk event_type data w :
  db (notify_clients clk event_type data w) = db w.
Proof. reflexivity. Qed.

Lemma notify_clients_monitor clk event_type data w :
  monitor (notify_clients clk event_type data w) = monitor w.
Proof. reflexivity. Qed.

Lemma notify_clients_calls clk event_type data w :
  calls (notify_clients clk event_type data w) = calls w.
Proof. reflexivity. Qed.

Lemma notify_clients_queue clk event_type data w :
  event_queue (notify_clients clk event_type data w)
  = event_queue w ++ [mkMessage event_type data (local clk (reads w))].
Proof. reflexivity. Qed.

(** ** Deleting a task *)

Lemma joined_since_taken db since k :
  joined_since db since k = true ↔ ticket_taken db since k.
Proof.
  unfold joined_since, ticket_taken. destruct (Ticket.note_id k) as [note_id |].
  - rewrite andb_true_iff, bool_decide_eq_true, Z.leb_le. split.
    + intros [H1 H2]. eauto.
    + intros (? & [= <-] & H1 & H2). eauto.
  - split; [discriminate | intros (? & [=] & _)].
Qed.

Lemma joined_since_not_taken db since k :
  joined_since db since k = false ↔ ¬ ticket_taken db since k.
Proof. rewrite <- joined_since_taken. by destruct (joined_since db since k). Qed.

Lemma taken_note_ids db since note_id :
  note_id ∈ omap Ticket.note_id
              (filter (λ k, joined_since db since k = true) (tickets db))
  ↔ note_taken db since note_id.
Proof.
  rewrite list_elem_of_omap. unfold note_taken.
  split; intros (k & Hk & Hid); exists k.
  - apply list_elem_of_filter in Hk as [Hj Hin].
    by rewrite joined_since_taken in Hj.
  - destruct Hid as [Ht Hid]. split; [| exact Hid].
    apply list_elem_of_filter. by rewrite joined_since_taken.
Qed.

Lemma delete_task_rows_task task db :
  get_task (delete_task_rows task db) (WorkflowExecution.id task) = None.
Proof.
  unfold get_task, delete_task_rows. cbn.
  destruct (find _ _) as [x |] eqn:Hx; [| reflexivity].
  apply find_some in Hx as [Hin Hx]. apply list_elem_of_In in Hin.
  apply list_elem_of_filter in Hin as [Hne _]. lia.
Qed.

Lemma delete_task_rows_notes task db n :
  n ∈ notes (delete_task_rows task db)
  ↔ n ∈ notes db
    ∧ ¬ note_taken db (WorkflowExecution.created_at task) (Note.note_id n).
Proof.
  unfold delete_task_rows. cbn. rewrite list_elem_of_filter, taken_note_ids. tauto.
Qed.

Lemma delete_task_rows_tickets task db k' :
  let since := WorkflowExecution.created_at task in
  k' ∈ tickets (delete_task_rows task db)
  ↔ ∃ k, k ∈ tickets db ∧ ¬ ticket_taken db since k
         ∧ ((k' = k ∧ ∀ note_id, Ticket.note_id k = Some note_id
                                 → ¬ note_taken db since note_id)
            ∨ (k' = Ticket.with_note_id None k
               ∧ ∃ note_id, Ticket.note_id k = Some note_id
                            ∧ note_taken db since note_id)).
Proof.
  intros since. unfold delete_task_rows. cbn. rewrite list_elem_of_fmap.
  split.
  - intros (k & -> & Hk). apply list_elem_of_filter in Hk as [Hj Hin].
    apply joined_since_not_taken in Hj. exists k. split; [exact Hin |].
    split; [exact Hj |].
    destruct (Ticket.note_id k) as [note_id |] eqn:Hid.
    + case_bool_decide as Hn.
      * right. split; [reflexivity |]. exists note_id.
        split; [reflexivity | by apply taken_note_ids].
      * left. split; [reflexivity |]. intros ? [= <-].
        by rewrite <- taken_note_ids.
    + left. split; [reflexivity | intros ? [=]].
  - intros (k & Hin & Hj & Hcase). exists k. split.
    + destruct Hcase as [[-> Hnone] | [-> (note_id & Hid & Hn)]].
      * destruct (Ticket.note_id k) as [note_id |] eqn:Hid; [| reflexivity].
        case_bool_decide as Hn; [| reflexivity].
        apply taken_note_ids in Hn. by destruct (Hnone note_id).
      * rewrite Hid. apply taken_note_ids in Hn.
        by rewrite bool_decide_eq_true_2.
    + apply list_elem_of_filter. by rewrite joined_since_not_taken.
Qed.

(** What [remove_task_schedule] can do to the store: nothing, or a change of
    the status and scheduling flag of the task. *)
Lemma remove_task_schedule_db task_id w :
  db (remove_task_schedule task_id w).1 = db w
  ∨ db (remove_task_schedule task_id w).1
    = update_task (db w) task_id
        (λ task, WorkflowExecution.with_status "stopped"
                   (WorkflowExecution.with_is_scheduled false task)).
Proof.
  unfold remove_task_schedule. case_bool_decide; [| by left].
  destruct (remove_job _ _); [| by left].
  destruct (task_jobs _ !! _); [| by left].
  cbn. destruct (get_task _ _); [by right | by left].
Qed.

(** C3, as the code has it: deleting an existing task answers with success,
    removes the task, removes the tickets persisted at or after the creation
    of the task whose post is in the store, and removes the posts those
    tickets refer to; every other post stays, and every other ticket stays
    as it is, except that its reference is cleared when its post was
    removed. *)
Theorem delete_task_cascade clk task_id w task :
  get_task (db w) task_id = Some task →
  let since := WorkflowExecution.created_at task in
  let w' := (delete_task clk task_id w).1 in
  (delete_task clk task_id w).2 = (true, 200)
  ∧ get_task (db w') task_id = None
  ∧ (∀ n, n ∈ notes (db w')
          ↔ n ∈ notes (db w) ∧ ¬ note_taken (db w) since (Note.note_id n))
  ∧ (∀ k', k' ∈ tickets (db w')
           ↔ ∃ k, k ∈ tickets (db w) ∧ ¬ ticket_taken (db w) since k
                  ∧ ((k' = k ∧ ∀ note_id, Ticket.note_id k = Some note_id
                                          → ¬ note_taken (db w) since note_id)
                     ∨ (k' = Ticket.with_note_id None k
                        ∧ ∃ note_id, Ticket.note_id k = Some note_id
                                     ∧ note_taken (db w) since note_id))).
Proof.
  intros Htask since w'. subst w'. unfold delete_task.
  destruct (remove_task_schedule task_id w) as [w1 answer] eqn:Hw1.
  assert (Hdb : ∃ task1, get_task (db w1) task_id = Some task1
                  ∧ WorkflowExecution.created_at task1 = since
                  ∧ notes (db w1) = notes (db w)
                  ∧ tickets (db w1) = tickets (db w)).
  { pose proof (remove_task_schedule_db task_id w) as Hcase.
    rewrite Hw1 in Hcase. cbn in Hcase. destruct Hcase as [-> | ->].
    - eauto.
    - rewrite get_task_update by (by intros []). rewrite Htask. cbn. eauto. }
  destruct Hdb as (task1 & Htask1 & Hsince & Hnotes & Htickets).
  rewrite Htask1. cbn [fst snd]. rewrite notify_clients_db. cbn [db set_db].
  assert (Hview : ∀ k, ticket_taken (db w1) since k ↔ ticket_taken (db w) since k).
  { intros k. unfold ticket_taken.
    setoid_rewrite get_note_is_Some. by rewrite Hnotes. }
  assert (Hview' : ∀ i, note_taken (db w1) since i ↔ note_taken (db w) since i).
  { intros i. unfold note_taken. setoid_rewrite Hview. by rewrite Htickets. }
  split; [reflexivity |]. split; [| split].
  - rewrite <- (get_task_id _ _ _ Htask1). apply delete_task_rows_task.
  - intros n. rewrite delete_task_rows_notes, Hsince, Hnotes, Hview'. tauto.
  - intros k'. rewrite delete_task_rows_tickets, Hsince, Htickets.
    setoid_rewrite Hview. setoid_rewrite Hview'. tauto.
Qed.

Lemma delete_task_cascade_witness :
  get_task (db sample_world) 1 = Some sample_task
  ∧ (delete_task sample_clock 1 sample_world).2 = (true, 200).
Proof.
  split; [reflexivity |].
  exact (proj1 (delete_task_cascade sample_clock 1 sample_world sample_task eq_refl)).
Defined.

(** C3 as stated fails: the post [n2] was persisted after the creation of
    task 1 and deleting the task leaves it in the store. *)
Lemma delete_task_keeps_later_post :
  ¬ (∀ n, n ∈ notes (db sample_world)
          → WorkflowExecution.created_at sample_task ≤ Note.created_at n
          → n ∉ notes (db (delete_task sample_clock 1 sample_world).1)).
Proof.
  intros H. apply (H later_note).
  - vm_compute. set_solver.
  - vm_compute. discriminate.
  - vm_compute. set_solver.
Qed.

(** ** What workers do to the world *)

Lemma worker_effect_refl w : worker_effect w w.
Proof.
  split; try reflexivity.
  - exists []. by rewrite app_nil_r.
  - exists []. by rewrite app_nil_r.
Qed.

Lemma worker_effect_trans w1 w2 w3 :
  worker_effect w1 w2 → worker_effect w2 w3 → worker_effect w1 w3.
Proof.
  intros [Hn1 Ht1 Hq1 Hm1 [a1 Ha1] [c1 [Hc1 Hf1]]]
         [Hn2 Ht2 Hq2 Hm2 [a2 Ha2] [c2 [Hc2 Hf2]]].
  split; try congruence.
  - exists (a1 ++ a2). by rewrite Ha2, Ha1, app_assoc.
  - exists (c1 ++ c2). split; [by rewrite Hc2, Hc1, app_assoc |].
    by apply Forall_app.
Qed.

Lemma worker_effect_lock w v : worker_effect w (set_db_lock v w).
Proof.
  split; try reflexivity.
  - exists []. by rewrite app_nil_r.
  - exists []. by rewrite app_nil_r.
Qed.

Lemma worker_effect_rows w w' :
  notes (db w') = notes (db w) →
  workflow_executions (db w') = workflow_executions (db w) →
  tickets (db w') = tickets (db w) →
  event_queue w' = event_queue w → monitor w' = monitor w →
  calls w' = calls w → worker_effect w w'.
Proof.
  intros Hn Ht Hk Hq Hm Hc. split; try congruence.
  - exists []. by rewrite app_nil_r.
  - exists []. by rewrite app_nil_r.
Qed.

Lemma worker_effect_call w text :
  worker_effect w (record_call (CallAnalyze text) w).
Proof.
  split; try reflexivity.
  - exists []. by rewrite app_nil_r.
  - exists [CallAnalyze text]. split; [reflexivity | by repeat constructor].
Qed.

Lemma worker_effect_ticket w w' row :
  notes (db w') = notes (db w) →
  workflow_executions (db w') = workflow_executions (db w) →
  tickets (db w') = tickets (db w) ++ [row] →
  event_queue w' = event_queue w → monitor w' = monitor w →
  calls w' = calls w → worker_effect w w'.
Proof.
  intros Hn Ht Hk Hq Hm Hc. split; try congruence.
  - by exists [row].
  - exists []. by rewrite app_nil_r.
Qed.

Lemma worker_step_effect clk tid w t w' t' :
  worker_step clk tid w t = Some (w', t') → worker_effect w w'.
Proof.
  unfold worker_step. intros H.
  destruct (at_pc t) eqn:Hpc; cbn in H; repeat case_match; simplify_eq/=;
    first [ apply worker_effect_refl
          | apply worker_effect_lock
          | apply worker_effect_call
          | by apply worker_effect_rows
          | by eapply worker_effect_ticket ].
Qed.

Lemma pool_step_effect clk p i : worker_effect (world p) (world (pool_step clk p i)).
Proof.
  unfold pool_step. destruct (workers p !! i) as [t |]; [| apply worker_effect_refl].
  destruct (is_queued t && negb (can_start i (workers p)));
    [apply worker_effect_refl |].
  destruct (worker_step clk i (world p) t) as [[w' t'] |] eqn:Hstep;
    [| apply worker_effect_refl].
  cbn. by eapply worker_step_effect.
Qed.

Lemma pool_steps_effect clk p l :
  worker_effect (world p) (world (foldl (pool_step clk) p l)).
Proof.
  revert p. induction l as [| i l IH]; intros p; [apply worker_effect_refl |].
  cbn. eapply worker_effect_trans; [apply pool_step_effect | apply IH].
Qed.

Lemma pool_finish_one_effect clk p i :
  worker_effect (world p) (world (pool_finish_one clk p i)).
Proof.
  unfold pool_finish_one. generalize 10%nat. intros n.
  induction n as [| n IH]; [apply worker_effect_refl |].
  cbn. eapply worker_effect_trans; [apply IH | apply pool_step_effect].
Qed.

Lemma pool_finish_effect clk p l :
  worker_effect (world p) (world (foldl (pool_finish_one clk) p l)).
Proof.
  revert p. induction l as [| i l IH]; intros p; [apply worker_effect_refl |].
  cbn. eapply worker_effect_trans; [apply pool_finish_one_effect | apply IH].
Qed.

Lemma run_pool_effect clk sched apis feeds w :
  worker_effect w (world (run_pool clk sched apis feeds w)).
Proof.
  unfold run_pool.
  eapply worker_effect_trans; [| apply pool_finish_effect].
  apply (pool_steps_effect clk (new_pool apis feeds w)).
Qed.

Lemma pool_step_no_workers clk p i : workers p = [] → pool_step clk p i = p.
Proof. intros H. unfold pool_step. by rewrite H. Qed.

Lemma run_pool_no_feeds clk sched apis w :
  run_pool clk sched apis [] w = mkPool w [] [].
Proof.
  unfold run_pool, new_pool. cbn [imap length seq app].
  assert (H1 : foldl (pool_step clk) (mkPool w [] []) sched = mkPool w [] []).
  { induction sched as [| i l IH]; [reflexivity |]. cbn [foldl].
    by rewrite pool_step_no_workers. }
  rewrite H1. cbn [world db_lock].
  destruct (db_lock w); [| reflexivity].
  cbn. unfold pool_finish_one. cbn. by rewrite !pool_step_no_workers.
Qed.

(** ** Timer fires *)

Lemma get_task_rows db1 db2 task_id :
  workflow_executions db1 = workflow_executions db2 →
  get_task db1 task_id = get_task db2 task_id.
Proof. unfold get_task. by intros ->. Qed.

Lemma searches_app cs1 cs2 : searches (cs1 ++ cs2) = (searches cs1 + searches cs2)%nat.
Proof. unfold searches. by rewrite filter_app, length_app. Qed.

Lemma searches_snoc cs c :
  searches (cs ++ [c]) = (searches cs + if is_search c then 1 else 0)%nat.
Proof. rewrite searches_app. by destruct c. Qed.

Lemma searches_analyses made :
  Forall (λ c, is_analyze c = true) made → searches made = 0%nat.
Proof.
  unfold searches. induction 1 as [| c made Hc _ IH]; [reflexivity |].
  rewrite filter_cons. destruct c; try discriminate. by rewrite decide_False.
Qed.

Lemma scheduled_task_failed_spec clk task_id e w :
  let w' := scheduled_task_failed clk task_id e w in
  get_task (db w') task_id
  = WorkflowExecution.with_message ("执行失败: " +:+ str e) <$> get_task (db w) task_id
  ∧ event_queue w'
    = event_queue w
      ++ [mkMessage "task_update"
            (TaskStatus task_id "running" ("执行失败: " +:+ str e))
            (local clk (reads w))]
  ∧ calls w' = calls w ∧ monitor w' = monitor w
  ∧ notes (db w') = notes (db w) ∧ tickets (db w') = tickets (db w).
Proof.
  cbn zeta. unfold scheduled_task_failed.
  rewrite notify_clients_db, notify_clients_queue. cbn [db set_db].
  rewrite get_task_update by (by intros []). by repeat split.
Qed.

Lemma scheduled_run_feeds_spec env task_id run_count feeds w :
  let w' := scheduled_run_feeds env task_id run_count feeds w in
  (∃ message, get_task (db w') task_id
              = WorkflowExecution.with_message message <$> get_task (db w) task_id)
  ∧ (∃ m1 m2, event_queue w' = event_queue w ++ [m1; m2]
              ∧ type m1 = "task_update" ∧ type m2 = "task_update")
  ∧ searches (calls w') = searches (calls w)
  ∧ monitor w' = monitor w
  ∧ notes (db w') = notes (db w).
Proof.
  cbn zeta. unfold scheduled_run_feeds.
  set (w1 := notify_clients _ _ _ w).
  pose proof (run_pool_effect (clock env) (schedule env) (analysis_api env) feeds w1)
    as [Hn Ht Hq Hm _ (made & Hc & Hmade)].
  set (p := run_pool _ _ _ _ _) in *.
  rewrite notify_clients_db, notify_clients_queue, notify_clients_calls,
    notify_clients_monitor.
  cbn [db set_db event_queue calls monitor notes].
  rewrite get_task_update by (by intros []).
  rewrite update_task_notes, (get_task_rows _ _ _ Ht), Hq, Hc, Hm, Hn.
  split; [eauto |]. split; [| split; [| done]].
  - subst w1. rewrite notify_clients_queue, <- app_assoc. cbn [app]. eauto.
  - subst w1. by rewrite searches_app, (searches_analyses _ Hmade), Nat.add_0_r.
Qed.

Lemma scheduled_run_search_spec env task_id keyword run_count w :
  let w' := scheduled_run_search env task_id keyword run_count w in
  (∃ message, get_task (db w') task_id
              = WorkflowExecution.with_message message <$> get_task (db w) task_id)
  ∧ (∃ later, event_queue w' = event_queue w ++ later
              ∧ Forall (λ m, type m = "task_update") later)
  ∧ searches (calls w') = S (searches (calls w))
  ∧ monitor w' = monitor w
  ∧ notes (db w') = notes (db w).
Proof.
  cbn zeta. unfold scheduled_run_search.
  destruct (optimize_search_keyword_total keyword (chat_api env keyword))
    as [optimized_keyword ->].
  destruct (mcp_search env optimized_keyword) as [feeds | e].
  - set (w3 := record_call _ _).
    destruct (scheduled_run_feeds_spec env task_id run_count feeds w3)
      as (Htask & (m1 & m2 & Hq & H1 & H2) & Hs & Hm & Hn).
    split; [exact Htask |]. split; [| split; [| split]].
    + eexists. rewrite Hq. subst w3. cbn [event_queue record_call].
      rewrite notify_clients_queue. cbn [event_queue record_call].
      rewrite <- !app_assoc. split; [reflexivity |]. by repeat constructor.
    + rewrite Hs. subst w3. cbn [calls record_call].
      rewrite notify_clients_calls. cbn [calls record_call].
      rewrite !searches_snoc. cbn [is_search]. lia.
    + by rewrite Hm.
    + by rewrite Hn.
  - set (w3 := record_call _ _).
    destruct (scheduled_task_failed_spec (clock env) task_id e w3)
      as (Htask & Hq & Hc & Hm & Hn & _).
    split; [eauto |]. split; [| split; [| split]].
    + eexists. rewrite Hq. subst w3. cbn [event_queue record_call].
      rewrite notify_clients_queue. cbn [event_queue record_call].
      rewrite <- !app_assoc. split; [reflexivity |]. by repeat constructor.
    + rewrite Hc. subst w3. cbn [calls record_call].
      rewrite notify_clients_calls. cbn [calls record_call].
      rewrite !searches_snoc. cbn [is_search]. lia.
    + by rewrite Hm.
    + by rewrite Hn.
Qed.

Lemma begin_scheduled_run_spec clk task_id task w :
  get_task (db w) task_id = Some task →
  let run_count := default 0 (WorkflowExecution.run_count task) + 1 in
  let last_run_at := utc clk (reads w) in
  let next_run_at := utc clk (S (reads w)) + WorkflowExecution.schedule_interval task in
  let message := "第 " +:+ pretty run_count +:+ " 次定时执行" in
  let w' := (begin_scheduled_run clk task_id task w).1 in
  (begin_scheduled_run clk task_id task w).2 = run_count
  ∧ get_task (db w') task_id
    = Some (WorkflowExecution.with_message message
              (WorkflowExecution.with_next_run_at (Some next_run_at)
                 (WorkflowExecution.with_run_count (Some run_count)
                    (WorkflowExecution.with_last_run_at (Some last_run_at) task))))
  ∧ event_queue w'
    = event_queue w
      ++ [mkMessage "task_update"
            (TaskRun task_id "running" message run_count
               (Some last_run_at) (Some next_run_at))
            (local clk (S (S (reads w))))]
  ∧ calls w' = calls w ∧ monitor w' = monitor w
  ∧ notes (db w') = notes (db w) ∧ tickets (db w') = tickets (db w).
Proof.
  intros Htask. cbn zeta. unfold begin_scheduled_run. cbn [utcnow fst snd].
  rewrite notify_clients_db, notify_clients_queue. cbn [db set_db reads event_queue].
  rewrite get_task_update by (by intros []). rewrite Htask. by repeat split.
Qed.

Lemma execute_scheduled_task_running env task_id keyword w task :
  get_task (db w) task_id = Some task →
  WorkflowExecution.status task = "running" →
  execute_scheduled_task env task_id keyword w
  = scheduled_run_search env task_id keyword
      (begin_scheduled_run (clock env) task_id task w).2
      (begin_scheduled_run (clock env) task_id task w).1.
Proof.
  intros Htask Hst. unfold execute_scheduled_task. rewrite Htask, Hst.
  rewrite bool_decide_eq_true_2 by set_solver.
  by destruct (begin_scheduled_run _ _ _ _).
Qed.

(** ** Task creation *)

Lemma next_id_fresh ids x : x ∈ ids → x < next_id ids.
Proof.
  unfold next_id. induction ids as [| y ids IH]; [by intros ?%elem_of_nil |].
  intros [-> | Hin]%elem_of_cons; cbn; [lia |]. specialize (IH Hin). lia.
Qed.

Lemma get_task_new_row db row :
  WorkflowExecution.id row = next_id (WorkflowExecution.id <$> workflow_executions db) →
  get_task (mkStore (notes db) (tickets db) (workflow_executions db ++ [row]))
    (WorkflowExecution.id row)
  = Some row.
Proof.
  intros Hid. unfold get_task. cbn [workflow_executions].
  assert (Hfresh : ∀ x, x ∈ workflow_executions db →
            (WorkflowExecution.id x =? WorkflowExecution.id row) = false).
  { intros x Hx. apply Z.eqb_neq. rewrite Hid.
    assert (WorkflowExecution.id x ∈ WorkflowExecution.id <$> workflow_executions db)
      as Hin by (apply list_elem_of_fmap; eauto).
    apply next_id_fresh in Hin. lia. }
  clear Hid. revert Hfresh. generalize (workflow_executions db).
  intros l. induction l as [| x l IH]; intros Hfresh; cbn.
  - by rewrite Z.eqb_refl.
  - rewrite Hfresh by (by left). apply IH. intros y Hy. apply Hfresh. by right.
Qed.

Lemma add_task_schedule_spec clk task_id keyword interval_seconds w task :
  get_task (db w) task_id = Some task →
  let w' := add_task_schedule clk task_id keyword interval_seconds w in
  get_task (db w') task_id
  = Some (WorkflowExecution.with_next_run_at
            (Some (utc clk (reads w) + interval_seconds)) task)
  ∧ scheduler (monitor w') !! job_id_of task_id
    = Some (mkJob (task_id, keyword) interval_seconds false)
  ∧ event_queue w' = event_queue w ∧ calls w' = calls w
  ∧ notes (db w') = notes (db w) ∧ tickets (db w') = tickets (db w)
  ∧ reads w' = S (reads w).
Proof.
  intros Htask. cbn zeta. unfold add_task_schedule.
  cbn [db set_monitor]. rewrite Htask. cbn [utcnow db set_db monitor scheduler
    event_queue calls reads set_monitor].
  rewrite get_task_update by (by intros []). rewrite Htask.
  rewrite lookup_insert_eq. by repeat split.
Qed.

Lemma create_task_spec clk keyword optimized_keyword w :
  let task_id := next_id (WorkflowExecution.id <$> workflow_executions (db w)) in
  let w' := (create_task clk keyword optimized_keyword w).1 in
  (create_task clk keyword optimized_keyword w).2 = task_id
  ∧ (∃ task, get_task (db w') task_id = Some task
             ∧ WorkflowExecution.status task = "running"
             ∧ WorkflowExecution.is_scheduled task = true
             ∧ WorkflowExecution.schedule_interval task = 60)
  ∧ scheduler (monitor w') !! job_id_of task_id = Some (mkJob (task_id, keyword) 60 false)
  ∧ (∃ m, event_queue w' = event_queue w ++ [m] ∧ type m = "task_update")
  ∧ calls w' = calls w
  ∧ notes (db w') = notes (db w) ∧ tickets (db w') = tickets (db w).
Proof.
  cbn zeta. unfold create_task. cbn [utcnow fst snd db].
  set (task_id := next_id _).
  set (row := WorkflowExecution.mk task_id _ _ _ _ _ _ _ _ _ _ _ _).
  set (w2 := set_db _ _).
  assert (Hrow : get_task (db w2) task_id = Some row).
  { subst w2. cbn [db set_db]. apply (get_task_new_row (db w) row). reflexivity. }
  destruct (add_task_schedule_spec clk task_id keyword 60 w2 row Hrow)
    as (Htask & Hjob & Hq & Hc & Hn & Hk & _).
  rewrite notify_clients_db, notify_clients_monitor, notify_clients_queue,
    notify_clients_calls.
  split; [reflexivity |]. split; [| split; [| split; [| split; [| split]]]].
  - rewrite Htask. eexists. split; [reflexivity |]. by repeat split.
  - exact Hjob.
  - rewrite Hq. subst w2. cbn [event_queue set_db]. eauto.
  - by rewrite Hc.
  - by rewrite Hn.
  - by rewrite Hk.
Qed.

(** ** The search of the feed service raises *)

Lemma nonempty_prefix (c : ascii) (s1 s2 : string) : String c s1 +:+ s2 ≠ "".
Proof. discriminate. Qed.

Lemma scheduled_run_search_raises env task_id keyword run_count w optimized_keyword e :
  optimize_search_keyword keyword (chat_api env keyword) = Ok optimized_keyword →
  mcp_search env optimized_keyword = Raise e →
  let w' := scheduled_run_search env task_id keyword run_count w in
  get_task (db w') task_id
  = WorkflowExecution.with_message ("执行失败: " +:+ str e) <$> get_task (db w) task_id
  ∧ (∃ m2 m3, event_queue w' = event_queue w ++ [m2; m3]
              ∧ type m3 = "task_update"
              ∧ data m3 = TaskStatus task_id "running" ("执行失败: " +:+ str e))
  ∧ calls w' = calls w ++ [CallOptimize keyword; CallSearch optimized_keyword]
  ∧ monitor w' = monitor w
  ∧ notes (db w') = notes (db w) ∧ tickets (db w') = tickets (db w).
Proof.
  intros Hopt Hfetch. cbn zeta. unfold scheduled_run_search.
  rewrite Hopt, Hfetch. set (w3 := record_call _ _).
  destruct (scheduled_task_failed_spec (clock env) task_id e w3)
    as (Htask & Hq & Hc & Hm & Hn & Hk).
  rewrite Htask, Hq, Hc, Hm, Hn, Hk. subst w3.
  cbn [event_queue calls record_call]. rewrite notify_clients_queue,
    notify_clients_calls. cbn [event_queue calls record_call].
  rewrite <- !app_assoc. cbn [app]. split; [done |]. split; [eauto 10 | done].
Qed.

Lemma search_task_failed_spec clk task_id e w :
  let w' := search_task_failed clk task_id e w in
  get_task (db w') task_id
  = (λ x, WorkflowExecution.with_code 500 (WorkflowExecution.with_status "failed" x))
      <$> get_task (db w) task_id
  ∧ event_queue w'
    = event_queue w
      ++ [mkMessage "task_update"
            (TaskStatus task_id "failed" ("MCP 服务调用失败: " +:+ str e))
            (local clk (reads w))]
  ∧ calls w' = calls w ∧ monitor w' = monitor w
  ∧ notes (db w') = notes (db w) ∧ tickets (db w') = tickets (db w).
Proof.
  cbn zeta. unfold search_task_failed.
  rewrite notify_clients_db, notify_clients_queue. cbn [db set_db].
  rewrite get_task_update by (by intros []). by repeat split.
Qed.

(** C2, as the code has it. When the search of the feed service raises:
    in the run that creates a task, the task gets status [failed] and code
    500 and one [task_update] event with status [failed] and the error
    message is published; in a run started by a timer fire the task keeps
    its status [running], the error message is written to its message and
    one [task_update] event carries it. In both no post is processed (no
    classifier call, no note or ticket written) and the timer stays. *)
Theorem fetch_failure_handling env keyword optimized_keyword e w :
  optimize_search_keyword keyword (chat_api env keyword) = Ok optimized_keyword →
  mcp_search env optimized_keyword = Raise e →
  (let task_id := next_id (WorkflowExecution.id <$> workflow_executions (db w)) in
   let w' := (execute_search_task env keyword w).1 in
   (execute_search_task env keyword w).2 = false
   ∧ (∃ task', get_task (db w') task_id = Some task'
               ∧ WorkflowExecution.status task' = "failed"
               ∧ WorkflowExecution.code task' = 500)
   ∧ (∃ m1 m2, event_queue w' = event_queue w ++ [m1; m2]
               ∧ type m2 = "task_update"
               ∧ data m2 = TaskStatus task_id "failed" ("MCP 服务调用失败: " +:+ str e))
   ∧ "MCP 服务调用失败: " +:+ str e ≠ ""
   ∧ calls w' = calls w ++ [CallOptimize keyword; CallSearch optimized_keyword]
   ∧ notes (db w') = notes (db w) ∧ tickets (db w') = tickets (db w)
   ∧ scheduler (monitor w') !! job_id_of task_id
     = Some (mkJob (task_id, keyword) 60 false))
  ∧ (∀ task_id task,
       get_task (db w) task_id = Some task →
       WorkflowExecution.status task = "running" →
       let w' := execute_scheduled_task env task_id keyword w in
       (∃ task', get_task (db w') task_id = Some task'
                 ∧ WorkflowExecution.status task' = "running"
                 ∧ WorkflowExecution.message task' = "执行失败: " +:+ str e)
       ∧ (∃ m1 m2 m3, event_queue w' = event_queue w ++ [m1; m2; m3]
                      ∧ type m3 = "task_update"
                      ∧ data m3 = TaskStatus task_id "running" ("执行失败: " +:+ str e))
       ∧ "执行失败: " +:+ str e ≠ ""
       ∧ calls w' = calls w ++ [CallOptimize keyword; CallSearch optimized_keyword]
       ∧ notes (db w') = notes (db w) ∧ tickets (db w') = tickets (db w)
       ∧ monitor w' = monitor w).
Proof.
  intros Hopt Hfetch. split.
  - cbn zeta. unfold execute_search_task. rewrite Hopt.
    set (w0 := record_call (CallOptimize keyword) w).
    destruct (create_task_spec (clock env) keyword optimized_keyword w0)
      as (Hid & (task & Htask & Hst & _) & Hjob & (m1 & Hq & _) & Hc & Hn & Hk).
    destruct (create_task _ _ _ w0) as [w1 task_id] eqn:Hcreate.
    cbn [fst snd] in *. rewrite Hfetch. cbn [fst snd].
    set (w2 := record_call _ w1).
    destruct (search_task_failed_spec (clock env) task_id e w2)
      as (Htask' & Hq' & Hc' & Hm' & Hn' & Hk').
    subst w0. cbn [db record_call] in Hid. subst task_id.
    rewrite Htask', Hq', Hc', Hm', Hn', Hk'. subst w2.
    cbn [db event_queue calls monitor record_call].
    cbn [db record_call] in Htask. rewrite Htask, Hq, Hc, Hn, Hk.
    cbn [event_queue calls db record_call]. rewrite <- !app_assoc. cbn [app].
    split; [done |]. split; [eexists; by repeat split |].
    split; [eauto 10 |]. split; [apply nonempty_prefix |]. done.
  - intros task_id task Htask Hst. cbn zeta.
    rewrite (execute_scheduled_task_running _ _ _ _ _ Htask Hst).
    destruct (begin_scheduled_run_spec (clock env) task_id task w Htask)
      as (_ & Htask1 & Hq1 & Hc1 & Hm1 & Hn1 & Hk1).
    set (w1 := (begin_scheduled_run _ _ _ _).1) in *.
    destruct (scheduled_run_search_raises env task_id keyword
                (begin_scheduled_run (clock env) task_id task w).2 w1
                optimized_keyword e Hopt Hfetch)
      as (Htask2 & (m2 & m3 & Hq2 & Hty & Hdata) & Hc2 & Hm2 & Hn2 & Hk2).
    rewrite Htask2, Htask1, Hq2, Hq1, Hc2, Hc1, Hm2, Hm1, Hn2, Hn1, Hk2, Hk1.
    rewrite <- !app_assoc. cbn [app].
    split; [eexists; split; [reflexivity |]; by split |].
    split; [eauto 10 |]. split; [apply nonempty_prefix |]. done.
Qed.

Lemma fetch_failure_handling_witness :
  optimize_search_keyword "周杰伦"
    (chat_api (sample_env (Raise timeout_error) NoAnswer) "周杰伦") = Ok "周杰伦"
  ∧ mcp_search (sample_env (Raise timeout_error) NoAnswer) "周杰伦"
    = Raise timeout_error
  ∧ (execute_search_task (sample_env (Raise timeout_error) NoAnswer) "周杰伦"
       sample_world).2 = false.
Proof.
  split; [reflexivity |]. split; [reflexivity |].
  exact (proj1 (proj1 (fetch_failure_handling
                         (sample_env (Raise timeout_error) NoAnswer)
                         "周杰伦" "周杰伦" timeout_error sample_world
                         eq_refl eq_refl))).
Defined.

(** C2 as stated fails for a timer fire: the search raises a timeout and
    the status of task 1 is [running] afterwards, not [failed]. *)
Lemma timer_fetch_failure_keeps_running :
  mcp_search (sample_env (Raise timeout_error) NoAnswer) "周杰伦" = Raise timeout_error
  ∧ WorkflowExecution.status
      <$> get_task (db (execute_scheduled_task
                          (sample_env (Raise timeout_error) NoAnswer) 1 "周杰伦"
                          sample_world)) 1
    = Some "running"
  ∧ ¬ (WorkflowExecution.status
         <$> get_task (db (execute_scheduled_task
                             (sample_env (Raise timeout_error) NoAnswer) 1 "周杰伦"
                             sample_world)) 1
       = Some "failed").
Proof.
  split; [reflexivity |]. split; [vm_compute; reflexivity |].
  vm_compute. discriminate.
Qed.

(** ** The search of the feed service finds nothing *)

Lemma scheduled_run_search_empty env task_id keyword run_count w optimized_keyword :
  optimize_search_keyword keyword (chat_api env keyword) = Ok optimized_keyword →
  mcp_search env optimized_keyword = Ok [] →
  let message := "第 " +:+ pretty run_count +:+ " 次执行完成，发现 0 条新票务" in
  let w' := scheduled_run_search env task_id keyword run_count w in
  get_task (db w') task_id
  = WorkflowExecution.with_message message <$> get_task (db w) task_id
  ∧ (∃ m2 m3 m4, event_queue w' = event_queue w ++ [m2; m3; m4]
                 ∧ type m4 = "task_update"
                 ∧ data m4 = TaskStatus task_id "running" message)
  ∧ calls w' = calls w ++ [CallOptimize keyword; CallSearch optimized_keyword]
  ∧ monitor w' = monitor w
  ∧ notes (db w') = notes (db w) ∧ tickets (db w') = tickets (db w).
Proof.
  intros Hopt Hfetch. cbn zeta. unfold scheduled_run_search.
  rewrite Hopt, Hfetch. unfold scheduled_run_feeds.
  rewrite run_pool_no_feeds. cbn [world results completed omap length filter].
  rewrite notify_clients_db, notify_clients_queue, notify_clients_calls,
    notify_clients_monitor.
  cbn [db set_db event_queue calls monitor record_call].
  rewrite get_task_update by (by intros []).
  rewrite update_task_notes, update_task_tickets.
  rewrite !notify_clients_db, !notify_clients_queue, !notify_clients_calls,
    !notify_clients_monitor.
  cbn [db set_db event_queue calls monitor record_call].
  rewrite !notify_clients_db, !notify_clients_queue, !notify_clients_calls,
    !notify_clients_monitor.
  cbn [db set_db event_queue calls monitor record_call].
  rewrite <- !app_assoc. cbn [app]. split; [done |]. split; [eauto 10 | done].
Qed.

Lemma search_task_empty_spec clk task_id w :
  let w' := search_task_empty clk task_id w in
  get_task (db w') task_id
  = WorkflowExecution.with_status "completed" <$> get_task (db w) task_id
  ∧ event_queue w'
    = event_queue w
      ++ [mkMessage "task_update" (TaskStatus task_id "completed" "未找到相关数据")
            (local clk (reads w))]
  ∧ calls w' = calls w ∧ monitor w' = monitor w
  ∧ notes (db w') = notes (db w) ∧ tickets (db w') = tickets (db w).
Proof.
  cbn zeta. unfold search_task_empty.
  rewrite notify_clients_db, notify_clients_queue. cbn [db set_db].
  rewrite get_task_update by (by intros []). by repeat split.
Qed.

(** C7, as the code has it. When the search of the feed service finds no
    post: the run that creates a task sets the task to [completed],
    publishes one [task_update] event with status [completed] after the
    search (the second event of the run, after the announcement of the
    search) and answers [False]; a run started by a timer fire leaves the
    status [running], writes that 0 tickets were found to the message of the
    task and publishes four [task_update] events, the last one with that
    message. In both no post is processed. *)
Theorem empty_search_handling env keyword optimized_keyword w :
  optimize_search_keyword keyword (chat_api env keyword) = Ok optimized_keyword →
  mcp_search env optimized_keyword = Ok [] →
  (let task_id := next_id (WorkflowExecution.id <$> workflow_executions (db w)) in
   let w' := (execute_search_task env keyword w).1 in
   (execute_search_task env keyword w).2 = false
   ∧ (∃ task', get_task (db w') task_id = Some task'
               ∧ WorkflowExecution.status task' = "completed")
   ∧ (∃ m1 m2, event_queue w' = event_queue w ++ [m1; m2]
               ∧ type m1 = "task_update" ∧ type m2 = "task_update"
               ∧ data m2 = TaskStatus task_id "completed" "未找到相关数据")
   ∧ calls w' = calls w ++ [CallOptimize keyword; CallSearch optimized_keyword]
   ∧ notes (db w') = notes (db w) ∧ tickets (db w') = tickets (db w))
  ∧ (∀ task_id task,
       get_task (db w) task_id = Some task →
       WorkflowExecution.status task = "running" →
       let run_count := default 0 (WorkflowExecution.run_count task) + 1 in
       let message := "第 " +:+ pretty run_count +:+ " 次执行完成，发现 0 条新票务" in
       let w' := execute_scheduled_task env task_id keyword w in
       (∃ task', get_task (db w') task_id = Some task'
                 ∧ WorkflowExecution.status task' = "running"
                 ∧ WorkflowExecution.message task' = message)
       ∧ (∃ m1 m2 m3 m4, event_queue w' = event_queue w ++ [m1; m2; m3; m4]
                         ∧ type m4 = "task_update"
                         ∧ data m4 = TaskStatus task_id "running" message)
       ∧ calls w' = calls w ++ [CallOptimize keyword; CallSearch optimized_keyword]
       ∧ notes (db w') = notes (db w) ∧ tickets (db w') = tickets (db w)).
Proof.
  intros Hopt Hfetch. split.
  - cbn zeta. unfold execute_search_task. rewrite Hopt.
    set (w0 := record_call (CallOptimize keyword) w).
    destruct (create_task_spec (clock env) keyword optimized_keyword w0)
      as (Hid & (task & Htask & Hst & _) & Hjob & (m1 & Hq & Hty) & Hc & Hn & Hk).
    destruct (create_task _ _ _ w0) as [w1 task_id] eqn:Hcreate.
    cbn [fst snd] in *. rewrite Hfetch. cbn [fst snd].
    set (w2 := record_call _ w1).
    destruct (search_task_empty_spec (clock env) task_id w2)
      as (Htask' & Hq' & Hc' & Hm' & Hn' & Hk').
    subst w0. cbn [db record_call] in Hid. subst task_id.
    rewrite Htask', Hq', Hc', Hn', Hk'. subst w2.
    cbn [db event_queue calls monitor record_call].
    cbn [db record_call] in Htask. rewrite Htask, Hq, Hc, Hn, Hk.
    cbn [event_queue calls db record_call]. rewrite <- !app_assoc. cbn [app].
    split; [done |]. split; [eexists; by split |].
    split; [eauto 10 | done].
  - intros task_id task Htask Hst. cbn zeta.
    rewrite (execute_scheduled_task_running _ _ _ _ _ Htask Hst).
    destruct (begin_scheduled_run_spec (clock env) task_id task w Htask)
      as (Hrc & Htask1 & Hq1 & Hc1 & Hm1 & Hn1 & Hk1).
    set (w1 := (begin_scheduled_run _ _ _ _).1) in *.
    destruct (scheduled_run_search_empty env task_id keyword
                (begin_scheduled_run (clock env) task_id task w).2 w1
                optimized_keyword Hopt Hfetch)
      as (Htask2 & (m2 & m3 & m4 & Hq2 & Hty & Hdata) & Hc2 & Hm2 & Hn2 & Hk2).
    rewrite Hrc in Htask2, Hq2, Hc2, Hn2, Hk2, Hdata |- *.
    rewrite Htask2, Htask1, Hq2, Hq1, Hc2, Hc1, Hn2, Hn1, Hk2, Hk1.
    rewrite <- !app_assoc. cbn [app].
    split; [eexists; split; [reflexivity |]; by split |].
    split; [eauto 10 | done].
Qed.

Lemma empty_search_handling_witness :
  optimize_search_keyword "周杰伦" (chat_api (sample_env (Ok []) NoAnswer) "周杰伦")
  = Ok "周杰伦"
  ∧ mcp_search (sample_env (Ok []) NoAnswer) "周杰伦" = Ok []
  ∧ (execute_search_task (sample_env (Ok []) NoAnswer) "周杰伦" sample_world).2
    = false.
Proof.
  split; [reflexivity |]. split; [reflexivity |].
  exact (proj1 (proj1 (empty_search_handling (sample_env (Ok []) NoAnswer)
                         "周杰伦" "周杰伦" sample_world eq_refl eq_refl))).
Defined.

(** C7 as stated fails for a timer fire: the search finds nothing, the
    status of task 1 is still [running] and the run has published four
    events. *)
Lemma timer_empty_search_keeps_running :
  mcp_search (sample_env (Ok []) NoAnswer) "周杰伦" = Ok []
  ∧ ¬ (WorkflowExecution.status
         <$> get_task (db (execute_scheduled_task (sample_env (Ok []) NoAnswer) 1
                             "周杰伦" sample_world)) 1
       = Some "completed")
  ∧ length (event_queue (execute_scheduled_task (sample_env (Ok []) NoAnswer) 1
                           "周杰伦" sample_world))
    = 4%nat.
Proof.
  split; [reflexivity |]. split; [vm_compute; discriminate |].
  vm_compute. reflexivity.
Qed.

(** ** One post *)

Lemma run_worker_effect fuel clk tid w t :
  worker_effect w (run_worker fuel clk tid w t).1.
Proof.
  revert w t. induction fuel as [| fuel IH]; intros w t; [apply worker_effect_refl |].
  cbn. destruct (worker_step clk tid w t) as [[w' t'] |] eqn:Hstep;
    [| apply worker_effect_refl].
  eapply worker_effect_trans; [by eapply worker_step_effect | apply IH].
Qed.

(** No call of [process_single_feed] changes the table of notes: the note it
    adds is flushed in a session that is removed before anything commits. *)
Lemma process_single_feed_notes clk api feed workflow_execution_id w :
  notes (db (process_single_feed clk api feed workflow_execution_id w).1)
  = notes (db w).
Proof. unfold process_single_feed. apply run_worker_effect. Qed.

(** C5: the post [n3] is new and the classifier gives no usable answer
    (which counts as negative); the call answers success, not a ticket, and
    afterwards the store holds no post [n3]: the note was flushed in the
    session of the first block, which is removed when the block is left, and
    the commit of the last block runs in a new, empty session. *)
Theorem negative_post_is_not_persisted :
  get_note (db sample_world) "n3" = None
  ∧ outcome_of (process_single_feed sample_clock (λ _, NoAnswer) new_feed 1
                  sample_world).2
    = Some (NoteOnly "n3")
  ∧ success (NoteOnly "n3") = true ∧ is_ticket (NoteOnly "n3") = false
  ∧ get_note (db (process_single_feed sample_clock (λ _, NoAnswer) new_feed 1
                    sample_world).1) "n3"
    = None
  ∧ db (process_single_feed sample_clock (λ _, NoAnswer) new_feed 1
          sample_world).1
    = db sample_world.
Proof. vm_compute. by repeat split. Qed.

(** ** Tickets found by a timer fire are not announced *)

Lemma begin_scheduled_run_queue clk task_id task w :
  ∃ m, event_queue (begin_scheduled_run clk task_id task w).1 = event_queue w ++ [m]
       ∧ type m = "task_update".
Proof. eexists. split; reflexivity. Qed.

(** X12: whatever a timer fire finds (tickets included), the events it
    publishes are all of type [task_update]: a timer fire never publishes a
    [ticket_update]. *)
Lemma timer_fire_publishes_task_updates env task_id keyword w :
  ∃ published,
    event_queue (execute_scheduled_task env task_id keyword w)
    = event_queue w ++ published
    ∧ Forall (λ m, type m = "task_update") published.
Proof.
  unfold execute_scheduled_task.
  assert (Hnone : ∃ published, event_queue w = event_queue w ++ published
                    ∧ Forall (λ m, type m = "task_update") published).
  { exists []. by rewrite app_nil_r. }
  destruct (get_task (db w) task_id) as [task |]; [| exact Hnone].
  destruct (negb _); [exact Hnone |].
  destruct (String.eqb _ _); [exact Hnone |].
  destruct (begin_scheduled_run_queue (clock env) task_id task w) as (m & Hq & Hty).
  destruct (begin_scheduled_run _ _ _ _) as [w1 run_count]. cbn [fst] in Hq.
  destruct (scheduled_run_search_spec env task_id keyword run_count w1)
    as (_ & (later & Hq2 & Hlater) & _).
  exists (m :: later). rewrite Hq2, Hq, <- app_assoc. split; [reflexivity |].
  by constructor.
Qed.

(** C4: task 1 is running, the feed service finds the new post [n3] and the
    classifier says it is a resale offer. The timer fire persists the ticket
    and publishes no [ticket_update] event (its four events are task
    updates), while the run that creates a task publishes one
    [ticket_update] with the ticket for the same post. *)
Theorem timer_fire_ticket_is_not_announced :
  let env := sample_env (Ok [new_feed]) (Answer resale_info) in
  let w' := execute_scheduled_task env 1 "周杰伦" sample_world in
  let w'' := (execute_search_task env "周杰伦" sample_world).1 in
  count_tickets (db sample_world) "n3" = 0%nat
  ∧ count_tickets (db w') "n3" = 1%nat
  ∧ of_type "ticket_update" (event_queue w') = []
  ∧ type <$> event_queue w'
    = ["task_update"; "task_update"; "task_update"; "task_update"]
  ∧ count_tickets (db w'') "n3" = 1%nat
  ∧ data <$> of_type "ticket_update" (event_queue w'')
    = [TicketFound 2 resale_snapshot].
Proof. vm_compute. by repeat split. Qed.

(** ** At most one post and one ticket per identity, under any interleaving *)

Lemma count_tickets_none db note_id :
  first_ticket_of db note_id = None → count_tickets db note_id = 0%nat.
Proof.
  unfold first_ticket_of, count_tickets. intros Hnone.
  induction (tickets db) as [| k l IH]; [reflexivity |].
  cbn in Hnone. rewrite filter_cons. case_bool_decide as Hk; [discriminate |].
  rewrite decide_False by exact Hk. by apply IH.
Qed.

Lemma count_tickets_added db db' row note_id :
  tickets db' = tickets db ++ [row] →
  count_tickets db' note_id
  = (count_tickets db note_id
     + if decide (Ticket.note_id row = Some note_id) then 1 else 0)%nat.
Proof.
  unfold count_tickets. intros ->. rewrite filter_app, length_app.
  rewrite filter_cons, filter_nil. by destruct (decide _).
Qed.

Lemma count_tickets_same db db' note_id :
  tickets db' = tickets db → count_tickets db' note_id = count_tickets db note_id.
Proof. unfold count_tickets. by intros ->. Qed.

Lemma count_notes_same db db' note_id :
  notes db' = notes db → count_notes db' note_id = count_notes db note_id.
Proof. unfold count_notes. by intros ->. Qed.

Lemma build_ticket_note_id feed_id info ticket :
  build_ticket feed_id info = Ok ticket → Ticket.note_id ticket = Some feed_id.
Proof.
  unfold build_ticket. destruct (String.eqb _ ""); cbn.
  - by intros [= <-].
  - destruct (strptime_ymd _); cbn; [by intros [= <-] | discriminate].
Qed.

(** The three kinds of steps of a worker: it moves without touching the
    lock or the tickets, it takes the free lock, or it leaves its block,
    which releases the lock, possibly after adding one ticket for its post,
    having seen none. *)
Lemma worker_step_kinds clk i w t w' t' :
  worker_step clk i w t = Some (w', t') →
  feed t' = feed t
  ∧ has_returned t = false ∧ is_queued t' = false
  ∧ (before_analysis (at_pc t') = true →
     before_analysis (at_pc t) = true ∧ analyses t' = analyses t)
  ∧ ((tickets (db w') = tickets (db w) ∧ db_lock w' = db_lock w
      ∧ holds_lock (at_pc t') = holds_lock (at_pc t)
      ∧ (∀ info, at_pc t' = AddTicket info →
                 first_ticket_of (db w) (Feed.id (feed t)) = None))
     ∨ (tickets (db w') = tickets (db w) ∧ db_lock w = None
        ∧ db_lock w' = Some i ∧ holds_lock (at_pc t') = true
        ∧ ∀ info, at_pc t' ≠ AddTicket info)
     ∨ (holds_lock (at_pc t) = true ∧ db_lock w' = None
        ∧ holds_lock (at_pc t') = false
        ∧ (tickets (db w') = tickets (db w)
           ∨ ∃ info row, at_pc t = AddTicket info
                         ∧ tickets (db w') = tickets (db w) ++ [row]
                         ∧ Ticket.note_id row = Some (Feed.id (feed t))))).
Proof.
  unfold worker_step, has_returned, is_queued. intros H.
  destruct (at_pc t) eqn:Hpc; cbn in H; repeat case_match; simplify_eq/=;
    (split; [reflexivity |]); (split; [reflexivity |]); (split; [reflexivity |]);
    (split; [by intros |]);
    first [ by left; repeat split; intros; simplify_eq
          | by right; left; repeat split; intros; simplify_eq
          | by right; right; repeat split; left
          | idtac ].
  right; right. repeat split. right. eexists _, _.
  split; [reflexivity |]. split; [reflexivity |].
  cbn. by eapply build_ticket_note_id.
Qed.

Lemma pool_step_inv clk note_id p i :
  pool_inv note_id p → pool_inv note_id (pool_step clk p i).
Proof.
  intros Hinv. unfold pool_step.
  destruct (workers p !! i) as [t |] eqn:Hi; [| exact Hinv].
  destruct (is_queued t && negb (can_start i (workers p))); [exact Hinv |].
  destruct (worker_step clk i (world p) t) as [[w' t'] |] eqn:Hstep; [| exact Hinv].
  destruct (worker_step_kinds _ _ _ _ _ _ Hstep) as (Hfeed & _ & _ & Hearly & Hkind).
  destruct Hinv as [Hlock Habsent Hunique Hanalyses].
  assert (Hlookup : ∀ j tj, <[i := t']> (workers p) !! j = Some tj →
            (j = i ∧ tj = t') ∨ (j ≠ i ∧ workers p !! j = Some tj)).
  { intros j tj Hj. destruct (decide (j = i)) as [-> | Hne].
    - left. rewrite list_lookup_insert_eq in Hj by (by eapply lookup_lt_Some).
      by simplify_eq.
    - right. by rewrite list_lookup_insert_ne in Hj. }
  split; cbn [world workers].
  - (* the lock *)
    intros j tj Hj Hholds. apply Hlookup in Hj as [[-> ->] | [Hne Hj]].
    + destruct Hkind as [(_ & -> & Hh & _) | [(_ & _ & -> & _) | (_ & _ & Hh & _)]];
        [rewrite Hh in Hholds; eauto | reflexivity | congruence].
    + pose proof (Hlock j tj Hj Hholds) as Hlj.
      destruct Hkind as [(_ & -> & _) | [(_ & Hfree & _) | (Hh & _)]];
        [exact Hlj | congruence |].
      pose proof (Hlock i t Hi Hh). congruence.
  - (* no ticket where one is about to be added *)
    intros j tj info Hj Hpc. apply Hlookup in Hj as [[-> ->] | [Hne Hj]].
    + destruct Hkind as [(Hk & _ & _ & Hnone) | [(_ & _ & _ & _ & Hnot) | (_ & _ & Hh & _)]].
      * rewrite (count_tickets_same _ _ _ Hk), Hfeed.
        apply count_tickets_none. by eapply Hnone.
      * by destruct (Hnot info).
      * rewrite Hpc in Hh. discriminate.
    + assert (holds_lock (at_pc tj) = true) as Hholds by (by rewrite Hpc).
      pose proof (Hlock j tj Hj Hholds) as Hlj.
      destruct Hkind as [(Hk & _) | [(Hk & _) | (Hh & _)]].
      * rewrite (count_tickets_same _ _ _ Hk). by eapply Habsent.
      * rewrite (count_tickets_same _ _ _ Hk). by eapply Habsent.
      * pose proof (Hlock i t Hi Hh). congruence.
  - (* at most one ticket *)
    destruct Hkind as [(Hk & _) | [(Hk & _) | (_ & _ & _ & [Hk | Hadd])]];
      try by rewrite (count_tickets_same _ _ _ Hk).
    destruct Hadd as (info & row & Hpc & Hk & Hrow).
    rewrite (count_tickets_added _ _ row _ Hk).
    destruct (decide _) as [Heq | _]; [| lia].
    rewrite Hrow in Heq. injection Heq as <-.
    rewrite (Habsent i t info Hi Hpc). lia.
  - (* no classification before the analysis *)
    intros j tj Hj Hb. apply Hlookup in Hj as [[-> ->] | [Hne Hj]]; [| eauto].
    destruct (Hearly Hb) as [Hb' ->]. eauto.
Qed.


Lemma new_pool_inv apis feeds w note_id :
  (count_tickets (db w) note_id ≤ 1)%nat → pool_inv note_id (new_pool apis feeds w).
Proof.
  intros Hunique.
  assert (Hq : ∀ i t, workers (new_pool apis feeds w) !! i = Some t →
            at_pc t = Queued ∧ analyses t = 0%nat).
  { intros i t. unfold new_pool. cbn [workers]. rewrite list_lookup_imap.
    destruct (feeds !! i); [| discriminate]. by intros [= <-]. }
  split.
  - intros i t Hi Hh. destruct (Hq i t Hi) as [Hpc _]. by rewrite Hpc in Hh.
  - intros i t info Hi Hpc. destruct (Hq i t Hi) as [Hpc' _]. congruence.
  - exact Hunique.
  - intros i t Hi _. by destruct (Hq i t Hi).
Qed.

Lemma pool_steps_inv clk note_id p l :
  pool_inv note_id p → pool_inv note_id (foldl (pool_step clk) p l).
Proof.
  revert p. induction l as [| i l IH]; intros p Hinv; [exact Hinv |].
  cbn. by apply IH, pool_step_inv.
Qed.

Lemma pool_finish_one_inv clk note_id p i :
  pool_inv note_id p → pool_inv note_id (pool_finish_one clk p i).
Proof.
  intros Hinv. unfold pool_finish_one. generalize 10%nat. intros n.
  induction n as [| n IHn]; [exact Hinv |]. cbn. by apply pool_step_inv.
Qed.

Lemma pool_finish_inv clk note_id p l :
  pool_inv note_id p → pool_inv note_id (foldl (pool_finish_one clk) p l).
Proof.
  revert p. induction l as [| i l IH]; intros p Hinv; [exact Hinv |].
  cbn [foldl]. by apply IH, pool_finish_one_inv.
Qed.

Lemma run_pool_inv clk schedule apis feeds w note_id :
  (count_tickets (db w) note_id ≤ 1)%nat →
  pool_inv note_id (run_pool clk schedule apis feeds w).
Proof.
  intros Hunique. unfold run_pool. by apply pool_finish_inv, pool_steps_inv, new_pool_inv.
Qed.

(** A worker that finds the note of its post returns [already_exists]
    there and then: the store and the calls made stay as they are. *)
Lemma pool_step_duplicate clk p i t :
  workers p !! i = Some t → at_pc t = GetNote →
  is_Some (get_note (db (world p)) (Feed.id (feed t))) →
  at_pc <$> workers (pool_step clk p i) !! i
  = Some (Return (AlreadyExists (Feed.id (feed t))))
  ∧ db (world (pool_step clk p i)) = db (world p)
  ∧ calls (world (pool_step clk p i)) = calls (world p).
Proof.
  intros Hi Hpc [n Hn]. unfold pool_step. rewrite Hi.
  unfold is_queued. rewrite Hpc. cbn [andb].
  unfold worker_step. rewrite Hpc. unfold session_get_note. cbn [new_notes new_session find].
  rewrite Hn. cbn [world workers].
  rewrite list_lookup_insert_eq by (by eapply lookup_lt_Some). done.
Qed.

(** Two workers get the same new post and both are told it is a resale
    offer; they run in turns. One saves the ticket, the other finds it. *)
Example same_post_twice :
  let p := run_pool sample_clock [0; 1; 0; 1; 0; 1; 0; 1; 0; 1; 1; 0; 1; 0]%nat
             (λ _ _, Answer resale_info) [new_feed; new_feed] sample_world in
  results p = [TicketSaved resale_snapshot; TicketExists "n3"]
  ∧ count_tickets (db (world p)) "n3" = 1%nat
  ∧ count_notes (db (world p)) "n3" = 0%nat.
Proof. vm_compute. by repeat split. Qed.

(** ** Every call returns *)

(** A worker that is not kept waiting moves, gets closer to its return and
    is not kept waiting afterwards. *)
Lemma worker_step_progress clk tid w t :
  lock_fits tid w t → has_returned t = false →
  ∃ w' t', worker_step clk tid w t = Some (w', t')
           ∧ (remaining (at_pc t') < remaining (at_pc t))%nat
           ∧ lock_fits tid w' t'.
Proof.
  unfold lock_fits, has_returned, worker_step. intros Hfit Hrun.
  destruct (at_pc t) eqn:Hpc; cbn in Hfit, Hrun |- *;
    destruct Hfit as [[Hlock Hh] | [Hlock Hh]]; try discriminate;
    try rewrite Hlock;
    repeat case_match; simplify_eq/=;
    eexists _, _; (split; [reflexivity |]); cbn; (split; [lia |]);
    first [ by left | by right ].
Qed.

Lemma run_worker_returns fuel clk tid w t :
  lock_fits tid w t → (remaining (at_pc t) ≤ fuel)%nat →
  has_returned (run_worker fuel clk tid w t).2 = true
  ∧ db_lock (run_worker fuel clk tid w t).1 = None.
Proof.
  revert w t. induction fuel as [| fuel IH]; intros w t Hfit Hfuel.
  - destruct (at_pc t) eqn:Hpc; cbn in Hfuel; try lia.
    cbn. unfold has_returned. rewrite Hpc. split; [reflexivity |].
    destruct Hfit as [[Hlock _] | [_ Hh]]; [exact Hlock |].
    rewrite Hpc in Hh. discriminate.
  - destruct (has_returned t) eqn:Hret.
    + unfold has_returned in Hret. destruct (at_pc t) eqn:Hpc; try discriminate.
      cbn. unfold worker_step. rewrite Hpc. cbn. unfold has_returned.
      rewrite Hpc. split; [reflexivity |].
      destruct Hfit as [[Hlock _] | [_ Hh]]; [exact Hlock |].
      rewrite Hpc in Hh. discriminate.
    + destruct (worker_step_progress clk tid w t Hfit Hret)
        as (w' & t' & Hstep & Hless & Hfit').
      cbn. rewrite Hstep. apply IH; [exact Hfit' | lia].
Qed.

(** With the lock free, [process_single_feed] returns an outcome and leaves
    the lock free. *)
Lemma process_single_feed_returns clk api feed workflow_execution_id w :
  db_lock w = None →
  (∃ o, outcome_of (process_single_feed clk api feed workflow_execution_id w).2
        = Some o)
  ∧ db_lock (process_single_feed clk api feed workflow_execution_id w).1 = None.
Proof.
  intros Hlock. unfold process_single_feed.
  destruct (run_worker_returns 9 clk 0 w (mkWorker feed api Entry 0)) as [Hret Hfree].
  - left. by split.
  - cbn. lia.
  - split; [| exact Hfree]. unfold has_returned, outcome_of in *.
    destruct (at_pc _); try discriminate. eauto.
Qed.

(** ** Every worker of a pool returns *)

Lemma forallb_take_lookup {A} (f : A → bool) (l : list A) n i x :
  forallb f (take n l) = true → (i < n)%nat → l !! i = Some x → f x = true.
Proof.
  intros Hall Hi Hx. rewrite forallb_forall in Hall. apply Hall.
  apply list_elem_of_In, (list_elem_of_lookup_2 _ i). by rewrite lookup_take_lt.
Qed.

Lemma new_pool_lookup apis feeds w i t :
  workers (new_pool apis feeds w) !! i = Some t →
  at_pc t = Queued ∧ analyses t = 0%nat.
Proof.
  unfold new_pool. cbn [workers]. rewrite list_lookup_imap.
  destruct (feeds !! i); [| discriminate]. by intros [= <-].
Qed.

Lemma new_pool_ok apis feeds w : db_lock w = None → pool_ok (new_pool apis feeds w).
Proof.
  intros Hfree. split.
  - intros i t Hi Hh. apply new_pool_lookup in Hi as [Hpc _]. by rewrite Hpc in Hh.
  - intros i Hi. cbn in Hi. congruence.
  - intros i j ti tj _ _ Hj _. apply new_pool_lookup in Hj as [Hpc _].
    unfold is_queued. by rewrite Hpc.
  - intros i. cbn [completed new_pool]. rewrite elem_of_nil. split; [done |].
    intros (t & Hi & Hret). apply new_pool_lookup in Hi as [Hpc _].
    unfold has_returned in Hret. by rewrite Hpc in Hret.
  - constructor.
Qed.

Lemma pool_step_ok clk p i : pool_ok p → pool_ok (pool_step clk p i).
Proof.
  intros Hok. unfold pool_step.
  destruct (workers p !! i) as [t |] eqn:Hi; [| exact Hok].
  destruct (is_queued t && negb (can_start i (workers p))) eqn:Hguard; [exact Hok |].
  destruct (worker_step clk i (world p) t) as [[w' t'] |] eqn:Hstep; [| exact Hok].
  destruct (worker_step_kinds _ _ _ _ _ _ Hstep) as (_ & Hrun & Hnq & _ & Hkind).
  destruct Hok as [Hlock Hholder Hfifo Hcompl Hnodup].
  assert (Hlen : (i < length (workers p))%nat) by (by eapply lookup_lt_Some).
  assert (Hlookup : ∀ j tj, <[i := t']> (workers p) !! j = Some tj →
            (j = i ∧ tj = t') ∨ (j ≠ i ∧ workers p !! j = Some tj)).
  { intros j tj Hj. destruct (decide (j = i)) as [-> | Hne].
    - left. rewrite list_lookup_insert_eq in Hj by done. by simplify_eq.
    - right. by rewrite list_lookup_insert_ne in Hj. }
  assert (Hni : i ∉ completed p).
  { rewrite Hcompl. intros (t0 & Ht0 & Hr). simplify_eq. congruence. }
  split; cbn [world workers completed].
  - intros j tj Hj Hholds. apply Hlookup in Hj as [[-> ->] | [Hne Hj]].
    + destruct Hkind as [(_ & -> & Hh & _) | [(_ & _ & -> & _) | (_ & _ & Hh & _)]];
        [rewrite Hh in Hholds; eauto | reflexivity | congruence].
    + pose proof (Hlock j tj Hj Hholds) as Hlj.
      destruct Hkind as [(_ & -> & _) | [(_ & Hfree & _) | (Hh & _)]];
        [exact Hlj | congruence |].
      pose proof (Hlock i t Hi Hh). congruence.
  - intros j Hj.
    destruct Hkind as [(_ & Hl & Hh & _) | [(_ & _ & Hl & Hh & _) | (_ & Hl & _)]].
    + rewrite Hl in Hj. destruct (Hholder j Hj) as (tj & Htj & Hhj).
      destruct (decide (j = i)) as [-> | Hne].
      * exists t'. rewrite list_lookup_insert_eq by done.
        split; [done |]. rewrite Hh. by simplify_eq.
      * exists tj. by rewrite list_lookup_insert_ne.
    + rewrite Hl in Hj. injection Hj as <-. exists t'.
      by rewrite list_lookup_insert_eq.
    + rewrite Hl in Hj. discriminate.
  - intros a b ta tb Hab Ha Hb Hqa.
    apply Hlookup in Ha as [[-> ->] | [Hna Ha]]; [congruence |].
    apply Hlookup in Hb as [[-> ->] | [Hnb Hb]]; [| eauto]. exfalso.
    destruct (is_queued t) eqn:Hqt.
    + cbn in Hguard. apply negb_false_iff in Hguard. unfold can_start in Hguard.
      apply andb_true_iff in Hguard as [Hall _].
      pose proof (forallb_take_lookup _ _ _ _ _ Hall Hab Ha) as Hf.
      cbn in Hf. rewrite Hqa in Hf. discriminate.
    + pose proof (Hfifo a i ta t Hab Ha Hi Hqa). congruence.
  - intros j. destruct (has_returned t') eqn:Hret.
    + rewrite elem_of_app, list_elem_of_singleton. split.
      * intros [Hin | ->].
        -- pose proof Hin as Hin'. apply Hcompl in Hin as (tj & Htj & Hr).
           exists tj. split; [| done]. rewrite list_lookup_insert_ne; [done |].
           by intros ->.
        -- exists t'. by rewrite list_lookup_insert_eq.
      * intros (tj & Htj & Hr).
        apply Hlookup in Htj as [[-> ->] | [Hne Htj]]; [by right |].
        left. apply Hcompl. eauto.
    + rewrite Hcompl. split; intros (tj & Htj & Hr).
      * exists tj. split; [| done]. rewrite list_lookup_insert_ne; [done |].
        intros ->. simplify_eq. congruence.
      * apply Hlookup in Htj as [[-> ->] | [Hne Htj]]; [congruence | eauto].
  - destruct (has_returned t'); [| done]. apply NoDup_app.
    split; [done |]. split; [| apply NoDup_singleton].
    by intros x Hx ->%list_elem_of_singleton.
Qed.

Lemma pool_steps_ok clk p l : pool_ok p → pool_ok (foldl (pool_step clk) p l).
Proof.
  revert p. induction l as [| i l IH]; intros p Hok; [exact Hok |].
  cbn. by apply IH, pool_step_ok.
Qed.

Lemma pool_step_length clk p i : length (workers (pool_step clk p i)) = length (workers p).
Proof.
  unfold pool_step. destruct (workers p !! i); [| done].
  destruct (_ && _); [done |]. destruct (worker_step _ _ _ _) as [[? ?] |]; [| done].
  cbn. apply length_insert.
Qed.

Lemma pool_steps_length clk p l :
  length (workers (foldl (pool_step clk) p l)) = length (workers p).
Proof.
  revert p. induction l as [| i l IH]; intros p; [done |].
  cbn. by rewrite IH, pool_step_length.
Qed.

Lemma pool_step_others clk p i j :
  j ≠ i → workers (pool_step clk p i) !! j = workers p !! j.
Proof.
  intros Hne. unfold pool_step. destruct (workers p !! i); [| done].
  destruct (_ && _); [done |]. destruct (worker_step _ _ _ _) as [[? ?] |]; [| done].
  cbn. by rewrite list_lookup_insert_ne.
Qed.

Lemma pool_ok_lock_fits p i t :
  pool_ok p → workers p !! i = Some t →
  db_lock (world p) = None ∨ db_lock (world p) = Some i →
  lock_fits i (world p) t.
Proof.
  intros Hok Hi [Hfree | Hmine].
  - left. split; [exact Hfree |]. destruct (holds_lock (at_pc t)) eqn:Hh; [| done].
    pose proof (ok_lock _ Hok i t Hi Hh). congruence.
  - right. split; [exact Hmine |].
    destruct (ok_holder _ Hok i Hmine) as (t0 & Ht0 & Hh). by simplify_eq.
Qed.

Lemma pool_step_returned clk p i t :
  workers p !! i = Some t → has_returned t = true → pool_step clk p i = p.
Proof.
  intros Hi Hret. unfold pool_step. rewrite Hi.
  unfold has_returned in Hret. unfold is_queued, worker_step.
  by destruct (at_pc t).
Qed.

Lemma pool_step_progress clk p i t :
  pool_ok p → workers p !! i = Some t → has_returned t = false →
  db_lock (world p) = None ∨ db_lock (world p) = Some i →
  (is_queued t = true → can_start i (workers p) = true) →
  ∃ t', workers (pool_step clk p i) !! i = Some t'
        ∧ (remaining (at_pc t') < remaining (at_pc t))%nat
        ∧ is_queued t' = false
        ∧ (db_lock (world (pool_step clk p i)) = None
           ∨ db_lock (world (pool_step clk p i)) = Some i).
Proof.
  intros Hok Hi Hrun Hlock Hstart.
  pose proof (pool_ok_lock_fits p i t Hok Hi Hlock) as Hfit.
  destruct (worker_step_progress clk i (world p) t Hfit Hrun)
    as (w' & t' & Hstep & Hless & Hfit').
  destruct (worker_step_kinds _ _ _ _ _ _ Hstep) as (_ & _ & Hnq & _).
  unfold pool_step. rewrite Hi.
  assert (Hguard : is_queued t && negb (can_start i (workers p)) = false).
  { destruct (is_queued t); [| done]. by rewrite Hstart. }
  rewrite Hguard, Hstep. cbn [world workers].
  exists t'. rewrite list_lookup_insert_eq by (by eapply lookup_lt_Some).
  split; [done |]. split; [done |]. split; [done |].
  destruct Hfit' as [[Hl _] | [Hl _]]; eauto.
Qed.

Lemma pool_iter_returns clk i n p t :
  pool_ok p → workers p !! i = Some t →
  db_lock (world p) = None ∨ db_lock (world p) = Some i →
  (is_queued t = true → can_start i (workers p) = true) →
  (remaining (at_pc t) ≤ n)%nat →
  let p' := Nat.iter n (λ q, pool_step clk q i) p in
  pool_ok p'
  ∧ (∃ t', workers p' !! i = Some t' ∧ has_returned t' = true)
  ∧ db_lock (world p') = None
  ∧ length (workers p') = length (workers p)
  ∧ ∀ j, j ≠ i → workers p' !! j = workers p !! j.
Proof.
  revert p t. induction n as [| n IH]; intros p t Hok Hi Hlock Hstart Hn; cbn zeta.
  - assert (Hret : has_returned t = true).
    { unfold has_returned. destruct (at_pc t); cbn in Hn; (done || lia). }
    cbn. split; [done |]. split; [eauto |]. split; [| done].
    destruct Hlock as [Hl | Hl]; [done |].
    destruct (ok_holder _ Hok i Hl) as (t0 & Ht0 & Hh).
    assert (t0 = t) as -> by congruence.
    unfold has_returned in Hret. by destruct (at_pc t).
  - rewrite Nat.iter_succ_r.
    destruct (has_returned t) eqn:Hret.
    + rewrite (pool_step_returned clk p i t Hi Hret).
      apply (IH p t Hok Hi Hlock Hstart).
      unfold has_returned in Hret. destruct (at_pc t); try discriminate. cbn. lia.
    + destruct (pool_step_progress clk p i t Hok Hi Hret Hlock Hstart)
        as (t' & Hi' & Hless & Hnq & Hlock').
      destruct (IH (pool_step clk p i) t' (pool_step_ok clk p i Hok) Hi' Hlock')
        as (Hok' & Hret' & Hfree & Hlen & Hothers).
      * by rewrite Hnq.
      * lia.
      * split; [done |]. split; [done |]. split; [done |].
        split; [by rewrite Hlen, pool_step_length |].
        intros j Hj. by rewrite Hothers, pool_step_others.
Qed.

Lemma pool_finish_one_returns clk i p t :
  pool_ok p → workers p !! i = Some t →
  db_lock (world p) = None ∨ db_lock (world p) = Some i →
  (is_queued t = true → can_start i (workers p) = true) →
  pool_ok (pool_finish_one clk p i)
  ∧ (∃ t', workers (pool_finish_one clk p i) !! i = Some t'
           ∧ has_returned t' = true)
  ∧ db_lock (world (pool_finish_one clk p i)) = None
  ∧ length (workers (pool_finish_one clk p i)) = length (workers p)
  ∧ ∀ j, j ≠ i → workers (pool_finish_one clk p i) !! j = workers p !! j.
Proof.
  intros Hok Hi Hlock Hstart. unfold pool_finish_one.
  apply (pool_iter_returns clk i 10 p t Hok Hi Hlock Hstart).
  destruct (at_pc t); cbn; lia.
Qed.

Lemma none_in_flight (ws : list Worker) :
  (∀ i t, ws !! i = Some t → in_flight t = false) →
  filter (λ t, in_flight t = true) ws = [].
Proof.
  induction ws as [| t ws IH]; intros Hall; [done |].
  rewrite filter_cons, decide_False.
  - apply IH. intros i t' Hi. apply (Hall (S i) t' Hi).
  - rewrite (Hall 0%nat t eq_refl). discriminate.
Qed.

Lemma pool_finish_all clk m k p :
  pool_ok p → db_lock (world p) = None → length (workers p) = (k + m)%nat →
  (∀ j t, (j < k)%nat → workers p !! j = Some t → has_returned t = true) →
  let p' := foldl (pool_finish_one clk) p (seq k m) in
  pool_ok p' ∧ db_lock (world p') = None
  ∧ length (workers p') = (k + m)%nat
  ∧ ∀ j t, workers p' !! j = Some t → has_returned t = true.
Proof.
  revert k p. induction m as [| m IH]; intros k p Hok Hfree Hlen Hdone; cbn zeta.
  - cbn. split; [done |]. split; [done |]. split; [done |].
    intros j t Hj. apply (Hdone j t); [| done].
    apply lookup_lt_Some in Hj. lia.
  - cbn [seq foldl].
    destruct (lookup_lt_is_Some_2 (workers p) k) as [t Hk]; [lia |].
    assert (Hstart : is_queued t = true → can_start k (workers p) = true).
    { intros Hq. unfold can_start. apply andb_true_iff. split.
      - apply forallb_forall. intros x Hx. apply list_elem_of_In in Hx.
        apply list_elem_of_lookup in Hx as [j Hj].
        apply lookup_take_Some in Hj as [Hj Hjk].
        pose proof (Hdone j x Hjk Hj) as Hret.
        unfold has_returned in Hret. unfold is_queued. by destruct (at_pc x).
      - rewrite none_in_flight; [by apply bool_decide_eq_true_2; cbn; unfold max_workers; lia |].
        intros j tj Hj. unfold in_flight.
        destruct (decide (j < k)%nat) as [Hlt | Hge].
        + rewrite (Hdone j tj Hlt Hj). by rewrite andb_false_r.
        + assert (is_queued tj = true) as ->; [| done].
          destruct (decide (j = k)) as [-> | Hne]; [by simplify_eq |].
          apply (ok_fifo _ Hok k j t tj); [lia | done | done | done]. }
    destruct (pool_finish_one_returns clk k p t Hok Hk (or_introl Hfree) Hstart)
      as (Hok' & (t' & Hk' & Hret') & Hfree' & Hlen' & Hothers).
    replace (k + S m)%nat with (S k + m)%nat by lia.
    apply IH; [done | done | lia |].
    intros j tj Hj Htj. destruct (decide (j = k)) as [-> | Hne].
    + by simplify_eq.
    + rewrite Hothers in Htj by done. apply (Hdone j tj); [lia | done].
Qed.

Lemma length_omap_is_Some {A B} (f : A → option B) (l : list A) :
  (∀ x, x ∈ l → is_Some (f x)) → length (omap f l) = length l.
Proof.
  induction l as [| x l IH]; intros Hall; [done |].
  cbn. destruct (Hall x) as [y Hy]; [by left |]. rewrite Hy. cbn.
  f_equal. apply IH. intros z Hz. apply Hall. by right.
Qed.

(** With the lock free at the start, the pool of a run ends with every
    worker returned and the lock free: whatever the interleaving, there is
    one result per feed. *)
Theorem run_pool_completes clk schedule apis feeds w :
  db_lock w = None →
  let p := run_pool clk schedule apis feeds w in
  (∀ i t, workers p !! i = Some t → has_returned t = true)
  ∧ length (workers p) = length feeds
  ∧ completed p ≡ₚ seq 0 (length feeds)
  ∧ length (results p) = length feeds
  ∧ db_lock (world p) = None.
Proof.
  intros Hfree. cbn zeta. unfold run_pool. rewrite foldl_app.
  set (p1 := foldl (pool_step clk) (new_pool apis feeds w) schedule).
  assert (Hok1 : pool_ok p1) by (by apply pool_steps_ok, new_pool_ok).
  assert (Hlen1 : length (workers p1) = length feeds).
  { subst p1. rewrite pool_steps_length. apply length_imap. }
  set (p2 := foldl (pool_finish_one clk) p1 _).
  assert (H2 : pool_ok p2 ∧ db_lock (world p2) = None
               ∧ length (workers p2) = length feeds).
  { subst p2. destruct (db_lock (world p1)) as [i |] eqn:Hl; cbn [foldl]; [| done].
    destruct (ok_holder _ Hok1 i Hl) as (t & Hi & Hh).
    destruct (pool_finish_one_returns clk i p1 t Hok1 Hi (or_intror Hl))
      as (Hok' & _ & Hfree' & Hlen' & _).
    - unfold is_queued. by destruct (at_pc t).
    - by rewrite Hlen'. }
  destruct H2 as (Hok2 & Hfree2 & Hlen2).
  destruct (pool_finish_all clk (length feeds) 0 p2 Hok2 Hfree2 Hlen2)
    as (Hok3 & Hfree3 & Hlen3 & Hall); [intros; lia |].
  set (p3 := foldl (pool_finish_one clk) p2 _) in *.
  assert (Hperm : completed p3 ≡ₚ seq 0 (length feeds)).
  { apply NoDup_Permutation; [apply Hok3 | apply NoDup_seq |].
    intros i. rewrite (ok_completed _ Hok3), elem_of_seq. split.
    - intros (t & Hi & _). apply lookup_lt_Some in Hi. lia.
    - intros [_ Hi]. destruct (lookup_lt_is_Some_2 (workers p3) i) as [t Ht]; [lia |].
      eauto. }
  split; [exact Hall |]. split; [exact Hlen3 |]. split; [exact Hperm |].
  split; [| exact Hfree3].
  unfold results. rewrite length_omap_is_Some.
  - by rewrite Hperm, length_seq.
  - intros i Hi. apply (ok_completed _ Hok3) in Hi as (t & Ht & Hret).
    rewrite Ht. cbn. unfold has_returned, outcome_of in *.
    destruct (at_pc t); try discriminate. eauto.
Qed.

(** ** The paths of one call *)

Lemma run_worker_step fuel clk tid w t w' t' :
  worker_step clk tid w t = Some (w', t') →
  run_worker (S fuel) clk tid w t = run_worker fuel clk tid w' t'.
Proof. intros H. cbn [run_worker]. by rewrite H. Qed.

Lemma run_worker_returned fuel clk tid w t o :
  at_pc t = Return o → run_worker fuel clk tid w t = (w, t).
Proof.
  intros H. destruct fuel; [done |]. cbn [run_worker]. unfold worker_step.
  by rewrite H.
Qed.

Lemma get_note_none_existsb db note_id :
  get_note db note_id = None →
  existsb (λ m, String.eqb (Note.note_id m) note_id) (notes db) = false.
Proof.
  unfold get_note. induction (notes db) as [| n l IH]; [done |].
  cbn. destruct (String.eqb _ _); [discriminate | exact IH].
Qed.

Lemma get_note_rows db1 db2 note_id :
  notes db1 = notes db2 → get_note db1 note_id = get_note db2 note_id.
Proof. unfold get_note. by intros ->. Qed.

(** The steps of a call, one by one. *)

Lemma step_entry clk tid w t :
  at_pc t = Entry → Feed.modelType (feed t) = "note" →
  Feed.id (feed t) ≠ "" → Feed.noteCard (feed t) ≠ [] →
  worker_step clk tid w t = Some (w, goto AcquireNoteLock t).
Proof.
  intros Hpc Htype Hid Hcard. unfold worker_step. rewrite Hpc, Htype.
  apply String.eqb_neq in Hid. rewrite Hid.
  by rewrite (bool_decide_eq_false_2 _ Hcard).
Qed.

Lemma step_acquire_note_lock clk tid w t :
  at_pc t = AcquireNoteLock → db_lock w = None →
  worker_step clk tid w t = Some (set_db_lock (Some tid) w, goto GetNote t).
Proof. intros Hpc Hfree. unfold worker_step. by rewrite Hpc, Hfree. Qed.

Lemma step_get_note_new clk tid w t :
  at_pc t = GetNote → get_note (db w) (Feed.id (feed t)) = None →
  worker_step clk tid w t = Some (w, goto AddNote t).
Proof.
  intros Hpc Hnew. unfold worker_step, session_get_note. rewrite Hpc.
  cbn [new_notes new_session find]. by rewrite Hnew.
Qed.

Lemma step_add_note clk tid w t :
  at_pc t = AddNote → get_note (db w) (Feed.id (feed t)) = None →
  worker_step clk tid w t
  = Some (leave_block (utcnow clk (now clk w).2).2, goto Analyze t).
Proof.
  intros Hpc Hnew. unfold worker_step. rewrite Hpc.
  unfold session_flush, session_add_note.
  cbn [now utcnow fst snd new_notes new_session app db insert_notes Note.note_id
       mbind result_bind].
  by rewrite (get_note_none_existsb _ _ Hnew).
Qed.

Lemma step_analyze clk tid w t :
  at_pc t = Analyze →
  let info := analyze_ticket_content (api t) (displayTitle (feed t)) in
  worker_step clk tid w t
  = Some (record_call (CallAnalyze (displayTitle (feed t))) w,
          goto (if TicketInfo.is_ticket_resale info
                then AcquireTicketLock info else AcquireCommitLock)
            (mkWorker (feed t) (api t) (at_pc t) (S (analyses t)))).
Proof.
  intros Hpc. cbn zeta. unfold worker_step. rewrite Hpc.
  by destruct (TicketInfo.is_ticket_resale _).
Qed.

Lemma step_acquire_commit_lock clk tid w t :
  at_pc t = AcquireCommitLock → db_lock w = None →
  worker_step clk tid w t = Some (set_db_lock (Some tid) w, goto CommitNote t).
Proof. intros Hpc Hfree. unfold worker_step. by rewrite Hpc, Hfree. Qed.

Lemma step_commit_note clk tid w t :
  at_pc t = CommitNote →
  worker_step clk tid w t
  = Some (leave_block
            (set_db (mkStore (notes (db w)) (tickets (db w))
                       (workflow_executions (db w)))
               (utcnow clk w).2),
          goto (Return (NoteOnly (Feed.id (feed t)))) t).
Proof. intros Hpc. unfold worker_step. by rewrite Hpc. Qed.

Lemma step_acquire_ticket_lock clk tid w t info :
  at_pc t = AcquireTicketLock info → db_lock w = None →
  worker_step clk tid w t
  = Some (set_db_lock (Some tid) w, goto (QueryTicket info) t).
Proof. intros Hpc Hfree. unfold worker_step. by rewrite Hpc, Hfree. Qed.

Lemma step_query_ticket_none clk tid w t info :
  at_pc t = QueryTicket info → first_ticket_of (db w) (Feed.id (feed t)) = None →
  worker_step clk tid w t = Some (w, goto (AddTicket info) t).
Proof. intros Hpc Hnone. unfold worker_step. by rewrite Hpc, Hnone. Qed.

Lemma step_add_ticket clk tid w t info ticket :
  at_pc t = AddTicket info → build_ticket (Feed.id (feed t)) info = Ok ticket →
  TicketInfo.binds info = true →
  worker_step clk tid w t
  = Some (leave_block
            (set_db (mkStore (notes (db w))
                       (insert_tickets (utc clk (reads w)) [ticket] (tickets (db w)))
                       (workflow_executions (db w)))
               (utcnow clk w).2),
          goto (Return (TicketSaved
                          (snapshot_of ticket (note_url_of (Feed.id (feed t)))))) t).
Proof.
  intros Hpc Hbuild Hbinds. unfold worker_step. by rewrite Hpc, Hbuild, Hbinds.
Qed.

(** A well-formed post that the store does not hold and that the
    classifier does not take for a resale offer (or fails on): the call
    answers success without a ticket, and the store is as it was; the post
    is not in it. *)
Lemma process_single_feed_negative clk classifier post workflow_execution_id w :
  Feed.modelType post = "note" → Feed.id post ≠ "" → Feed.noteCard post ≠ [] →
  get_note (db w) (Feed.id post) = None → db_lock w = None →
  TicketInfo.is_ticket_resale (analyze_ticket_content classifier (displayTitle post)) = false →
  let r := process_single_feed clk classifier post workflow_execution_id w in
  outcome_of r.2 = Some (NoteOnly (Feed.id post))
  ∧ notes (db r.1) = notes (db w)
  ∧ tickets (db r.1) = tickets (db w)
  ∧ get_note (db r.1) (Feed.id post) = None
  ∧ calls r.1 = calls w ++ [CallAnalyze (displayTitle post)].
Proof.
  intros Htype Hid Hcard Hnew Hfree Hneg. cbn zeta. unfold process_single_feed.
  erewrite run_worker_step by (by apply step_entry).
  erewrite run_worker_step by (by apply step_acquire_note_lock).
  erewrite run_worker_step by (by apply step_get_note_new).
  erewrite run_worker_step by (by apply step_add_note).
  erewrite run_worker_step by (by apply step_analyze).
  cbn [feed api goto at_pc analyses]. rewrite Hneg.
  erewrite run_worker_step by (by apply step_acquire_commit_lock).
  erewrite run_worker_step by (by apply step_commit_note).
  erewrite run_worker_returned by reflexivity.
  cbn [fst snd]. split; [reflexivity |]. split; [reflexivity |].
  split; [reflexivity |]. split; [exact Hnew | reflexivity].
Qed.

(** The ticket that is built from a verdict: its entries, and its date
    parsed when the text is not empty. *)
Lemma build_ticket_fields feed_id info ticket :
  build_ticket feed_id info = Ok ticket →
  ticket = Ticket.mk 0 (Some feed_id) (TicketInfo.is_ticket_resale info)
             (TicketInfo.event_name info) (TicketInfo.city info)
             (Ticket.event_date ticket) (TicketInfo.area info)
             (TicketInfo.price info) (TicketInfo.quantity info)
             (TicketInfo.contact info) (TicketInfo.notes info) 0
  ∧ ((TicketInfo.event_date info = "" ∧ Ticket.event_date ticket = None)
     ∨ (TicketInfo.event_date info ≠ ""
        ∧ ∃ d, strptime_ymd (TicketInfo.event_date info) = Ok d
               ∧ Ticket.event_date ticket = Some d)).
Proof.
  unfold build_ticket.
  destruct (String.eqb_spec (TicketInfo.event_date info) "") as [Hd | Hd]; cbn.
  - intros [= <-]. split; [reflexivity |]. by left.
  - destruct (strptime_ymd _) as [d |] eqn:Hdate; cbn; [| discriminate].
    intros [= <-]. split; [reflexivity |]. right. eauto.
Qed.

(** A well-formed post that the store does not hold, for which there is no
    ticket, and that the classifier takes for a resale offer whose entries
    bind, with no date or a date that parses: the call stores one ticket for
    it and answers success with the ticket. *)
Lemma process_single_feed_positive clk classifier post workflow_execution_id w info ticket :
  Feed.modelType post = "note" → Feed.id post ≠ "" → Feed.noteCard post ≠ [] →
  get_note (db w) (Feed.id post) = None → db_lock w = None →
  first_ticket_of (db w) (Feed.id post) = None →
  analyze_ticket_content classifier (displayTitle post) = info →
  TicketInfo.is_ticket_resale info = true →
  TicketInfo.binds info = true →
  build_ticket (Feed.id post) info = Ok ticket →
  let r := process_single_feed clk classifier post workflow_execution_id w in
  outcome_of r.2
  = Some (TicketSaved (snapshot_of ticket (note_url_of (Feed.id post))))
  ∧ notes (db r.1) = notes (db w)
  ∧ tickets (db r.1)
    = tickets (db w)
      ++ [Ticket.mk (next_id (Ticket.id <$> tickets (db w))) (Some (Feed.id post))
            true (TicketInfo.event_name info) (TicketInfo.city info)
            (Ticket.event_date ticket) (TicketInfo.area info)
            (TicketInfo.price info) (TicketInfo.quantity info)
            (TicketInfo.contact info) (TicketInfo.notes info)
            (utc clk (S (S (reads w))))]
  ∧ count_tickets (db r.1) (Feed.id post) = 1%nat
  ∧ calls r.1 = calls w ++ [CallAnalyze (displayTitle post)].
Proof.
  intros Htype Hid Hcard Hnew Hfree Hnone Hinfo Hpos Hbinds Hbuild.
  cbn zeta. unfold process_single_feed.
  erewrite run_worker_step by (by apply step_entry).
  erewrite run_worker_step by (by apply step_acquire_note_lock).
  erewrite run_worker_step by (by apply step_get_note_new).
  erewrite run_worker_step by (by apply step_add_note).
  erewrite run_worker_step by (by apply step_analyze).
  cbn [feed api goto at_pc analyses]. rewrite Hinfo, Hpos.
  erewrite run_worker_step by (by apply step_acquire_ticket_lock).
  erewrite run_worker_step by (by apply step_query_ticket_none).
  erewrite run_worker_step by (by eapply step_add_ticket).
  erewrite run_worker_returned by reflexivity.
  cbn [fst snd]. split; [reflexivity |]. split; [reflexivity |].
  destruct (build_ticket_fields _ _ _ Hbuild) as (Hfields & _).
  assert (Hrows : tickets (db (leave_block
              (set_db (mkStore (notes (db w))
                         (insert_tickets (utc clk (S (S (reads w)))) [ticket]
                            (tickets (db w)))
                         (workflow_executions (db w)))
                 (utcnow clk (set_db_lock (Some 0%nat)
                                (record_call (CallAnalyze (displayTitle post))
                                   (leave_block (utcnow clk (now clk
                                      (set_db_lock (Some 0%nat) w)).2).2)))).2)))
            = tickets (db w)
              ++ [Ticket.mk (next_id (Ticket.id <$> tickets (db w)))
                    (Some (Feed.id post)) true (TicketInfo.event_name info)
                    (TicketInfo.city info) (Ticket.event_date ticket)
                    (TicketInfo.area info) (TicketInfo.price info)
                    (TicketInfo.quantity info) (TicketInfo.contact info)
                    (TicketInfo.notes info) (utc clk (S (S (reads w))))]).
  { cbn. rewrite Hfields. cbn. by rewrite Hpos. }
  split; [exact Hrows |]. split; [| reflexivity].
  rewrite (count_tickets_added (db w) _ _ _ Hrows).
  rewrite (count_tickets_none _ _ Hnone), decide_True by reflexivity. done.
Qed.

(** ** The run that creates a task announces every ticket *)

Lemma announced_app q1 q2 : announced (q1 ++ q2) = announced q1 ++ announced q2.
Proof. unfold announced. apply omap_app. Qed.

Lemma report_results_announces clk task_id total processed count rs w :
  announced (event_queue (report_results clk task_id total processed count rs w).1)
  = announced (event_queue w) ++ saved_tickets rs.
Proof.
  revert processed count w.
  induction rs as [| r rs IH]; intros processed count w.
  - cbn. by rewrite app_nil_r.
  - cbn [report_results].
    destruct r; destruct (_ || _); rewrite IH;
      rewrite ?notify_clients_queue, ?announced_app; cbn;
      rewrite ?app_nil_r, <- ?app_assoc; reflexivity.
Qed.

(** ** Pause and resume, were the lookup to succeed *)

(** If the registry had the job id among its keys and the scheduler the job,
    pausing would pause the job and answer [True] also when the store has no
    row for the task, which it would leave as it is. *)
Lemma pause_task_schedule_found task_id w j :
  inr (job_id_of task_id) ∈ dom (task_jobs (monitor w)) →
  scheduler (monitor w) !! job_id_of task_id = Some j →
  get_task (db w) task_id = None →
  pause_task_schedule task_id w
  = (set_monitor
       (mkMonitor (task_jobs (monitor w))
          (<[job_id_of task_id := mkJob (args j) (seconds j) true]>
             (scheduler (monitor w))))
       w,
     true).
Proof.
  intros Hin Hjob Hnone. unfold pause_task_schedule, pause_job, set_paused.
  rewrite bool_decide_eq_true_2 by exact Hin. rewrite Hjob.
  cbn [db set_monitor]. by rewrite Hnone.
Qed.

Lemma resume_task_schedule_found task_id w j :
  inr (job_id_of task_id) ∈ dom (task_jobs (monitor w)) →
  scheduler (monitor w) !! job_id_of task_id = Some j →
  get_task (db w) task_id = None →
  resume_task_schedule task_id w
  = (set_monitor
       (mkMonitor (task_jobs (monitor w))
          (<[job_id_of task_id := mkJob (args j) (seconds j) false]>
             (scheduler (monitor w))))
       w,
     true).
Proof.
  intros Hin Hjob Hnone. unfold resume_task_schedule, resume_job, set_paused.
  rewrite bool_decide_eq_true_2 by exact Hin. rewrite Hjob.
  cbn [db set_monitor]. by rewrite Hnone.
Qed.

(** * Further properties of the code *)

(** ** More paths of one call *)

Lemma step_entry_not_note clk tid w t :
  at_pc t = Entry → Feed.modelType (feed t) ≠ "note" →
  worker_step clk tid w t = Some (w, goto (Return NotNoteType) t).
Proof.
  intros Hpc Htype. unfold worker_step. rewrite Hpc.
  apply String.eqb_neq in Htype. by rewrite Htype.
Qed.

Lemma step_entry_incomplete clk tid w t :
  at_pc t = Entry → Feed.modelType (feed t) = "note" →
  Feed.id (feed t) = "" ∨ Feed.noteCard (feed t) = [] →
  worker_step clk tid w t = Some (w, goto (Return IncompleteData) t).
Proof.
  intros Hpc Htype Hmiss. unfold worker_step. rewrite Hpc, Htype.
  cbn [String.eqb Ascii.eqb Bool.eqb negb].
  destruct Hmiss as [-> | ->].
  - reflexivity.
  - rewrite bool_decide_eq_true_2 by done. by rewrite orb_true_r.
Qed.

Lemma step_add_ticket_raises clk tid w t info e :
  at_pc t = AddTicket info → build_ticket (Feed.id (feed t)) info = Raise e →
  worker_step clk tid w t = Some (leave_block w, goto (Except e) t).
Proof. intros Hpc Hbuild. unfold worker_step. by rewrite Hpc, Hbuild. Qed.

Lemma step_except clk tid w t e :
  at_pc t = Except e →
  worker_step clk tid w t = Some (w, goto (Return (Failed (str e))) t).
Proof. intros Hpc. unfold worker_step. by rewrite Hpc. Qed.

Lemma step_query_ticket_found clk tid w t info k :
  at_pc t = QueryTicket info → first_ticket_of (db w) (Feed.id (feed t)) = Some k →
  worker_step clk tid w t
  = Some (leave_block w, goto (Return (TicketExists (Feed.id (feed t)))) t).
Proof. intros Hpc Hk. unfold worker_step. by rewrite Hpc, Hk. Qed.

Lemma call_frees_lock clk classifier post workflow_execution_id w :
  db_lock w = None →
  db_lock (process_single_feed clk classifier post workflow_execution_id w).1 = None.
Proof.
  intros Hfree. unfold process_single_feed.
  apply run_worker_returns; [left; by split | cbn; lia].
Qed.

Lemma first_ticket_of_added db db' row note_id :
  tickets db' = tickets db ++ [row] → Ticket.note_id row = Some note_id →
  is_Some (first_ticket_of db' note_id).
Proof.
  intros Hrows Hrow. unfold first_ticket_of. apply find_is_Some.
  exists row. split; [rewrite Hrows; set_solver |].
  by apply bool_decide_eq_true_2.
Qed.

(** A post for which the store holds a ticket but no note: the classifier is
    called, the ticket is found inside the second block and the call answers
    [ticket_exists]; nothing is written. *)
Lemma process_single_feed_ticket_exists clk classifier post workflow_execution_id w k :
  Feed.modelType post = "note" → Feed.id post ≠ "" → Feed.noteCard post ≠ [] →
  get_note (db w) (Feed.id post) = None → db_lock w = None →
  first_ticket_of (db w) (Feed.id post) = Some k →
  TicketInfo.is_ticket_resale
    (analyze_ticket_content classifier (displayTitle post)) = true →
  let r := process_single_feed clk classifier post workflow_execution_id w in
  outcome_of r.2 = Some (TicketExists (Feed.id post))
  ∧ notes (db r.1) = notes (db w)
  ∧ tickets (db r.1) = tickets (db w)
  ∧ calls r.1 = calls w ++ [CallAnalyze (displayTitle post)].
Proof.
  intros Htype Hid Hcard Hnew Hfree Hk Hpos. cbn zeta. unfold process_single_feed.
  erewrite run_worker_step by (by apply step_entry).
  erewrite run_worker_step by (by apply step_acquire_note_lock).
  erewrite run_worker_step by (by apply step_get_note_new).
  erewrite run_worker_step by (by apply step_add_note).
  erewrite run_worker_step by (by apply step_analyze).
  cbn [feed api goto at_pc analyses]. rewrite Hpos.
  erewrite run_worker_step by (by apply step_acquire_ticket_lock).
  erewrite run_worker_step by (by eapply step_query_ticket_found).
  erewrite run_worker_returned by reflexivity.
  by repeat split.
Qed.

(** X1: with [db_lock] free, a call of [process_single_feed] always comes
    to its [return] (no path is left waiting or unfinished) and leaves the
    lock free, whatever the post, the store and the classifier's answer. *)
Theorem process_single_feed_returns_and_unlocks clk classifier post
    workflow_execution_id w :
  db_lock w = None →
  (∃ o, outcome_of (process_single_feed clk classifier post
                      workflow_execution_id w).2 = Some o)
  ∧ db_lock (process_single_feed clk classifier post workflow_execution_id w).1
    = None.
Proof.
  intros Hfree. unfold process_single_feed.
  destruct (run_worker_returns 9 clk 0 w (mkWorker post classifier Entry 0))
    as [Hret Hlock].
  - left. by split.
  - cbn. lia.
  - split; [| exact Hlock]. unfold has_returned, outcome_of in *.
    destruct (at_pc _); try discriminate. eauto.
Qed.

Lemma process_single_feed_returns_and_unlocks_witness :
  db_lock sample_world = None
  ∧ db_lock (process_single_feed sample_clock (λ _, Answer resale_info) new_feed 1
               sample_world).1 = None.
Proof.
  split; [reflexivity |].
  exact (proj2 (process_single_feed_returns_and_unlocks sample_clock
                  (λ _, Answer resale_info) new_feed 1 sample_world eq_refl)).
Defined.

(** X2: a well-formed post that is new to the store (no note, no ticket),
    for which the classifier gives a resale verdict whose entries bind and
    whose date is empty or parses: the call stores exactly one ticket for the
    post, whose columns are the entries of the verdict, the parsed date, the
    next key of the table and the time of the commit; it answers success with
    that ticket, calls the classifier once and leaves the notes and the lock
    as they were. *)
Theorem new_resale_post_is_stored_once clk classifier post workflow_execution_id
    w info ticket :
  Feed.modelType post = "note" → Feed.id post ≠ "" → Feed.noteCard post ≠ [] →
  get_note (db w) (Feed.id post) = None → db_lock w = None →
  first_ticket_of (db w) (Feed.id post) = None →
  analyze_ticket_content classifier (displayTitle post) = info →
  TicketInfo.is_ticket_resale info = true →
  TicketInfo.binds info = true →
  build_ticket (Feed.id post) info = Ok ticket →
  let r := process_single_feed clk classifier post workflow_execution_id w in
  outcome_of r.2
  = Some (TicketSaved (snapshot_of ticket (note_url_of (Feed.id post))))
  ∧ tickets (db r.1)
    = tickets (db w)
      ++ [Ticket.mk (next_id (Ticket.id <$> tickets (db w))) (Some (Feed.id post))
            true (TicketInfo.event_name info) (TicketInfo.city info)
            (Ticket.event_date ticket) (TicketInfo.area info)
            (TicketInfo.price info) (TicketInfo.quantity info)
            (TicketInfo.contact info) (TicketInfo.notes info)
            (utc clk (S (S (reads w))))]
  ∧ ((TicketInfo.event_date info = "" ∧ Ticket.event_date ticket = None)
     ∨ (TicketInfo.event_date info ≠ ""
        ∧ ∃ d, strptime_ymd (TicketInfo.event_date info) = Ok d
               ∧ Ticket.event_date ticket = Some d))
  ∧ count_tickets (db r.1) (Feed.id post) = 1%nat
  ∧ calls r.1 = calls w ++ [CallAnalyze (displayTitle post)]
  ∧ notes (db r.1) = notes (db w)
  ∧ db_lock r.1 = None.
Proof.
  intros Htype Hid Hcard Hnew Hfree Hnone Hinfo Hpos Hbinds Hbuild. cbn zeta.
  destruct (process_single_feed_positive clk classifier post workflow_execution_id
              w info ticket Htype Hid Hcard Hnew Hfree Hnone Hinfo Hpos Hbinds Hbuild)
    as (Hout & Hnotes & Hrow & Hcount & Hcalls).
  split; [exact Hout |]. split; [exact Hrow |].
  split; [exact (proj2 (build_ticket_fields _ _ _ Hbuild)) |].
  split; [exact Hcount |]. split; [exact Hcalls |].
  split; [exact Hnotes |]. by apply call_frees_lock.
Qed.

Lemma new_resale_post_is_stored_once_witness :
  get_note (db sample_world) "n3" = None
  ∧ first_ticket_of (db sample_world) "n3" = None
  ∧ tickets (db (process_single_feed sample_clock (λ _, Answer resale_info) new_feed
                   1 sample_world).1)
    = tickets (db sample_world)
      ++ [Ticket.mk 2 (Some "n3") true "周杰伦演唱会" "上海" (Some (Date 2025 10 1))
            "内场" "1200" "2" "vx: abc" "" 1002].
Proof.
  split; [reflexivity |]. split; [reflexivity |].
  refine (proj1 (proj2 (new_resale_post_is_stored_once sample_clock
                   (λ _, Answer resale_info) new_feed 1 sample_world resale_info
                   (Ticket.mk 0 (Some "n3") true "周杰伦演唱会" "上海"
                      (Some (Date 2025 10 1)) "内场" "1200" "2" "vx: abc" "" 0)
                   eq_refl _ _ eq_refl eq_refl eq_refl eq_refl eq_refl eq_refl
                   eq_refl)));
    discriminate.
Defined.

(** X3: a resale verdict whose date text is not empty and does not parse
    as a date makes the call fail for this post only: the exception is caught,
    the answer is the [error] outcome, no ticket is stored and the lock is
    released. *)
Theorem unparsable_date_fails_the_post clk classifier post workflow_execution_id
    w info e :
  Feed.modelType post = "note" → Feed.id post ≠ "" → Feed.noteCard post ≠ [] →
  get_note (db w) (Feed.id post) = None → db_lock w = None →
  first_ticket_of (db w) (Feed.id post) = None →
  analyze_ticket_content classifier (displayTitle post) = info →
  TicketInfo.is_ticket_resale info = true →
  TicketInfo.event_date info ≠ "" →
  strptime_ymd (TicketInfo.event_date info) = Raise e →
  let r := process_single_feed clk classifier post workflow_execution_id w in
  (∃ error, outcome_of r.2 = Some (Failed error))
  ∧ tickets (db r.1) = tickets (db w)
  ∧ notes (db r.1) = notes (db w)
  ∧ calls r.1 = calls w ++ [CallAnalyze (displayTitle post)]
  ∧ db_lock r.1 = None.
Proof.
  intros Htype Hid Hcard Hnew Hfree Hnone Hinfo Hpos Hdate Hparse. cbn zeta.
  assert (Hbuild : build_ticket (Feed.id post) info = Raise e).
  { unfold build_ticket. apply String.eqb_neq in Hdate. by rewrite Hdate, Hparse. }
  split; [exists (str e) |];
    [| split; [| split; [| split]]]; [| | | | by apply call_frees_lock];
    unfold process_single_feed;
    erewrite run_worker_step by (by apply step_entry);
    erewrite run_worker_step by (by apply step_acquire_note_lock);
    erewrite run_worker_step by (by apply step_get_note_new);
    erewrite run_worker_step by (by apply step_add_note);
    erewrite run_worker_step by (by apply step_analyze);
    cbn [feed api goto at_pc analyses]; rewrite Hinfo, Hpos;
    erewrite run_worker_step by (by apply step_acquire_ticket_lock);
    erewrite run_worker_step by (by apply step_query_ticket_none);
    erewrite run_worker_step by (by eapply step_add_ticket_raises);
    erewrite run_worker_step by (by apply step_except);
    reflexivity.
Qed.

Lemma unparsable_date_fails_the_post_witness :
  TicketInfo.event_date vague_info ≠ ""
  ∧ tickets (db (process_single_feed sample_clock (λ _, Answer vague_info) new_feed
                   1 sample_world).1)
    = tickets (db sample_world).
Proof.
  split; [discriminate |].
  refine (proj1 (proj2 (unparsable_date_fails_the_post sample_clock
                   (λ _, Answer vague_info) new_feed 1 sample_world vague_info
                   (does_not_match (TicketInfo.event_date vague_info))
                   eq_refl _ _ eq_refl eq_refl eq_refl eq_refl eq_refl _ eq_refl)));
    discriminate.
Defined.

(** X4: a well-formed post that is new to the store and that the
    classifier does not take for a resale offer (or fails on): the call
    answers success without a ticket after one classifier call, and the
    notes and tickets of the store are what they were: the note that was
    added and flushed in the first block is gone with the session of that
    block, so the store still holds no note for the post. *)
Theorem new_plain_post_leaves_store clk classifier post workflow_execution_id w :
  Feed.modelType post = "note" → Feed.id post ≠ "" → Feed.noteCard post ≠ [] →
  get_note (db w) (Feed.id post) = None → db_lock w = None →
  TicketInfo.is_ticket_resale
    (analyze_ticket_content classifier (displayTitle post)) = false →
  let r := process_single_feed clk classifier post workflow_execution_id w in
  outcome_of r.2 = Some (NoteOnly (Feed.id post))
  ∧ notes (db r.1) = notes (db w)
  ∧ tickets (db r.1) = tickets (db w)
  ∧ get_note (db r.1) (Feed.id post) = None
  ∧ calls r.1 = calls w ++ [CallAnalyze (displayTitle post)]
  ∧ db_lock r.1 = None.
Proof.
  intros Htype Hid Hcard Hnew Hfree Hneg. cbn zeta.
  destruct (process_single_feed_negative clk classifier post workflow_execution_id
              w Htype Hid Hcard Hnew Hfree Hneg)
    as (Hout & Hnotes & Htickets & Hnote & Hcalls).
  repeat (split; [assumption |]). by apply call_frees_lock.
Qed.

Lemma new_plain_post_leaves_store_witness :
  get_note (db sample_world) "n3" = None
  ∧ outcome_of (process_single_feed sample_clock (λ _, NoAnswer) new_feed 1
                  sample_world).2
    = Some (NoteOnly "n3").
Proof.
  split; [reflexivity |].
  refine (proj1 (new_plain_post_leaves_store sample_clock (λ _, NoAnswer) new_feed 1
                   sample_world eq_refl _ _ eq_refl eq_refl eq_refl));
    discriminate.
Defined.

(** X5: a candidate that is not of kind [note], or that lacks its id or
    its note card, is rejected with its reason code before anything happens:
    the lock is not taken, the classifier is not called, the clock is not
    read and the world is exactly what it was. *)
Theorem rejected_post_changes_nothing clk classifier post workflow_execution_id w :
  (Feed.modelType post ≠ "note" →
   process_single_feed clk classifier post workflow_execution_id w
   = (w, mkWorker post classifier (Return NotNoteType) 0))
  ∧ (Feed.modelType post = "note" →
     Feed.id post = "" ∨ Feed.noteCard post = [] →
     process_single_feed clk classifier post workflow_execution_id w
     = (w, mkWorker post classifier (Return IncompleteData) 0)).
Proof.
  split.
  - intros Htype. unfold process_single_feed.
    erewrite run_worker_step by (by apply step_entry_not_note).
    by erewrite run_worker_returned.
  - intros Htype Hmiss. unfold process_single_feed.
    erewrite run_worker_step by (by apply step_entry_incomplete).
    by erewrite run_worker_returned.
Qed.

Lemma rejected_post_changes_nothing_witness :
  Feed.modelType video_feed ≠ "note"
  ∧ process_single_feed sample_clock (λ _, Answer resale_info) video_feed 1
      sample_world
    = (sample_world,
       mkWorker video_feed (λ _, Answer resale_info) (Return NotNoteType) 0).
Proof.
  assert (H : Feed.modelType video_feed ≠ "note") by discriminate.
  split; [exact H |].
  exact (proj1 (rejected_post_changes_nothing sample_clock (λ _, Answer resale_info)
                  video_feed 1 sample_world) H).
Defined.

(** X6: the same resale post seen twice, one call after the other, the
    first verdict with entries that bind and a date that is empty or parses.
    The first call stores the ticket; the second finds no note (none was
    ever committed), so it calls the classifier again, then finds the ticket
    and answers [ticket_exists] without writing: the store keeps exactly one
    ticket for the post. *)
Theorem second_sighting_is_classified_again clk classifier classifier' post
    workflow_execution_id w info ticket :
  Feed.modelType post = "note" → Feed.id post ≠ "" → Feed.noteCard post ≠ [] →
  get_note (db w) (Feed.id post) = None → db_lock w = None →
  first_ticket_of (db w) (Feed.id post) = None →
  analyze_ticket_content classifier (displayTitle post) = info →
  TicketInfo.is_ticket_resale info = true →
  TicketInfo.binds info = true →
  build_ticket (Feed.id post) info = Ok ticket →
  TicketInfo.is_ticket_resale
    (analyze_ticket_content classifier' (displayTitle post)) = true →
  let r1 := process_single_feed clk classifier post workflow_execution_id w in
  let r2 := process_single_feed clk classifier' post workflow_execution_id r1.1 in
  outcome_of r2.2 = Some (TicketExists (Feed.id post))
  ∧ tickets (db r2.1) = tickets (db r1.1)
  ∧ count_tickets (db r2.1) (Feed.id post) = 1%nat
  ∧ calls r2.1
    = calls w ++ [CallAnalyze (displayTitle post); CallAnalyze (displayTitle post)].
Proof.
  intros Htype Hid Hcard Hnew Hfree Hnone Hinfo Hpos Hbinds Hbuild Hpos'. cbn zeta.
  destruct (process_single_feed_positive clk classifier post workflow_execution_id
              w info ticket Htype Hid Hcard Hnew Hfree Hnone Hinfo Hpos Hbinds Hbuild)
    as (_ & Hnotes & Hrows & Hcount & Hcalls1).
  pose proof (call_frees_lock clk classifier post workflow_execution_id w Hfree)
    as Hfree1.
  set (w1 := (process_single_feed clk classifier post workflow_execution_id w).1) in *.
  assert (Hnew1 : get_note (db w1) (Feed.id post) = None)
    by (by rewrite (get_note_rows _ (db w) _ Hnotes)).
  destruct (first_ticket_of_added (db w) (db w1) _ (Feed.id post) Hrows eq_refl)
    as [k Hk].
  destruct (process_single_feed_ticket_exists clk classifier' post
              workflow_execution_id w1 k Htype Hid Hcard Hnew1 Hfree1 Hk Hpos')
    as (Hout & _ & Htickets & Hcalls).
  split; [exact Hout |]. split; [exact Htickets |].
  split; [by rewrite (count_tickets_same (db w1) _ _ Htickets) |].
  rewrite Hcalls, Hcalls1. by rewrite <- app_assoc.
Qed.

Lemma second_sighting_is_classified_again_witness :
  first_ticket_of (db sample_world) "n3" = None
  ∧ outcome_of
      (process_single_feed sample_clock (λ _, Answer resale_info) new_feed 1
         (process_single_feed sample_clock (λ _, Answer resale_info) new_feed 1
            sample_world).1).2
    = Some (TicketExists "n3").
Proof.
  split; [reflexivity |].
  refine (proj1 (second_sighting_is_classified_again sample_clock
                   (λ _, Answer resale_info) (λ _, Answer resale_info) new_feed 1
                   sample_world resale_info
                   (Ticket.mk 0 (Some "n3") true "周杰伦演唱会" "上海"
                      (Some (Date 2025 10 1)) "内场" "1200" "2" "vx: abc" "" 0)
                   eq_refl _ _ eq_refl eq_refl eq_refl eq_refl eq_refl eq_refl
                   eq_refl eq_refl));
    discriminate.
Defined.

(** ** What a pool does to the store *)

(** X7: with the lock free at the start, the pool of a run ends with
    every worker returned and the lock free, whatever the interleaving of its
    five threads: the run is joined, each feed has completed exactly once and
    there is one result per feed. *)
Theorem pool_joins_every_worker clk schedule apis feeds w :
  db_lock w = None →
  let p := run_pool clk schedule apis feeds w in
  (∀ i t, workers p !! i = Some t → has_returned t = true)
  ∧ completed p ≡ₚ seq 0 (length feeds)
  ∧ length (results p) = length feeds
  ∧ db_lock (world p) = None.
Proof.
  intros Hfree p.
  destruct (run_pool_completes clk schedule apis feeds w Hfree)
    as (Hall & _ & Hperm & Hres & Hlock).
  split; [exact Hall |]. split; [exact Hperm |]. split; [exact Hres | exact Hlock].
Qed.

Lemma pool_joins_every_worker_witness :
  db_lock sample_world = None
  ∧ length (results (run_pool sample_clock [1; 0; 1; 1; 0]%nat
                       (λ _ _, Answer resale_info) [new_feed; video_feed]
                       sample_world))
    = 2%nat.
Proof.
  split; [reflexivity |].
  exact (proj1 (proj2 (proj2
           (pool_joins_every_worker sample_clock [1; 0; 1; 1; 0]%nat
              (λ _ _, Answer resale_info) [new_feed; video_feed] sample_world
              eq_refl)))).
Defined.

Lemma worker_step_ticket_ids clk tid w t w' t' :
  worker_step clk tid w t = Some (w', t') →
  NoDup (Ticket.id <$> tickets (db w)) → NoDup (Ticket.id <$> tickets (db w')).
Proof.
  unfold worker_step. intros H Hids.
  destruct (at_pc t) eqn:Hpc; cbn in H; repeat case_match; simplify_eq/=;
    try exact Hids.
  rewrite fmap_app. apply NoDup_app. split; [exact Hids |].
  split; [| apply NoDup_singleton].
  intros x Hx Hx'%list_elem_of_singleton. apply next_id_fresh in Hx.
  cbn in Hx'. lia.
Qed.

Lemma pool_step_ticket_ids clk p i :
  NoDup (Ticket.id <$> tickets (db (world p))) →
  NoDup (Ticket.id <$> tickets (db (world (pool_step clk p i)))).
Proof.
  intros Hids. unfold pool_step. destruct (workers p !! i) as [t |]; [| done].
  destruct (_ && _); [done |].
  destruct (worker_step clk i (world p) t) as [[w' t'] |] eqn:Hstep; [| done].
  cbn. by eapply worker_step_ticket_ids.
Qed.

Lemma pool_steps_ticket_ids clk p l :
  NoDup (Ticket.id <$> tickets (db (world p))) →
  NoDup (Ticket.id <$> tickets (db (world (foldl (pool_step clk) p l)))).
Proof.
  revert p. induction l as [| i l IH]; intros p Hids; [done |].
  cbn. by apply IH, pool_step_ticket_ids.
Qed.

Lemma pool_finish_ticket_ids clk p l :
  NoDup (Ticket.id <$> tickets (db (world p))) →
  NoDup (Ticket.id <$> tickets (db (world (foldl (pool_finish_one clk) p l)))).
Proof.
  revert p. induction l as [| i l IH]; intros p Hids; [done |].
  cbn [foldl]. apply IH. unfold pool_finish_one. generalize 10%nat. intros n.
  induction n as [| n IHn]; [done |]. cbn [Nat.iter]. by apply pool_step_ticket_ids.
Qed.

(** X8: the keys of the tickets stay distinct through a run of the pool:
    every ticket a worker inserts gets a key larger than all the keys in the
    table, under any interleaving. *)
Theorem run_pool_keeps_ticket_keys_distinct clk schedule apis feeds w :
  NoDup (Ticket.id <$> tickets (db w)) →
  NoDup (Ticket.id <$> tickets (db (world (run_pool clk schedule apis feeds w)))).
Proof.
  intros Hids. unfold run_pool.
  apply pool_finish_ticket_ids, pool_steps_ticket_ids. exact Hids.
Qed.

Lemma run_pool_keeps_ticket_keys_distinct_witness :
  NoDup (Ticket.id <$> tickets (db sample_world))
  ∧ NoDup (Ticket.id
             <$> tickets (db (world (run_pool sample_clock [1; 0; 1; 1; 0]%nat
                                       (λ _ _, Answer resale_info)
                                       [new_feed; new_feed] sample_world)))).
Proof.
  assert (H : NoDup (Ticket.id <$> tickets (db sample_world))).
  { vm_compute. apply NoDup_singleton. }
  split; [exact H |].
  exact (run_pool_keeps_ticket_keys_distinct sample_clock [1; 0; 1; 1; 0]%nat
           (λ _ _, Answer resale_info) [new_feed; new_feed] sample_world H).
Defined.

(** X9: a run of the pool only appends tickets and only calls the
    classifier: the tickets that were in the store are still there,
    unchanged and in place, and the notes, the tasks, the event queue and the
    timers are what they were; every request it sends is an analysis. *)
Theorem run_pool_only_adds_tickets clk schedule apis feeds w :
  let w' := world (run_pool clk schedule apis feeds w) in
  (∃ added, tickets (db w') = tickets (db w) ++ added)
  ∧ notes (db w') = notes (db w)
  ∧ workflow_executions (db w') = workflow_executions (db w)
  ∧ event_queue w' = event_queue w
  ∧ monitor w' = monitor w
  ∧ (∃ made, calls w' = calls w ++ made ∧ Forall (λ c, is_analyze c = true) made).
Proof.
  cbn zeta.
  destruct (run_pool_effect clk schedule apis feeds w)
    as [Hnotes Htasks Hqueue Hmonitor Htickets Hcalls].
  split; [exact Htickets |]. split; [exact Hnotes |]. split; [exact Htasks |].
  split; [exact Hqueue |]. split; [exact Hmonitor | exact Hcalls].
Qed.

(** ** The order of delivery *)

Lemma bus_step_order b a delivered_so_far :
  (∀ j s, streams b !! j = Some s → received s `sublist_of` delivered_so_far) →
  ∃ delivered_then,
    delivered_then ++ bus_queue (bus_step b a)
    = delivered_so_far ++ bus_queue b ++ puts [a]
    ∧ ∀ j s, streams (bus_step b a) !! j = Some s →
             received s `sublist_of` delivered_then.
Proof.
  intros Hsub. destruct a as [m | i].
  - exists delivered_so_far. split; [reflexivity | exact Hsub].
  - change (puts [Next i]) with (@nil message). rewrite app_nil_r.
    unfold bus_step. destruct (streams b !! i) as [sent |] eqn:Hi;
      [| by exists delivered_so_far].
    destruct (bus_queue b) as [| m rest] eqn:Hq; cbn [event_stream_next].
    + exists delivered_so_far. split; [reflexivity |].
      intros j s Hj. cbn [streams] in Hj.
      apply list_lookup_insert_Some in Hj as [(-> & <- & _) | (Hne & Hj)];
        [| by eapply Hsub].
      rewrite received_snoc, app_nil_r. by eapply Hsub.
    + exists (delivered_so_far ++ [m]). split; [by rewrite <- app_assoc |].
      intros j s Hj. cbn [streams] in Hj.
      apply list_lookup_insert_Some in Hj as [(-> & <- & _) | (Hne & Hj)].
      * rewrite received_snoc. apply sublist_app; [by eapply Hsub | done].
      * apply sublist_inserts_r. by eapply Hsub.
Qed.

Lemma bus_run_order b actions delivered_so_far :
  (∀ j s, streams b !! j = Some s → received s `sublist_of` delivered_so_far) →
  ∃ delivered_then,
    delivered_then ++ bus_queue (bus_run b actions)
    = delivered_so_far ++ bus_queue b ++ puts actions
    ∧ ∀ j s, streams (bus_run b actions) !! j = Some s →
             received s `sublist_of` delivered_then.
Proof.
  revert b delivered_so_far.
  induction actions as [| a actions IH]; intros b D Hsub.
  - exists D. split; [by rewrite app_nil_r | exact Hsub].
  - change (bus_run b (a :: actions)) with (bus_run (bus_step b a) actions).
    destruct (bus_step_order b a D Hsub) as (D1 & HD1 & Hsub1).
    destruct (IH (bus_step b a) D1 Hsub1) as (D2 & HD2 & Hsub2).
    exists D2. split; [| exact Hsub2].
    rewrite HD2, (puts_cons a actions), !app_assoc. f_equal.
    rewrite <- app_assoc. exact HD1.
Qed.

(** X11: what one subscriber receives, it receives in the order of
    publication: the messages of its stream are a subsequence of the messages
    that waited in the queue followed by those put since, for subscribers
    that start with nothing received. *)
Theorem subscriber_receives_in_publish_order b actions i sent :
  (∀ j s, streams b !! j = Some s → received s = []) →
  streams (bus_run b actions) !! i = Some sent →
  received sent `sublist_of` bus_queue b ++ puts actions.
Proof.
  intros Hempty Hi.
  destruct (bus_run_order b actions []) as (D & HD & Hsub).
  - intros j s Hj. rewrite (Hempty j s Hj). done.
  - cbn [app] in HD. rewrite <- HD.
    apply sublist_inserts_r. by eapply Hsub.
Qed.

Lemma subscriber_receives_in_publish_order_witness :
  (∀ j s, streams (mkBus [] [[]; []]) !! j = Some s → received s = [])
  ∧ received [DataFrame sample_message] `sublist_of` [sample_message].
Proof.
  assert (H : ∀ j s, streams (mkBus [] [[]; []]) !! j = Some s → received s = []).
  { intros [| [| j]] s; cbn; intros Hs; by simplify_eq. }
  split; [exact H |].
  exact (subscriber_receives_in_publish_order (mkBus [] [[]; []])
           [Put sample_message; Next 0%nat; Next 1%nat] 0%nat
           [DataFrame sample_message] H eq_refl).
Defined.

(** ** More on the run that creates a task *)

Lemma report_results_world clk task_id total processed count rs w :
  db (report_results clk task_id total processed count rs w).1 = db w
  ∧ monitor (report_results clk task_id total processed count rs w).1 = monitor w
  ∧ calls (report_results clk task_id total processed count rs w).1 = calls w.
Proof.
  revert processed count w.
  induction rs as [| r rs IH]; intros processed count w; [done |].
  cbn [report_results].
  destruct r; destruct (_ || _);
    (edestruct IH as (H1 & H2 & H3); rewrite H1, H2, H3; done).
Qed.

Lemma report_results_count clk task_id total processed count rs w :
  (report_results clk task_id total processed count rs w).2
  = (count + length (saved_tickets rs))%nat.
Proof.
  revert processed count w.
  induction rs as [| r rs IH]; intros processed count w; [cbn; lia |].
  cbn [report_results].
  destruct r as [| | | | k | |]; destruct (_ || _); rewrite IH;
    try reflexivity;
    change (saved_tickets (TicketSaved k :: rs)) with (k :: saved_tickets rs);
    cbn [length]; lia.
Qed.

Lemma omap_insert_None {A B} (f : A → option B) (l : list A) i x y :
  l !! i = Some x → f x = None → f y = None → omap f (<[i := y]> l) = omap f l.
Proof.
  intros Hi Hx Hy. rewrite insert_take_drop by (by eapply lookup_lt_Some).
  rewrite <- (take_drop_middle l i x Hi) at 3.
  rewrite !omap_app. cbn. by rewrite Hx, Hy.
Qed.

Lemma omap_insert_Some {A B} (f : A → option B) (l : list A) i x y s :
  l !! i = Some x → f x = None → f y = Some s →
  omap f (<[i := y]> l) ≡ₚ omap f l ++ [s].
Proof.
  intros Hi Hx Hy. rewrite insert_take_drop by (by eapply lookup_lt_Some).
  rewrite <- (take_drop_middle l i x Hi) at 3.
  rewrite !omap_app. cbn. rewrite Hx, Hy.
  rewrite <- app_assoc. apply Permutation_app_head.
  change (s :: ?l) with ([s] ++ l). apply Permutation_app_comm.
Qed.

(** A worker that moves had not saved a ticket; it adds no ticket and has
    still saved none, or it adds one ticket and returns its snapshot. *)
Lemma worker_step_saved clk tid w t w' t' :
  worker_step clk tid w t = Some (w', t') →
  saved_by t = None
  ∧ ((tickets (db w') = tickets (db w) ∧ saved_by t' = None)
     ∨ (∃ row, tickets (db w') = tickets (db w) ++ [row]
               ∧ saved_by t' = Some (announcement_of row))).
Proof.
  unfold worker_step, saved_by. intros H.
  destruct (at_pc t) eqn:Hpc; cbn in H; repeat case_match; simplify_eq/=;
    (split; [reflexivity |]); try (left; split; reflexivity).
  right. eexists. split; [reflexivity |].
  unfold announcement_of. cbn [Ticket.note_id].
  erewrite build_ticket_note_id by eassumption. reflexivity.
Qed.

Lemma pool_step_saved clk p i base added :
  tickets (db (world p)) = base ++ added →
  announcement_of <$> added ≡ₚ omap saved_by (workers p) →
  ∃ added', tickets (db (world (pool_step clk p i))) = base ++ added'
            ∧ announcement_of <$> added' ≡ₚ omap saved_by (workers (pool_step clk p i)).
Proof.
  intros Hrows Hsaved. unfold pool_step.
  destruct (workers p !! i) as [t |] eqn:Hi; [| eauto].
  destruct (_ && _); [eauto |].
  destruct (worker_step clk i (world p) t) as [[w' t'] |] eqn:Hstep; [| eauto].
  cbn [world workers].
  destruct (worker_step_saved _ _ _ _ _ _ Hstep)
    as (Hnone & [(Hsame & Hnone') | (row & Hadd & Hsome)]).
  - exists added. split; [congruence |].
    by rewrite (omap_insert_None _ _ _ _ _ Hi Hnone Hnone').
  - exists (added ++ [row]). split; [by rewrite Hadd, Hrows, app_assoc |].
    rewrite (omap_insert_Some _ _ _ _ _ _ Hi Hnone Hsome), fmap_app.
    by apply Permutation_app_tail.
Qed.

Lemma pool_steps_saved clk p l base added :
  tickets (db (world p)) = base ++ added →
  announcement_of <$> added ≡ₚ omap saved_by (workers p) →
  ∃ added', tickets (db (world (foldl (pool_step clk) p l))) = base ++ added'
            ∧ announcement_of <$> added'
              ≡ₚ omap saved_by (workers (foldl (pool_step clk) p l)).
Proof.
  revert p added. induction l as [| i l IH]; intros p added Hrows Hsaved; [eauto |].
  cbn [foldl].
  destruct (pool_step_saved clk p i base added Hrows Hsaved) as (added' & H1 & H2).
  eauto.
Qed.

Lemma pool_finish_one_saved clk p i base added :
  tickets (db (world p)) = base ++ added →
  announcement_of <$> added ≡ₚ omap saved_by (workers p) →
  ∃ added', tickets (db (world (pool_finish_one clk p i))) = base ++ added'
            ∧ announcement_of <$> added'
              ≡ₚ omap saved_by (workers (pool_finish_one clk p i)).
Proof.
  intros Hrows Hsaved. unfold pool_finish_one. generalize 10%nat. intros n.
  induction n as [| n (added' & H1 & H2)]; [eauto |].
  cbn [Nat.iter]. by eapply pool_step_saved.
Qed.

Lemma pool_finish_saved clk p l base added :
  tickets (db (world p)) = base ++ added →
  announcement_of <$> added ≡ₚ omap saved_by (workers p) →
  ∃ added', tickets (db (world (foldl (pool_finish_one clk) p l))) = base ++ added'
            ∧ announcement_of <$> added'
              ≡ₚ omap saved_by (workers (foldl (pool_finish_one clk) p l)).
Proof.
  revert p added. induction l as [| i l IH]; intros p added Hrows Hsaved; [eauto |].
  cbn [foldl].
  destruct (pool_finish_one_saved clk p i base added Hrows Hsaved) as (added' & H1 & H2).
  eauto.
Qed.

Lemma omap_saved_by_new (ws : list Worker) :
  Forall (λ t, at_pc t = Queued) ws → omap saved_by ws = [].
Proof.
  induction 1 as [| t ws Ht _ IH]; [reflexivity |].
  cbn. unfold saved_by at 1. by rewrite Ht.
Qed.

Lemma run_pool_saved clk sched apis feeds w :
  ∃ added, tickets (db (world (run_pool clk sched apis feeds w))) = tickets (db w) ++ added
           ∧ announcement_of <$> added
             ≡ₚ omap saved_by (workers (run_pool clk sched apis feeds w)).
Proof.
  unfold run_pool.
  destruct (pool_steps_saved clk (new_pool apis feeds w) sched (tickets (db w)) [])
    as (added1 & H1 & H2).
  - by rewrite app_nil_r.
  - cbn [new_pool workers]. rewrite omap_saved_by_new; [reflexivity |].
    apply Forall_forall. intros t Ht. apply list_elem_of_lookup in Ht as [i Hi].
    rewrite list_lookup_imap in Hi.
    destruct (feeds !! i); simplify_eq/=. reflexivity.
  - by eapply pool_finish_saved.
Qed.

Lemma omap_seq_shift {B} (g : nat → option B) a n :
  omap g (seq (S a) n) = omap (λ i, g (S i)) (seq a n).
Proof.
  revert a. induction n as [| n IH]; intros a; [reflexivity |].
  cbn. by rewrite IH.
Qed.

Lemma omap_lookup_seq {A B} (f : A → option B) (l : list A) :
  omap (λ i, l !! i ≫= f) (seq 0 (length l)) = omap f l.
Proof.
  induction l as [| x l IH]; [reflexivity |].
  cbn [length seq]. cbn [omap list_omap]. rewrite omap_seq_shift.
  cbn. destruct (f x); [f_equal |]; exact IH.
Qed.

Lemma saved_tickets_outcomes (ws : list Worker) :
  saved_tickets (omap outcome_of ws) = omap saved_by ws.
Proof.
  unfold saved_tickets. induction ws as [| t ws IH]; [reflexivity |].
  cbn. unfold outcome_of at 1, saved_by at 1.
  destruct (at_pc t) as [| | | | | | | | | | | | []]; cbn; by rewrite IH.
Qed.

(** The snapshots among the results of a joined pool are the snapshots of
    the tickets it has added. *)
Lemma run_pool_results_saved clk sched apis feeds w :
  db_lock w = None →
  ∃ added, tickets (db (world (run_pool clk sched apis feeds w))) = tickets (db w) ++ added
           ∧ saved_tickets (results (run_pool clk sched apis feeds w))
             ≡ₚ announcement_of <$> added.
Proof.
  intros Hfree.
  destruct (run_pool_saved clk sched apis feeds w) as (added & Hrows & Hsaved).
  exists added. split; [exact Hrows |].
  destruct (run_pool_completes clk sched apis feeds w Hfree)
    as (_ & Hlen & Hperm & _).
  rewrite Hsaved, <- saved_tickets_outcomes, <- omap_lookup_seq.
  unfold saved_tickets, results. by rewrite Hperm, Hlen.
Qed.

Lemma report_results_queue clk task_id total processed count rs w :
  ∃ later, event_queue (report_results clk task_id total processed count rs w).1
           = event_queue w ++ later
           ∧ announced later = saved_tickets rs.
Proof.
  revert processed count w.
  induction rs as [| r rs IH]; intros processed count w.
  - exists []. by rewrite app_nil_r.
  - cbn [report_results].
    destruct r as [| | | | k | |]; destruct (_ || _);
      edestruct IH as (later & -> & Hlater);
      rewrite ?notify_clients_queue, <- ?app_assoc;
      eexists; (split; [reflexivity |]);
      rewrite ?announced_app, Hlater; reflexivity.
Qed.

Lemma create_task_lock clk keyword optimized_keyword w :
  db_lock (create_task clk keyword optimized_keyword w).1 = db_lock w.
Proof.
  unfold create_task, add_task_schedule. cbn [utcnow fst snd db set_db monitor].
  by destruct (get_task _ _).
Qed.

Lemma create_task_message clk keyword optimized_keyword w :
  ∃ message t,
    event_queue (create_task clk keyword optimized_keyword w).1
    = event_queue w
      ++ [mkMessage "task_update"
            (TaskStatus (create_task clk keyword optimized_keyword w).2
               "running" message) t].
Proof.
  unfold create_task, add_task_schedule. cbn [utcnow fst snd db set_db monitor].
  destruct (get_task _ _); do 2 eexists; reflexivity.
Qed.

(** The last stage of the run that creates a task, from a state with the
    lock free. *)
Lemma search_task_feeds_spec env task_id feeds w :
  db_lock w = None →
  let w' := search_task_feeds env task_id feeds w in
  ∃ added later t,
    tickets (db w') = tickets (db w) ++ added
    ∧ event_queue w'
      = event_queue w ++ later
        ++ [mkMessage "task_update"
              (TaskStatus task_id "completed"
                 ("搜索完成，共处理 " +:+ pretty_nat (length feeds)
                  +:+ " 条数据，发现 " +:+ pretty_nat (length added)
                  +:+ " 条票务信息")) t]
    ∧ announced later ≡ₚ announcement_of <$> added
    ∧ get_task (db w') task_id
      = WorkflowExecution.with_status "completed" <$> get_task (db w) task_id
    ∧ monitor w' = monitor w
    ∧ notes (db w') = notes (db w).
Proof.
  intros Hfree. cbn zeta. unfold search_task_feeds.
  destruct (run_pool_results_saved (clock env) (schedule env) (analysis_api env)
              feeds w Hfree) as (added & Hrows & Hsaved).
  pose proof (run_pool_effect (clock env) (schedule env) (analysis_api env) feeds w)
    as [Hn Ht Hq Hm _ _].
  set (p := run_pool _ _ _ _ _) in *.
  destruct (report_results_queue (clock env) task_id (length feeds) 0 0
              (results p) (world p)) as (later & Hlater & Hann).
  pose proof (report_results_world (clock env) task_id (length feeds) 0 0
                (results p) (world p)) as (Hdb & Hmon & _).
  pose proof (report_results_count (clock env) task_id (length feeds) 0 0
                (results p) (world p)) as Hcount.
  destruct (report_results _ _ _ _ _ _ _) as [w1 ticket_count].
  cbn [fst snd] in *.
  rewrite notify_clients_db, notify_clients_queue, notify_clients_monitor.
  cbn [db set_db event_queue monitor].
  rewrite get_task_update by (by intros []).
  rewrite update_task_notes, update_task_tickets.
  exists added, later. eexists.
  split; [by rewrite Hdb |].
  split.
  { rewrite Hlater, Hq, <- app_assoc. do 4 f_equal.
    rewrite Hcount, Hsaved, length_fmap. reflexivity. }
  split; [by rewrite Hann |].
  split; [by rewrite Hdb, (get_task_rows _ _ _ Ht) |].
  split; [by rewrite Hmon | by rewrite Hdb].
Qed.

(** X13: when the run that creates a task finds posts, every ticket it
    stores is announced by one [ticket_update] event of the run and every
    such event is for a ticket it stored; the last event of the run is the
    completion of the task, and it counts the posts found and the tickets
    stored. *)
Theorem creation_run_announces_what_it_stores env keyword optimized_keyword feeds w :
  db_lock w = None →
  optimize_search_keyword keyword (chat_api env keyword) = Ok optimized_keyword →
  mcp_search env optimized_keyword = Ok feeds →
  feeds ≠ [] →
  let task_id := next_id (WorkflowExecution.id <$> workflow_executions (db w)) in
  let w' := (execute_search_task env keyword w).1 in
  ∃ added published,
    tickets (db w') = tickets (db w) ++ added
    ∧ event_queue w' = event_queue w ++ published
    ∧ announced published ≡ₚ announcement_of <$> added
    ∧ data <$> last published
      = Some (TaskStatus task_id "completed"
                ("搜索完成，共处理 " +:+ pretty_nat (length feeds)
                 +:+ " 条数据，发现 " +:+ pretty_nat (length added)
                 +:+ " 条票务信息")).
Proof.
  intros Hfree Hopt Hfound Hfeeds. cbn zeta. unfold execute_search_task.
  rewrite Hopt.
  set (w0 := record_call (CallOptimize keyword) w).
  destruct (create_task_spec (clock env) keyword optimized_keyword w0)
    as (Hid & _ & _ & _ & _ & _ & Hk).
  destruct (create_task_message (clock env) keyword optimized_keyword w0)
    as (message & t0 & Hq).
  pose proof (create_task_lock (clock env) keyword optimized_keyword w0) as Hlock.
  destruct (create_task _ _ _ w0) as [w1 task_id]. cbn [fst snd] in *.
  rewrite Hfound. destruct feeds as [| post feeds]; [done |].
  set (w2 := record_call (CallSearch optimized_keyword) w1).
  destruct (search_task_feeds_spec env task_id (post :: feeds) w2)
    as (added & later & t & Hrows & Hqueue & Hann & _);
    [subst w2; cbn [db_lock record_call]; by rewrite Hlock |].
  cbn [fst].
  exists added, (mkMessage "task_update" (TaskStatus task_id "running" message) t0
                 :: later ++
                 [mkMessage "task_update"
                    (TaskStatus task_id "completed"
                       ("搜索完成，共处理 " +:+ pretty_nat (length (post :: feeds))
                        +:+ " 条数据，发现 " +:+ pretty_nat (length added)
                        +:+ " 条票务信息")) t]).
  split; [rewrite Hrows; subst w2; cbn [db record_call]; by rewrite Hk |].
  split; [rewrite Hqueue; subst w2; cbn [event_queue record_call];
          rewrite Hq, <- app_assoc; reflexivity |].
  split.
  - change (?m :: ?l ++ ?r) with ([m] ++ l ++ r). rewrite !announced_app.
    cbn. by rewrite app_nil_r.
  - rewrite app_comm_cons, last_snoc. cbn [fmap option_fmap option_map data].
    by rewrite Hid.
Qed.

Lemma creation_run_announces_what_it_stores_witness :
  db_lock sample_world = None
  ∧ mcp_search (sample_env (Ok [new_feed; video_feed]) (Answer resale_info)) "周杰伦"
    = Ok [new_feed; video_feed]
  ∧ ∃ added published,
      tickets (db (execute_search_task
                     (sample_env (Ok [new_feed; video_feed]) (Answer resale_info))
                     "周杰伦" sample_world).1)
      = tickets (db sample_world) ++ added
      ∧ event_queue (execute_search_task
                       (sample_env (Ok [new_feed; video_feed]) (Answer resale_info))
                       "周杰伦" sample_world).1
        = event_queue sample_world ++ published
      ∧ announced published ≡ₚ announcement_of <$> added
      ∧ data <$> last published
        = Some (TaskStatus 2 "completed"
                  ("搜索完成，共处理 " +:+ pretty_nat 2
                   +:+ " 条数据，发现 " +:+ pretty_nat (length added)
                   +:+ " 条票务信息")).
Proof.
  split; [reflexivity |]. split; [reflexivity |].
  exact (creation_run_announces_what_it_stores
           (sample_env (Ok [new_feed; video_feed]) (Answer resale_info))
           "周杰伦" "周杰伦" [new_feed; video_feed] sample_world
           eq_refl eq_refl eq_refl (λ H, eq_ind [new_feed; video_feed]
              (λ l, match l with [] => False | _ => True end) I [] H)).
Defined.

(** ** A created task and its timer *)

Lemma execute_scheduled_task_skips env task_id keyword w task :
  get_task (db w) task_id = Some task →
  WorkflowExecution.status task ≠ "running" →
  execute_scheduled_task env task_id keyword w = w.
Proof.
  intros Htask Hst. unfold execute_scheduled_task. rewrite Htask.
  case_bool_decide as Hin; [| reflexivity]. cbn.
  apply list_elem_of_In in Hin. cbn in Hin.
  destruct Hin as [Hin | [Hin | []]]; [congruence |].
  rewrite <- Hin. reflexivity.
Qed.

Lemma search_task_feeds_task env task_id feeds w :
  let w' := search_task_feeds env task_id feeds w in
  get_task (db w') task_id
  = WorkflowExecution.with_status "completed" <$> get_task (db w) task_id
  ∧ monitor w' = monitor w.
Proof.
  cbn zeta. unfold search_task_feeds.
  pose proof (run_pool_effect (clock env) (schedule env) (analysis_api env) feeds w)
    as [_ Ht _ Hm _ _].
  set (p := run_pool _ _ _ _ _) in *.
  pose proof (report_results_world (clock env) task_id (length feeds) 0 0
                (results p) (world p)) as (Hdb & Hmon & _).
  destruct (report_results _ _ _ _ _ _ _) as [w1 ticket_count].
  cbn [fst snd] in *.
  rewrite notify_clients_db, notify_clients_monitor. cbn [db set_db monitor].
  rewrite get_task_update by (by intros []).
  by rewrite Hdb, (get_task_rows _ _ _ Ht), Hmon, Hm.
Qed.

(** X14: once the run that creates a task has returned, the task is
    [failed] or [completed], never [running], whatever the keyword service,
    the search and the classifier did. Its timer is still registered, not
    paused, for the original keyword every 60 seconds, and the task is still
    marked as scheduled; but each fire of that timer finds the status and
    does nothing at all. *)
Theorem created_task_is_not_run_by_its_timer env env' keyword w :
  let task_id := next_id (WorkflowExecution.id <$> workflow_executions (db w)) in
  let w' := (execute_search_task env keyword w).1 in
  (∃ task, get_task (db w') task_id = Some task
           ∧ (WorkflowExecution.status task = "failed"
              ∨ WorkflowExecution.status task = "completed")
           ∧ WorkflowExecution.is_scheduled task = true)
  ∧ scheduler (monitor w') !! job_id_of task_id
    = Some (mkJob (task_id, keyword) 60 false)
  ∧ execute_scheduled_task env' task_id keyword w' = w'.
Proof.
  cbn zeta.
  assert (H : ∃ task,
            get_task (db (execute_search_task env keyword w).1)
              (next_id (WorkflowExecution.id <$> workflow_executions (db w)))
            = Some task
            ∧ (WorkflowExecution.status task = "failed"
               ∨ WorkflowExecution.status task = "completed")
            ∧ WorkflowExecution.is_scheduled task = true
            ∧ scheduler (monitor (execute_search_task env keyword w).1)
                !! job_id_of (next_id (WorkflowExecution.id
                                         <$> workflow_executions (db w)))
              = Some (mkJob (next_id (WorkflowExecution.id
                                        <$> workflow_executions (db w)), keyword)
                        60 false)).
  { unfold execute_search_task.
    destruct (optimize_search_keyword_total keyword (chat_api env keyword))
      as [optimized_keyword ->].
    set (w0 := record_call (CallOptimize keyword) w).
    destruct (create_task_spec (clock env) keyword optimized_keyword w0)
      as (Hid & (task & Htask & Hst & Hsched & _) & Hjob & _).
    destruct (create_task _ _ _ w0) as [w1 task_id]. cbn [fst snd] in *.
    subst w0. cbn [db record_call] in *. subst task_id.
    set (task_id := next_id _) in *.
    set (w2 := record_call (CallSearch optimized_keyword) w1).
    assert (Htask2 : get_task (db w2) task_id = Some task) by exact Htask.
    assert (Hjob2 : scheduler (monitor w2) !! job_id_of task_id
                    = Some (mkJob (task_id, keyword) 60 false)) by exact Hjob.
    destruct (mcp_search env optimized_keyword) as [[| post feeds] | e]; cbn [fst].
    - destruct (search_task_empty_spec (clock env) task_id w2)
        as (Ht & _ & _ & Hm & _).
      rewrite Ht, Hm, Htask2. eexists. split; [reflexivity |].
      split; [by right |]. split; [exact Hsched | exact Hjob2].
    - destruct (search_task_feeds_task env task_id (post :: feeds) w2) as (Ht & Hm).
      rewrite Ht, Hm, Htask2. eexists. split; [reflexivity |].
      split; [by right |]. split; [exact Hsched | exact Hjob2].
    - destruct (search_task_failed_spec (clock env) task_id e w2)
        as (Ht & _ & _ & Hm & _).
      rewrite Ht, Hm, Htask2. eexists. split; [reflexivity |].
      split; [by left |]. split; [exact Hsched | exact Hjob2]. }
  destruct H as (task & Htask & Hst & Hsched & Hjob).
  split; [eauto |]. split; [exact Hjob |].
  apply (execute_scheduled_task_skips env' _ keyword _ task Htask).
  destruct Hst as [-> | ->]; discriminate.
Qed.

(** ** What a timer fire leaves alone *)

Lemma update_task_kept db task_id f :
  (∀ x, kept_by_timer (f x) = kept_by_timer x) →
  kept_by_timer <$> workflow_executions (update_task db task_id f)
  = kept_by_timer <$> workflow_executions db.
Proof.
  intros Hf. unfold update_task. cbn [workflow_executions].
  rewrite <- list_fmap_compose. apply list_fmap_ext. intros _ x _. cbn.
  destruct (_ =? _); [apply Hf | reflexivity].
Qed.

Lemma scheduled_run_search_kept env task_id keyword run_count w :
  let w' := scheduled_run_search env task_id keyword run_count w in
  kept_by_timer <$> workflow_executions (db w')
  = kept_by_timer <$> workflow_executions (db w)
  ∧ (∃ added, tickets (db w') = tickets (db w) ++ added).
Proof.
  cbn zeta. unfold scheduled_run_search.
  destruct (optimize_search_keyword_total keyword (chat_api env keyword))
    as [optimized_keyword ->].
  destruct (mcp_search env optimized_keyword) as [feeds | e].
  - unfold scheduled_run_feeds.
    set (w1 := notify_clients _ _ _ (record_call _ _)).
    pose proof (run_pool_effect (clock env) (schedule env) (analysis_api env) feeds w1)
      as [_ Ht _ _ Hk _].
    set (p := run_pool _ _ _ _ _) in *.
    rewrite notify_clients_db. cbn [db set_db].
    rewrite update_task_kept by (by intros []).
    rewrite update_task_tickets, Ht. split; [reflexivity | exact Hk].
  - unfold scheduled_task_failed. rewrite notify_clients_db. cbn [db set_db].
    rewrite update_task_kept by (by intros []).
    split; [reflexivity |]. exists []. by rewrite app_nil_r.
Qed.

(** X15: a timer fire changes the status of no task: for every task of
    the store the key, the status, the search terms, the creation time, the
    code and the schedule are what they were, so a timer fire neither
    completes nor fails nor stops a task, whatever the search gives. It
    deletes no ticket and no note and leaves the timers as they are. *)
Theorem timer_fire_keeps_every_status env task_id keyword w :
  let w' := execute_scheduled_task env task_id keyword w in
  kept_by_timer <$> workflow_executions (db w')
  = kept_by_timer <$> workflow_executions (db w)
  ∧ (∃ added, tickets (db w') = tickets (db w) ++ added)
  ∧ notes (db w') = notes (db w)
  ∧ monitor w' = monitor w.
Proof.
  cbn zeta.
  assert (Hsame : ∃ added : list Ticket.t, tickets (db w) = tickets (db w) ++ added)
    by (exists []; by rewrite app_nil_r).
  destruct (get_task (db w) task_id) as [task |] eqn:Htask;
    [| unfold execute_scheduled_task; by rewrite Htask].
  destruct (decide (WorkflowExecution.status task = "running")) as [Hst | Hst];
    [| by rewrite (execute_scheduled_task_skips _ _ _ _ _ Htask Hst)].
  rewrite (execute_scheduled_task_running _ _ _ _ _ Htask Hst).
  destruct (begin_scheduled_run_spec (clock env) task_id task w Htask)
    as (_ & _ & _ & _ & Hm1 & Hn1 & Hk1).
  assert (Hrows1 : kept_by_timer
                     <$> workflow_executions
                           (db (begin_scheduled_run (clock env) task_id task w).1)
                   = kept_by_timer <$> workflow_executions (db w)).
  { unfold begin_scheduled_run. cbn [utcnow fst snd].
    rewrite notify_clients_db. cbn [db set_db].
    apply update_task_kept. by intros []. }
  set (w1 := (begin_scheduled_run _ _ _ _).1) in *.
  destruct (scheduled_run_search_spec env task_id keyword
              (begin_scheduled_run (clock env) task_id task w).2 w1)
    as (_ & _ & _ & Hm2 & Hn2).
  destruct (scheduled_run_search_kept env task_id keyword
              (begin_scheduled_run (clock env) task_id task w).2 w1)
    as (Hrows2 & added & Hk2).
  split; [by rewrite Hrows2, Hrows1 |].
  split; [exists added; by rewrite Hk2, Hk1 |].
  split; [by rewrite Hn2, Hn1 | by rewrite Hm2, Hm1].
Qed.

(** ** The timers under the operations of the process *)

Lemma execute_scheduled_task_monitor env task_id keyword w :
  monitor (execute_scheduled_task env task_id keyword w) = monitor w.
Proof.
  destruct (get_task (db w) task_id) as [task |] eqn:Htask;
    [| unfold execute_scheduled_task; by rewrite Htask].
  destruct (decide (WorkflowExecution.status task = "running")) as [Hst | Hst];
    [| by rewrite (execute_scheduled_task_skips _ _ _ _ _ Htask Hst)].
  rewrite (execute_scheduled_task_running _ _ _ _ _ Htask Hst).
  destruct (begin_scheduled_run_spec (clock env) task_id task w Htask)
    as (_ & _ & _ & _ & Hm1 & _).
  set (w1 := (begin_scheduled_run _ _ _ _).1) in *.
  destruct (scheduled_run_search_spec env task_id keyword
              (begin_scheduled_run (clock env) task_id task w).2 w1)
    as (_ & _ & _ & Hm2 & _).
  by rewrite Hm2, Hm1.
Qed.

Lemma add_task_schedule_monitor clk task_id keyword interval_seconds w :
  int_keyed (monitor w) →
  monitor (add_task_schedule clk task_id keyword interval_seconds w)
  = mkMonitor (<[inl task_id := job_id_of task_id]> (task_jobs (monitor w)))
      (<[job_id_of task_id := mkJob (task_id, keyword) interval_seconds false]>
         (scheduler (monitor w))).
Proof.
  intros Hk. unfold add_task_schedule. rewrite job_id_not_registered by exact Hk.
  by destruct (get_task _ _).
Qed.

Lemma execute_search_task_monitor env keyword w :
  int_keyed (monitor w) →
  let task_id := next_id (WorkflowExecution.id <$> workflow_executions (db w)) in
  monitor (execute_search_task env keyword w).1
  = mkMonitor (<[inl task_id := job_id_of task_id]> (task_jobs (monitor w)))
      (<[job_id_of task_id := mkJob (task_id, keyword) 60 false]>
         (scheduler (monitor w))).
Proof.
  intros Hk. cbn zeta. unfold execute_search_task.
  destruct (optimize_search_keyword_total keyword (chat_api env keyword))
    as [optimized_keyword ->].
  set (w0 := record_call (CallOptimize keyword) w).
  assert (Hmon : monitor (create_task (clock env) keyword optimized_keyword w0).1
                 = mkMonitor
                     (<[inl (next_id (WorkflowExecution.id
                                        <$> workflow_executions (db w)))
                        := job_id_of (next_id (WorkflowExecution.id
                                                 <$> workflow_executions (db w)))]>
                        (task_jobs (monitor w)))
                     (<[job_id_of (next_id (WorkflowExecution.id
                                              <$> workflow_executions (db w)))
                        := mkJob (next_id (WorkflowExecution.id
                                             <$> workflow_executions (db w)),
                                  keyword) 60 false]>
                        (scheduler (monitor w)))).
  { unfold create_task. cbn [utcnow fst snd db].
    rewrite notify_clients_monitor. by rewrite add_task_schedule_monitor. }
  pose proof (create_task_spec (clock env) keyword optimized_keyword w0)
    as (Hid & _).
  destruct (create_task _ _ _ w0) as [w1 task_id]. cbn [fst snd] in *.
  set (w2 := record_call (CallSearch optimized_keyword) w1).
  assert (Hmon2 : monitor w2 = monitor w1) by reflexivity.
  destruct (mcp_search env optimized_keyword) as [[| post feeds] | e]; cbn [fst].
  - destruct (search_task_empty_spec (clock env) task_id w2) as (_ & _ & _ & Hm & _).
    by rewrite Hm, Hmon2, Hmon.
  - destruct (search_task_feeds_task env task_id (post :: feeds) w2) as (_ & Hm).
    by rewrite Hm, Hmon2, Hmon.
  - destruct (search_task_failed_spec (clock env) task_id e w2)
      as (_ & _ & _ & Hm & _).
    by rewrite Hm, Hmon2, Hmon.
Qed.

Lemma stop_task_monitor clk task_id w :
  int_keyed (monitor w) → monitor (stop_task clk task_id w).1 = monitor w.
Proof.
  intros Hk. unfold stop_task. destruct (get_task _ _); [| reflexivity].
  by rewrite remove_task_schedule_not_found.
Qed.

Lemma delete_task_monitor clk task_id w :
  int_keyed (monitor w) → monitor (delete_task clk task_id w).1 = monitor w.
Proof.
  intros Hk. unfold delete_task. rewrite remove_task_schedule_not_found by exact Hk.
  by destruct (get_task _ _).
Qed.

Lemma pause_task_refuses clk task_id w :
  int_keyed (monitor w) → pause_task clk task_id w = (w, (false, 400)).
Proof.
  intros Hk. unfold pause_task. by rewrite pause_task_schedule_not_found.
Qed.

Lemma resume_task_refuses clk task_id w :
  int_keyed (monitor w) → resume_task clk task_id w = (w, (false, 400)).
Proof.
  intros Hk. unfold resume_task. by rewrite resume_task_schedule_not_found.
Qed.

(** What one operation does to the timers of a registry keyed by task ids:
    nothing, or it registers one job, not paused. *)
Lemma perform_monitor env o w :
  int_keyed (monitor w) →
  monitor (perform env o w) = monitor w
  ∨ ∃ task_id keyword,
      monitor (perform env o w)
      = mkMonitor (<[inl task_id := job_id_of task_id]> (task_jobs (monitor w)))
          (<[job_id_of task_id := mkJob (task_id, keyword) 60 false]>
             (scheduler (monitor w))).
Proof.
  intros Hk. destruct o as [keyword | job_id | task_id | task_id | task_id | task_id];
    cbn [perform].
  - right. do 2 eexists. by apply execute_search_task_monitor.
  - left. unfold fire_job. destruct (_ !! _) as [j |]; [| reflexivity].
    destruct (paused j); [reflexivity | apply execute_scheduled_task_monitor].
  - left. by apply stop_task_monitor.
  - left. by rewrite pause_task_refuses.
  - left. by rewrite resume_task_refuses.
  - left. by apply delete_task_monitor.
Qed.

Lemma int_keyed_insert mon task_id jobs :
  int_keyed mon →
  int_keyed (mkMonitor (<[inl task_id := job_id_of task_id]> (task_jobs mon)) jobs).
Proof.
  intros Hk k. cbn. rewrite dom_insert_L. intros [Hin | Hin]%elem_of_union.
  - apply elem_of_singleton in Hin. eauto.
  - apply Hk, Hin.
Qed.

Lemma perform_int_keyed env o w :
  int_keyed (monitor w) → int_keyed (monitor (perform env o w)).
Proof.
  intros Hk. destruct (perform_monitor env o w Hk) as [-> | (task_id & keyword & ->)];
    [exact Hk | by apply int_keyed_insert].
Qed.

Lemma perform_all_int_keyed steps w :
  int_keyed (monitor w) → int_keyed (monitor (perform_all steps w)).
Proof.
  unfold perform_all. revert w.
  induction steps as [| [env o] steps IH]; intros w Hk; [exact Hk |].
  cbn [foldl]. apply IH. by apply perform_int_keyed.
Qed.

(** X16: no operation removes or pauses a timer. Starting from a
    registry keyed by task ids (the empty one is) whose jobs are not paused,
    after any sequence of searches, timer fires, stops, pauses, resumes and
    deletions, run one after the other, every job that was registered is
    still registered and no job is paused: stopping or deleting a task leaves
    its timer firing. *)
Theorem no_operation_removes_a_timer steps w :
  int_keyed (monitor w) →
  (∀ job_id j, scheduler (monitor w) !! job_id = Some j → paused j = false) →
  let w' := perform_all steps w in
  (∀ job_id, is_Some (scheduler (monitor w) !! job_id) →
             is_Some (scheduler (monitor w') !! job_id))
  ∧ (∀ job_id j, scheduler (monitor w') !! job_id = Some j → paused j = false).
Proof.
  cbn zeta. unfold perform_all. revert w.
  induction steps as [| [env o] steps IH]; intros w Hk Hrun; [by split |].
  cbn [foldl fst snd].
  pose proof (perform_int_keyed env o w Hk) as Hk'.
  assert (Hstep : (∀ job_id, is_Some (scheduler (monitor w) !! job_id) →
                             is_Some (scheduler (monitor (perform env o w)) !! job_id))
                  ∧ (∀ job_id j, scheduler (monitor (perform env o w)) !! job_id = Some j
                                 → paused j = false)).
  { destruct (perform_monitor env o w Hk) as [-> | (task_id & keyword & ->)];
      [by split |].
    cbn [scheduler]. split.
    - intros job_id Hjob.
      destruct (decide (job_id = job_id_of task_id)) as [-> | Hne].
      + rewrite lookup_insert_eq. eauto.
      + by rewrite lookup_insert_ne.
    - intros job_id j.
      destruct (decide (job_id = job_id_of task_id)) as [-> | Hne].
      + rewrite lookup_insert_eq. by intros [= <-].
      + rewrite lookup_insert_ne by done. apply Hrun. }
  destruct Hstep as (Hkeep & Hrun').
  destruct (IH (perform env o w) Hk' Hrun') as (Hkeep' & Hrun'').
  split; [| exact Hrun''].
  intros job_id Hjob. apply Hkeep', Hkeep, Hjob.
Qed.

Lemma no_operation_removes_a_timer_witness :
  int_keyed (monitor orphan_timer_world)
  ∧ is_Some (scheduler
               (monitor (perform_all
                           [(sample_env (Ok []) NoAnswer, Stop 5);
                            (sample_env (Ok []) NoAnswer, Delete 5);
                            (sample_env (Ok []) NoAnswer, Pause 5)]
                           orphan_timer_world))
             !! "task_5").
Proof.
  split; [apply int_keyed_add_task_schedule, int_keyed_new |].
  refine (proj1 (no_operation_removes_a_timer
                   [(sample_env (Ok []) NoAnswer, Stop 5);
                    (sample_env (Ok []) NoAnswer, Delete 5);
                    (sample_env (Ok []) NoAnswer, Pause 5)]
                   orphan_timer_world _ _) "task_5" _).
  - apply int_keyed_add_task_schedule, int_keyed_new.
  - intros job_id j. unfold orphan_timer_world.
    rewrite add_task_schedule_monitor by apply int_keyed_new. cbn [scheduler].
    destruct (decide (job_id = job_id_of 5)) as [-> | Hne].
    + rewrite lookup_insert_eq. by intros [= <-].
    + rewrite lookup_insert_ne by done.
      change (scheduler (monitor fresh_world)) with (∅ : gmap string Job).
      by rewrite lookup_empty.
  - vm_compute. eauto.
Defined.

(** X17: pausing and resuming are always refused. In every state the
    process reaches from a registry keyed by task ids by searches, timer
    fires, stops, pauses, resumes and deletions, the routes that pause and
    resume a task answer 400 whatever the task, change nothing and publish
    nothing. *)
Theorem pause_and_resume_are_always_refused steps w clk task_id :
  int_keyed (monitor w) →
  let w' := perform_all steps w in
  pause_task clk task_id w' = (w', (false, 400))
  ∧ resume_task clk task_id w' = (w', (false, 400)).
Proof.
  intros Hk w'. pose proof (perform_all_int_keyed steps w Hk) as Hk'.
  split; [by apply pause_task_refuses | by apply resume_task_refuses].
Qed.

Lemma pause_and_resume_are_always_refused_witness :
  int_keyed (monitor fresh_world)
  ∧ (pause_task sample_clock 1
       (perform_all [(sample_env (Ok []) NoAnswer, Search "周杰伦")] fresh_world)).2
    = (false, 400).
Proof.
  split; [apply int_keyed_new |].
  exact (f_equal snd
           (proj1 (pause_and_resume_are_always_refused
                     [(sample_env (Ok []) NoAnswer, Search "周杰伦")] fresh_world
                     sample_clock 1 int_keyed_new))).
Defined.

(** ** Stopping and deleting a task *)

Lemma execute_scheduled_task_missing env task_id keyword w :
  get_task (db w) task_id = None → execute_scheduled_task env task_id keyword w = w.
Proof. intros Htask. unfold execute_scheduled_task. by rewrite Htask. Qed.

(** X18: stopping a task that exists answers 200, sets the task to
    [stopped], not scheduled, with the message that it was stopped, and
    publishes one [task_update] event saying so; notes and tickets stay. With
    a registry keyed by task ids the timer of the task is not removed, but
    every later fire of it finds the status and does nothing. Stopping a task
    that does not exist, under an id the store can hold, answers 404 and
    changes nothing. *)
Theorem stopped_task_is_not_run_again clk env task_id keyword w :
  int_keyed (monitor w) →
  (∀ task, get_task (db w) task_id = Some task →
     let r := stop_task clk task_id w in
     r.2 = (true, 200)
     ∧ get_task (db r.1) task_id
       = Some (WorkflowExecution.with_message "任务已停止"
                 (WorkflowExecution.with_is_scheduled false
                    (WorkflowExecution.with_status "stopped" task)))
     ∧ event_queue r.1
       = event_queue w
         ++ [mkMessage "task_update" (TaskStatus task_id "stopped" "任务已停止")
               (local clk (reads w))]
     ∧ monitor r.1 = monitor w
     ∧ notes (db r.1) = notes (db w) ∧ tickets (db r.1) = tickets (db w)
     ∧ execute_scheduled_task env task_id keyword r.1 = r.1)
  ∧ (sqlite_integer task_id → get_task (db w) task_id = None →
     stop_task clk task_id w = (w, (false, 404))).
Proof.
  intros Hk. split.
  - intros task Htask. cbn zeta.
    assert (Hrow : get_task (db (stop_task clk task_id w).1) task_id
                   = Some (WorkflowExecution.with_message "任务已停止"
                             (WorkflowExecution.with_is_scheduled false
                                (WorkflowExecution.with_status "stopped" task)))).
    { unfold stop_task. rewrite Htask, remove_task_schedule_not_found by exact Hk.
      cbn [fst]. rewrite notify_clients_db. cbn [db set_db].
      rewrite get_task_update by (by intros []). by rewrite Htask. }
    split; [| split; [exact Hrow | split; [| split; [| split; [| split]]]]].
    + unfold stop_task. rewrite Htask. by rewrite remove_task_schedule_not_found.
    + unfold stop_task. rewrite Htask. by rewrite remove_task_schedule_not_found.
    + by apply stop_task_monitor.
    + unfold stop_task. rewrite Htask. by rewrite remove_task_schedule_not_found.
    + unfold stop_task. rewrite Htask. by rewrite remove_task_schedule_not_found.
    + apply (execute_scheduled_task_skips env task_id keyword _ _ Hrow).
      discriminate.
  - intros _ Htask. unfold stop_task. by rewrite Htask.
Qed.

Lemma stopped_task_is_not_run_again_witness :
  int_keyed (monitor sample_world)
  ∧ get_task (db sample_world) 1 = Some sample_task
  ∧ (stop_task sample_clock 1 sample_world).2 = (true, 200)
  ∧ sqlite_integer 7
  ∧ stop_task sample_clock 7 sample_world = (sample_world, (false, 404)).
Proof.
  assert (Hrange : sqlite_integer 7) by (unfold sqlite_integer; lia).
  split; [apply int_keyed_new |]. split; [reflexivity |].
  split; [| split; [exact Hrange |]].
  - exact (proj1 (proj1 (stopped_task_is_not_run_again sample_clock
                           (sample_env (Ok []) NoAnswer) 1 "周杰伦" sample_world
                           int_keyed_new)
                    sample_task eq_refl)).
  - exact (proj2 (stopped_task_is_not_run_again sample_clock
                    (sample_env (Ok []) NoAnswer) 7 "周杰伦" sample_world
                    int_keyed_new)
             Hrange eq_refl).
Defined.

(** X19: a deleted task stays deleted while its timer stays. After the
    deletion of an existing task, with a registry keyed by task ids: deleting
    or stopping it again answers 404 and changes nothing; its timer is still
    registered as it was, and a fire of it finds no task and does nothing. *)
Theorem deleted_task_stays_deleted clk env task_id keyword w task :
  int_keyed (monitor w) →
  get_task (db w) task_id = Some task →
  let w' := (delete_task clk task_id w).1 in
  delete_task clk task_id w' = (w', (false, 404))
  ∧ stop_task clk task_id w' = (w', (false, 404))
  ∧ monitor w' = monitor w
  ∧ execute_scheduled_task env task_id keyword w' = w'.
Proof.
  intros Hk Htask. cbn zeta.
  pose proof (delete_task_monitor clk task_id w Hk) as Hmon.
  assert (Hgone : get_task (db (delete_task clk task_id w).1) task_id = None).
  { unfold delete_task. rewrite remove_task_schedule_not_found by exact Hk.
    rewrite Htask. cbn [fst]. rewrite notify_clients_db. cbn [db set_db].
    rewrite <- (get_task_id _ _ _ Htask). apply delete_task_rows_task. }
  set (w' := (delete_task clk task_id w).1) in *.
  assert (Hk' : int_keyed (monitor w')) by (by rewrite Hmon).
  split; [| split; [| split; [exact Hmon |]]].
  - unfold delete_task. rewrite remove_task_schedule_not_found by exact Hk'.
    by rewrite Hgone.
  - unfold stop_task. by rewrite Hgone.
  - by apply execute_scheduled_task_missing.
Qed.

Lemma deleted_task_stays_deleted_witness :
  int_keyed (monitor sample_world)
  ∧ get_task (db sample_world) 1 = Some sample_task
  ∧ (delete_task sample_clock 1 (delete_task sample_clock 1 sample_world).1).2
    = (false, 404).
Proof.
  split; [apply int_keyed_new |]. split; [reflexivity |].
  exact (f_equal snd
           (proj1 (deleted_task_stays_deleted sample_clock
                     (sample_env (Ok []) NoAnswer) 1 "周杰伦" sample_world
                     sample_task int_keyed_new eq_refl))).
Defined.

(** ** Registering a timer *)

Lemma add_task_schedule_registry clk task_id keyword interval_seconds w :
  monitor (add_task_schedule clk task_id keyword interval_seconds w)
  = mkMonitor (<[inl task_id := job_id_of task_id]> (task_jobs (monitor w)))
      (<[job_id_of task_id := mkJob (task_id, keyword) interval_seconds false]>
         (scheduler (monitor w))).
Proof.
  unfold add_task_schedule.
  assert (Hjobs : <[job_id_of task_id := mkJob (task_id, keyword) interval_seconds false]>
                    (if bool_decide (inr (job_id_of task_id)
                                       ∈ dom (task_jobs (monitor w)))
                     then match remove_job (job_id_of task_id) (scheduler (monitor w)) with
                          | Ok jobs => jobs
                          | Raise _ => scheduler (monitor w)
                          end
                     else scheduler (monitor w))
                  = <[job_id_of task_id := mkJob (task_id, keyword) interval_seconds false]>
                      (scheduler (monitor w))).
  { case_bool_decide; [| reflexivity]. unfold remove_job.
    destruct (_ !! _); [apply insert_delete_eq | reflexivity]. }
  rewrite Hjobs. by destruct (get_task _ _).
Qed.

Lemma job_id_of_inj : Inj (=) (=) job_id_of.
Proof.
  intros x y H. unfold job_id_of in H.
  apply (inj pretty). by simplify_eq/=.
Qed.

(** X20: registering the timer of a task with a positive interval
    leaves one job for the task, under the id built from the task id, for
    the given keyword and interval and not paused, whatever was registered
    before: a second registration replaces the first (also a paused one) and
    the registry ends as if only the second had been made. The jobs of all
    other tasks stay as they are. *)
Theorem add_task_schedule_replaces clk task_id keyword interval_seconds w :
  0 < interval_seconds →
  let w' := add_task_schedule clk task_id keyword interval_seconds w in
  scheduler (monitor w') !! job_id_of task_id
  = Some (mkJob (task_id, keyword) interval_seconds false)
  ∧ task_jobs (monitor w') !! inl task_id = Some (job_id_of task_id)
  ∧ (∀ other, other ≠ task_id →
       scheduler (monitor w') !! job_id_of other
       = scheduler (monitor w) !! job_id_of other)
  ∧ (∀ keyword0 interval0,
       0 < interval0 →
       monitor (add_task_schedule clk task_id keyword interval_seconds
                  (add_task_schedule clk task_id keyword0 interval0 w))
       = monitor w').
Proof.
  intros _. cbn zeta. rewrite add_task_schedule_registry. cbn [scheduler task_jobs].
  split; [apply lookup_insert_eq |]. split; [apply lookup_insert_eq |].
  split.
  - intros other Hne. apply lookup_insert_ne.
    intros Heq. apply Hne. symmetry. by apply job_id_of_inj.
  - intros keyword0 interval0 _. rewrite !add_task_schedule_registry.
    cbn [scheduler task_jobs]. by rewrite !insert_insert_eq.
Qed.

Lemma add_task_schedule_replaces_witness :
  0 < 60
  ∧ scheduler (monitor (add_task_schedule sample_clock 5 "五月天" 60
                          orphan_timer_world))
    !! job_id_of 5
    = Some (mkJob (5, "五月天") 60 false).
Proof.
  assert (H : 0 < 60) by lia.
  split; [exact H |].
  exact (proj1 (add_task_schedule_replaces sample_clock 5 "五月天" 60
                  orphan_timer_world H)).
Defined.

(** ** Starting the monitor *)

Lemma add_task_schedule_kept clk task_id keyword interval_seconds w :
  kept_by_timer
    <$> workflow_executions (db (add_task_schedule clk task_id keyword
                                   interval_seconds w))
  = kept_by_timer <$> workflow_executions (db w).
Proof.
  unfold add_task_schedule. cbn [db set_monitor].
  destruct (get_task _ _); [| reflexivity].
  cbn [utcnow db set_db]. apply update_task_kept. by intros [].
Qed.

Lemma restore_fold clk (l : list WorkflowExecution.t) w :
  let w' := foldl (λ w task,
                     add_task_schedule clk (WorkflowExecution.id task)
                       (WorkflowExecution.msg task)
                       (WorkflowExecution.schedule_interval task) w) w l in
  NoDup (WorkflowExecution.id <$> l) →
  (∀ task, task ∈ l →
     scheduler (monitor w') !! job_id_of (WorkflowExecution.id task)
     = Some (mkJob (WorkflowExecution.id task, WorkflowExecution.msg task)
               (WorkflowExecution.schedule_interval task) false))
  ∧ (∀ task_id, task_id ∉ WorkflowExecution.id <$> l →
       scheduler (monitor w') !! job_id_of task_id
       = scheduler (monitor w) !! job_id_of task_id)
  ∧ kept_by_timer <$> workflow_executions (db w')
    = kept_by_timer <$> workflow_executions (db w).
Proof.
  cbn zeta. revert w. induction l as [| x l IH]; intros w Hids.
  - split; [by intros task ?%elem_of_nil |]. by split.
  - cbn [foldl]. rewrite fmap_cons in Hids. apply NoDup_cons in Hids as [Hx Hids].
    set (w1 := add_task_schedule clk _ _ _ w).
    destruct (IH w1 Hids) as (Hin & Hout & Hkept).
    assert (Hw1 : ∀ task_id,
              scheduler (monitor w1) !! job_id_of task_id
              = if decide (task_id = WorkflowExecution.id x)
                then Some (mkJob (WorkflowExecution.id x, WorkflowExecution.msg x)
                             (WorkflowExecution.schedule_interval x) false)
                else scheduler (monitor w) !! job_id_of task_id).
    { intros task_id. subst w1. rewrite add_task_schedule_registry. cbn [scheduler].
      destruct (decide _) as [-> | Hne]; [apply lookup_insert_eq |].
      apply lookup_insert_ne. intros Heq. apply Hne. symmetry.
      by apply job_id_of_inj. }
    split; [| split].
    + intros task [-> | Hl]%elem_of_cons; [| by apply Hin].
      rewrite Hout by exact Hx. rewrite Hw1. by rewrite decide_True.
    + intros task_id Hnot. rewrite fmap_cons in Hnot.
      apply not_elem_of_cons in Hnot as [Hne Hnot].
      rewrite Hout by exact Hnot. rewrite Hw1. by rewrite decide_False.
    + rewrite Hkept. subst w1. apply add_task_schedule_kept.
Qed.

(** X21: starting the monitor when it was not running registers, for
    every task that is scheduled and [running], a timer with the interval of
    the task and with the search terms of the task (its [msg]) as the
    keyword; the timers of all other task ids are left as they are, no task
    changes its status, and the monitor is running afterwards. Starting a
    monitor that is running does nothing. The keys of the tasks are
    distinct. *)
Theorem start_restores_running_tasks clk w :
  NoDup (WorkflowExecution.id <$> workflow_executions (db w)) →
  let w' := (start clk false w).2 in
  (start clk false w).1 = true
  ∧ (∀ task, task ∈ workflow_executions (db w) →
       WorkflowExecution.is_scheduled task = true →
       WorkflowExecution.status task = "running" →
       scheduler (monitor w') !! job_id_of (WorkflowExecution.id task)
       = Some (mkJob (WorkflowExecution.id task, WorkflowExecution.msg task)
                 (WorkflowExecution.schedule_interval task) false))
  ∧ (∀ task_id,
       (∀ task, task ∈ workflow_executions (db w) →
          WorkflowExecution.id task = task_id →
          ¬ (WorkflowExecution.is_scheduled task = true
             ∧ WorkflowExecution.status task = "running")) →
       scheduler (monitor w') !! job_id_of task_id
       = scheduler (monitor w) !! job_id_of task_id)
  ∧ kept_by_timer <$> workflow_executions (db w')
    = kept_by_timer <$> workflow_executions (db w)
  ∧ start clk true w = (true, w).
Proof.
  intros Hids. cbn zeta. unfold start. cbn [negb fst snd].
  set (active_tasks := filter _ (workflow_executions (db w))).
  assert (Hactive : NoDup (WorkflowExecution.id <$> active_tasks)).
  { eapply sublist_NoDup; [exact Hids |].
    apply fmap_sublist. subst active_tasks. apply sublist_filter. }
  destruct (restore_fold clk active_tasks w Hactive) as (Hin & Hout & Hkept).
  split; [reflexivity |]. split; [| split; [| split; [exact Hkept | reflexivity]]].
  - intros task Htask Hsched Hst. apply Hin.
    subst active_tasks. apply list_elem_of_filter. by split.
  - intros task_id Hnone. apply Hout.
    intros (task & -> & [Hact Htask]%list_elem_of_filter)%list_elem_of_fmap.
    by apply (Hnone task).
Qed.

Lemma start_restores_running_tasks_witness :
  NoDup (WorkflowExecution.id <$> workflow_executions (db sample_world))
  ∧ scheduler (monitor (start sample_clock false sample_world).2) !! job_id_of 1
    = Some (mkJob (1, "周杰伦") 60 false).
Proof.
  assert (H : NoDup (WorkflowExecution.id <$> workflow_executions (db sample_world))).
  { vm_compute. apply NoDup_singleton. }
  split; [exact H |].
  refine (proj1 (proj2 (start_restores_running_tasks sample_clock sample_world H))
            sample_task _ eq_refl eq_refl).
  vm_compute. by left.
Defined.

(** ** The answer of the classifier *)

Lemma py_find_range c s : py_find c s = -1 ∨ 0 ≤ py_find c s.
Proof.
  induction s as [| a s IH]; cbn [py_find]; [by left |].
  destruct (Ascii.eqb a c); [right; lia |].
  destruct (Z.ltb_spec (py_find c s) 0); [by left | right; lia].
Qed.

Lemma py_rfind_range c s : py_rfind c s = -1 ∨ 0 ≤ py_rfind c s.
Proof.
  induction s as [| a s IH]; cbn [py_rfind]; [by left |].
  destruct (Z.leb_spec 0 (py_rfind c s)); [right; lia |].
  destruct (Ascii.eqb a c); [right; lia | by left].
Qed.

Ltac string_append :=
  repeat first
    [ progress change (String.append EmptyString ?s) with s
    | progress change (String.append (String ?a ?p) ?s)
        with (String a (String.append p s)) ].

Lemma py_find_app c prefix rest :
  py_find c prefix = -1 →
  py_find c (prefix +:+ String c rest) = Z.of_nat (String.length prefix).
Proof.
  induction prefix as [| a prefix IH]; string_append;
    cbn [py_find String.length].
  - intros _. by rewrite Ascii.eqb_refl.
  - destruct (Ascii.eqb a c); [discriminate |].
    destruct (Z.ltb_spec (py_find c prefix) 0) as [Hlt | Hge]; [| lia].
    intros _. rewrite IH by (destruct (py_find_range c prefix); lia).
    destruct (Z.ltb_spec (Z.of_nat (String.length prefix)) 0); lia.
Qed.

Lemma py_rfind_app c prefix suffix :
  py_rfind c suffix = -1 →
  py_rfind c (prefix +:+ String c suffix) = Z.of_nat (String.length prefix).
Proof.
  intros Hs. induction prefix as [| a prefix IH]; string_append;
    cbn [py_rfind String.length].
  - rewrite Hs. cbn. by rewrite Ascii.eqb_refl.
  - rewrite IH. destruct (Z.leb_spec 0 (Z.of_nat (String.length prefix))); lia.
Qed.

Lemma substring_app_middle prefix middle suffix :
  String.substring (String.length prefix) (String.length middle)
    (prefix +:+ middle +:+ suffix)
  = middle.
Proof.
  induction prefix as [| a prefix IH]; string_append;
    cbn [String.length String.substring].
  - induction middle as [| b middle IHm]; string_append;
      cbn [String.length String.substring].
    + by destruct suffix.
    + by rewrite IHm.
  - exact IH.
Qed.

Lemma string_length_app (s1 s2 : string) :
  String.length (s1 +:+ s2) = (String.length s1 + String.length s2)%nat.
Proof.
  induction s1 as [| a s1 IH]; string_append; cbn [String.length]; [done |].
  by rewrite IH.
Qed.

Lemma string_app_assoc (s1 s2 s3 : string) :
  (s1 +:+ s2) +:+ s3 = s1 +:+ (s2 +:+ s3).
Proof.
  induction s1 as [| a s1 IH]; string_append; [done | by rewrite IH].
Qed.

(** X22: only the text from the first opening brace to the last closing
    brace of the classifier's answer is parsed: whatever comes before the
    first [{] and after the last [}] (a code fence, an explanation) is
    ignored, and the result is the parsed object, or the negative verdict
    when that text is not JSON. *)
Theorem ticket_json_ignores_surrounding_text loads prefix middle suffix :
  py_find "{" prefix = -1 →
  py_rfind "}" suffix = -1 →
  ticket_json loads (prefix +:+ "{" +:+ middle +:+ "}" +:+ suffix)
  = match loads ("{" +:+ middle +:+ "}") with
    | Ok info => info
    | Raise _ => not_resale_json
    end.
Proof.
  intros Hprefix Hsuffix. unfold ticket_json.
  assert (Hstart : py_find "{" (prefix +:+ "{" +:+ middle +:+ "}" +:+ suffix)
                   = Z.of_nat (String.length prefix)).
  { string_append. by apply py_find_app. }
  assert (Hend : py_rfind "}" (prefix +:+ "{" +:+ middle +:+ "}" +:+ suffix)
                 = Z.of_nat (String.length prefix + String.length ("{" +:+ middle))).
  { rewrite <- (string_app_assoc "{" middle), <- string_app_assoc.
    string_append. rewrite py_rfind_app by exact Hsuffix.
    by rewrite string_length_app. }
  rewrite Hstart, Hend.
  destruct (Z.leb_spec 0 (Z.of_nat (String.length prefix))); [| lia].
  destruct (Z.ltb_spec (Z.of_nat (String.length prefix))
              (Z.of_nat (String.length prefix + String.length ("{" +:+ middle)) + 1));
    [| lia].
  cbn [andb]. unfold py_slice.
  replace (Z.to_nat (Z.of_nat (String.length prefix))) with (String.length prefix)
    by lia.
  replace (Z.to_nat (Z.of_nat (String.length prefix + String.length ("{" +:+ middle))
                     + 1 - Z.of_nat (String.length prefix)))
    with (String.length ("{" +:+ middle +:+ "}")).
  - assert (Hshape : prefix +:+ "{" +:+ middle +:+ "}" +:+ suffix
                     = prefix +:+ ("{" +:+ middle +:+ "}") +:+ suffix)
      by (by rewrite !string_app_assoc).
    by rewrite Hshape, substring_app_middle.
  - rewrite <- (string_app_assoc "{" middle), !string_length_app.
    cbn [String.length]. lia.
Qed.

Lemma ticket_json_ignores_surrounding_text_witness :
  py_find "{" "```json
" = -1
  ∧ py_rfind "}" "
```" = -1
  ∧ ticket_json (λ _, Ok (JObj [("is_ticket_resale", JBool true)]))
      ("```json
" +:+ "{" +:+ " " +:+ "}" +:+ "
```")
    = JObj [("is_ticket_resale", JBool true)].
Proof.
  split; [reflexivity |]. split; [reflexivity |].
  exact (ticket_json_ignores_surrounding_text
           (λ _, Ok (JObj [("is_ticket_resale", JBool true)]))
           "```json
" " " "
```" eq_refl eq_refl).
Defined.

Lemma read_events_readable loads full_text events :
  read_events loads full_text (filter (λ d, readable loads d = true) events)
  = read_events loads full_text events.
Proof.
  revert full_text. induction events as [| data events IH]; intros full_text;
    [reflexivity |].
  rewrite filter_cons. destruct (decide (readable loads data = true)) as [Hr | Hr].
  - cbn [read_events]. destruct (add_event loads full_text data); cbn; [apply IH | done].
  - cbn [read_events]. rewrite IH.
    assert (Hskip : add_event loads full_text data = Ok full_text).
    { unfold add_event, readable in *.
      destruct (String.eqb data ""); [reflexivity |].
      destruct (loads data); [by cbn in Hr | reflexivity]. }
    by rewrite Hskip.
Qed.

(** X23: events of the stream without data, and events whose data is not
    JSON (the end marker of the stream is one), are skipped: the verdict is
    the one the remaining events give, in their order. *)
Theorem unreadable_events_are_skipped loads status_code text events broken :
  analyze_ticket_stream loads (StreamResponse status_code text events broken)
  = analyze_ticket_stream loads
      (StreamResponse status_code text
         (filter (λ d, readable loads d = true) events) broken).
Proof.
  unfold analyze_ticket_stream. by rewrite read_events_readable.
Qed.

Lemma read_events_raises loads full_text events data event_data e :
  data ∈ events → data ≠ "" → loads data = Ok event_data →
  delta_of event_data = Raise e →
  ∃ e', read_events loads full_text events = Raise e'.
Proof.
  intros Hin Hdata Hloads Hdelta. revert full_text.
  induction events as [| d events IH]; intros full_text;
    [by apply elem_of_nil in Hin |].
  cbn [read_events]. apply elem_of_cons in Hin as [<- | Hin].
  - unfold add_event. rewrite (proj2 (String.eqb_neq data "") Hdata).
    rewrite Hloads, Hdelta. cbn. eauto.
  - destruct (add_event loads full_text d); cbn; [by apply IH | eauto].
Qed.

(** X24: one event that cannot be read for its delta discards the whole
    answer. If the stream holds an event whose data is JSON but is no object,
    or whose [choices] is an empty list or is no list of objects, the verdict
    is negative, whatever the other events of the stream say. *)
Theorem event_without_delta_discards_answer loads text events broken data
    event_data e :
  data ∈ events → data ≠ "" → loads data = Ok event_data →
  delta_of event_data = Raise e →
  analyze_ticket_stream loads (StreamResponse 200 text events broken)
  = not_resale_json.
Proof.
  intros Hin Hdata Hloads Hdelta. unfold analyze_ticket_stream. cbn [Z.eqb negb].
  destruct (read_events_raises loads "" events data event_data e
              Hin Hdata Hloads Hdelta) as [e' ->].
  reflexivity.
Qed.

Lemma event_without_delta_discards_answer_witness :
  "[]" ∈ ["{}"; "[]"]
  ∧ sample_loads "[]" = Ok (JArr [])
  ∧ analyze_ticket_stream sample_loads (StreamResponse 200 "" ["{}"; "[]"] None)
    = not_resale_json.
Proof.
  assert (Hin : "[]" ∈ ["{}"; "[]"]) by (right; left).
  split; [exact Hin |]. split; [reflexivity |].
  refine (event_without_delta_discards_answer sample_loads "" ["{}"; "[]"] None
            "[]" (JArr []) (Exn "AttributeError" "object has no attribute 'get'")
            Hin _ eq_refl eq_refl).
  discriminate.
Defined.

(** ** The keyword that is searched *)

(** X25: the keyword [optimize_search_keyword] gives is the original
    one, or it is the content of a 200 answer with its surrounding whitespace
    removed, and then it is not empty: an empty or blank answer never
    replaces the keyword. *)
Theorem optimized_keyword_is_original_or_content original_keyword post :
  optimize_search_keyword original_keyword post = Ok original_keyword
  ∨ ∃ text j content,
      post = HttpResponse 200 text (Some j)
      ∧ message_content j = Ok (JStr content)
      ∧ py_strip content ≠ ""
      ∧ optimize_search_keyword original_keyword post = Ok (py_strip content).
Proof.
  unfold optimize_search_keyword, optimize_search_keyword_body.
  destruct post as [e | status_code text body]; [by left |].
  destruct (Z.eqb_spec status_code 200) as [-> | Hst]; cbn [negb]; [| by left].
  destruct body as [j |]; cbn; [| by left].
  destruct (message_content j) as [v | e] eqn:Hc; cbn; [| by left].
  destruct v as [| b | n | content | l | kv]; cbn; try by left.
  destruct (String.eqb_spec (py_strip content) "") as [Hs | Hs]; [by left |].
  right. exists text, j, content. by rewrite Hc.
Qed.

(** ** What a timer fire reports *)

Lemma count_saved_tickets rs :
  length (filter (λ r, success r && is_ticket r = true) rs)
  = length (saved_tickets rs).
Proof.
  unfold saved_tickets. induction rs as [| r rs IH]; [reflexivity |].
  rewrite filter_cons. destruct r; cbn; rewrite <- IH; reflexivity.
Qed.

Lemma scheduled_run_feeds_count env task_id run_count feeds w :
  db_lock w = None →
  let w' := scheduled_run_feeds env task_id run_count feeds w in
  ∃ added,
    tickets (db w') = tickets (db w) ++ added
    ∧ get_task (db w') task_id
      = WorkflowExecution.with_message
          ("第 " +:+ pretty run_count +:+ " 次执行完成，发现 "
           +:+ pretty_nat (length added) +:+ " 条新票务")
        <$> get_task (db w) task_id
    ∧ data <$> last (event_queue w')
      = Some (TaskStatus task_id "running"
                ("第 " +:+ pretty run_count +:+ " 次执行完成，发现 "
                 +:+ pretty_nat (length added) +:+ " 条新票务")).
Proof.
  intros Hfree. cbn zeta. unfold scheduled_run_feeds.
  set (w1 := notify_clients _ _ _ w).
  assert (Hfree1 : db_lock w1 = None) by exact Hfree.
  destruct (run_pool_results_saved (clock env) (schedule env) (analysis_api env)
              feeds w1 Hfree1) as (added & Hrows & Hsaved).
  pose proof (run_pool_effect (clock env) (schedule env) (analysis_api env) feeds w1)
    as [_ Ht _ _ _ _].
  set (p := run_pool _ _ _ _ _) in *.
  assert (Hcount : length (filter (λ r, success r && is_ticket r = true) (results p))
                   = length added).
  { by rewrite count_saved_tickets, Hsaved, length_fmap. }
  rewrite Hcount. exists added.
  rewrite notify_clients_db, notify_clients_queue. cbn [db set_db].
  rewrite get_task_update by (by intros []).
  rewrite update_task_tickets, (get_task_rows _ _ _ Ht).
  split; [exact Hrows |]. split; [reflexivity |].
  by rewrite last_snoc.
Qed.

(** X26: a timer fire on a running task whose search succeeds stores
    tickets and reports their number: the message written to the task and
    carried by the last event of the fire says how many tickets the fire
    added to the store, and the task stays [running]. *)
Theorem timer_fire_counts_what_it_stores env task_id keyword w task
    optimized_keyword feeds :
  db_lock w = None →
  get_task (db w) task_id = Some task →
  WorkflowExecution.status task = "running" →
  optimize_search_keyword keyword (chat_api env keyword) = Ok optimized_keyword →
  mcp_search env optimized_keyword = Ok feeds →
  let run_count := default 0 (WorkflowExecution.run_count task) + 1 in
  let w' := execute_scheduled_task env task_id keyword w in
  ∃ added task',
    tickets (db w') = tickets (db w) ++ added
    ∧ get_task (db w') task_id = Some task'
    ∧ WorkflowExecution.status task' = "running"
    ∧ WorkflowExecution.message task'
      = "第 " +:+ pretty run_count +:+ " 次执行完成，发现 "
        +:+ pretty_nat (length added) +:+ " 条新票务"
    ∧ data <$> last (event_queue w')
      = Some (TaskStatus task_id "running" (WorkflowExecution.message task')).
Proof.
  intros Hfree Htask Hst Hopt Hfound. cbn zeta.
  rewrite (execute_scheduled_task_running _ _ _ _ _ Htask Hst).
  destruct (begin_scheduled_run_spec (clock env) task_id task w Htask)
    as (Hrc & Htask1 & _ & _ & _ & _ & Hk1).
  assert (Hfree1 : db_lock (begin_scheduled_run (clock env) task_id task w).1 = None)
    by exact Hfree.
  set (w1 := (begin_scheduled_run _ _ _ _).1) in *.
  rewrite Hrc. unfold scheduled_run_search. rewrite Hopt, Hfound.
  set (w3 := record_call (CallSearch optimized_keyword) _).
  destruct (scheduled_run_feeds_count env task_id
              (default 0 (WorkflowExecution.run_count task) + 1) feeds w3)
    as (added & Hrows & Hrow & Hlast); [exact Hfree1 |].
  exists added. eexists.
  split; [rewrite Hrows; subst w3; cbn [db record_call];
          rewrite notify_clients_db; cbn [db record_call]; by rewrite Hk1 |].
  split.
  { rewrite Hrow. subst w3. cbn [db record_call]. rewrite notify_clients_db.
    cbn [db record_call]. rewrite Htask1. reflexivity. }
  split; [exact Hst |]. split; [reflexivity | exact Hlast].
Qed.

Lemma timer_fire_counts_what_it_stores_witness :
  db_lock sample_world = None
  ∧ get_task (db sample_world) 1 = Some sample_task
  ∧ ∃ added task',
      tickets (db (execute_scheduled_task
                     (sample_env (Ok [new_feed]) (Answer resale_info)) 1 "周杰伦"
                     sample_world))
      = tickets (db sample_world) ++ added
      ∧ get_task (db (execute_scheduled_task
                        (sample_env (Ok [new_feed]) (Answer resale_info)) 1 "周杰伦"
                        sample_world)) 1
        = Some task'
      ∧ WorkflowExecution.status task' = "running"
      ∧ WorkflowExecution.message task'
        = "第 " +:+ pretty (default 0 (WorkflowExecution.run_count sample_task) + 1)
          +:+ " 次执行完成，发现 " +:+ pretty_nat (length added) +:+ " 条新票务"
      ∧ data <$> last (event_queue
                         (execute_scheduled_task
                            (sample_env (Ok [new_feed]) (Answer resale_info)) 1
                            "周杰伦" sample_world))
        = Some (TaskStatus 1 "running" (WorkflowExecution.message task')).
Proof.
  split; [reflexivity |]. split; [reflexivity |].
  exact (timer_fire_counts_what_it_stores
           (sample_env (Ok [new_feed]) (Answer resale_info)) 1 "周杰伦"
           sample_world sample_task "周杰伦" [new_feed]
           eq_refl eq_refl eq_refl eq_refl eq_refl).
Defined.

(** ** Dates that are written and read *)

Lemma digit_char_byte n :
  0 ≤ n ≤ 9 → N_of_ascii (digit_char n) = (48 + Z.to_N n)%N.
Proof. intros Hn. unfold digit_char. apply N_ascii_embedding. lia. Qed.

Lemma decimal_digit_ascii n rest :
  0 ≤ n ≤ 9 → decimal_digit ((48 + Z.to_N n)%N :: rest) = Some (n, rest).
Proof.
  intros Hn. unfold decimal_digit, utf8_head.
  rewrite (proj2 (N.ltb_lt (48 + Z.to_N n) 128)) by lia.
  cbn [mbind option_bind]. unfold decimal_zeros. cbn [find].
  rewrite (proj2 (N.leb_le 48 (48 + Z.to_N n))) by lia.
  rewrite (proj2 (N.ltb_lt (48 + Z.to_N n) (48 + 10))) by lia.
  cbn [andb mbind option_bind]. do 2 f_equal. lia.
Qed.

Lemma Z_range_cases (P : Z → Prop) (lo : Z) (n : nat) :
  (∀ k, (k < n)%nat → P (lo + Z.of_nat k)) → ∀ z, lo ≤ z < lo + Z.of_nat n → P z.
Proof.
  intros H z Hz. replace z with (lo + Z.of_nat (Z.to_nat (z - lo))) by lia.
  apply H. lia.
Qed.

Lemma month_parse m tail :
  1 ≤ m ≤ 12 →
  filter (λ c : Z * list N, head c.2 = Some 45%N)
    (month_alternatives ((48 + Z.to_N (m / 10))%N :: (48 + Z.to_N (m mod 10))%N
                         :: 45%N :: tail))
  = [(m, 45%N :: tail)].
Proof.
  intros Hm. revert tail. pattern m.
  apply (Z_range_cases _ 1 12); [| lia].
  clear m Hm. intros k Hk tail.
  do 12 (destruct k as [| k]; [vm_compute; reflexivity |]). lia.
Qed.

Lemma day_parse d :
  1 ≤ d ≤ 31 →
  ∃ others,
    day_alternatives [(48 + Z.to_N (d / 10))%N; (48 + Z.to_N (d mod 10))%N]
    = (d, []) :: others.
Proof.
  intros Hd. pattern d.
  apply (Z_range_cases _ 1 31); [| lia].
  clear d Hd. intros k Hk.
  do 31 (destruct k as [| k]; [vm_compute; eexists; reflexivity |]). lia.
Qed.

Lemma days_in_month_le y m : days_in_month y m ≤ 31.
Proof. unfold days_in_month. repeat case_match; lia. Qed.

(** X27: a date that [process_single_feed] writes into its answer reads
    back as the same date. For every date of the calendar with a year of
    four digits, the text [strftime('%Y-%m-%d')] gives is accepted by
    [strptime(..., '%Y-%m-%d')] and parses to that date: a verdict that
    carries a date in this form is never the reason for a failed post. *)
Theorem strptime_reads_what_strftime_writes d :
  four_digit_date d → strptime_ymd (strftime_ymd d) = Ok d.
Proof.
  destruct d as [y m dd]. unfold four_digit_date. cbn [year month day].
  intros (Hy & Hm & Hd).
  pose proof (days_in_month_le y m) as Hmax.
  unfold strptime_ymd, strftime_ymd, bytes_of, year_digits. cbn [year month day].
  cbn [String.list_ascii_of_string fmap list_fmap].
  rewrite !digit_char_byte by (Z.div_mod_to_equations; lia).
  change (N_of_ascii "-") with 45%N.
  do 4 (rewrite decimal_digit_ascii by (Z.div_mod_to_equations; lia);
        cbn [mbind option_bind]).
  rewrite month_parse by exact Hm.
  destruct (day_parse dd) as [others ->]; [lia |].
  replace (1000 * (y / 1000) + 100 * (y / 100 mod 10) + 10 * (y / 10 mod 10)
           + y mod 10) with y by (Z.div_mod_to_equations; lia).
  rewrite (proj2 (Z.eqb_neq y 0)) by lia.
  rewrite (proj2 (Z.leb_le dd (days_in_month y m))) by lia.
  reflexivity.
Qed.

Lemma strptime_reads_what_strftime_writes_witness :
  four_digit_date (Date 2025 10 1)
  ∧ strptime_ymd "2025-10-01" = Ok (Date 2025 10 1).
Proof.
  assert (H : four_digit_date (Date 2025 10 1)).
  { unfold four_digit_date. cbn. lia. }
  split; [exact H |].
  exact (strptime_reads_what_strftime_writes (Date 2025 10 1) H).
Defined.

(** * A run of the pool, post by post *)

Lemma eligible_well_formed db f : eligible db f = true → well_formed f = true.
Proof. unfold eligible. by intros [? _]%andb_prop. Qed.

Lemma eligible_no_note db f :
  eligible db f = true → get_note db (Feed.id f) = None.
Proof.
  unfold eligible. intros [_ H]%andb_prop. by destruct (get_note _ _).
Qed.

Lemma eligible_intro db f :
  well_formed f = true → get_note db (Feed.id f) = None → eligible db f = true.
Proof. unfold eligible. by intros -> ->. Qed.

Lemma not_eligible_intro db f n :
  get_note db (Feed.id f) = Some n → eligible db f = false.
Proof. unfold eligible. intros ->. apply andb_false_r. Qed.

Ltac trace_same :=
  split; [reflexivity |];
  split; [left; split; reflexivity | left; reflexivity].

(** One step of a worker that stands as [worker_ok] says, in a world with
    the notes of the start: it still does; it sends a request exactly when it
    calls the classifier for the first time; a ticket it adds is for its
    post, which is eligible. *)
Lemma worker_step_trace clk tid w t w' t' db0 :
  worker_step clk tid w t = Some (w', t') →
  notes (db w) = notes db0 →
  worker_ok db0 t →
  worker_ok db0 t'
  ∧ feed t' = feed t
  ∧ ((calls w' = calls w ∧ analyses t' = analyses t)
     ∨ (calls w' = calls w ++ [CallAnalyze (displayTitle (feed t))]
        ∧ analyses t = 0%nat ∧ analyses t' = 1%nat))
  ∧ (tickets (db w') = tickets (db w)
     ∨ ∃ row, tickets (db w') = tickets (db w) ++ [row]
              ∧ Ticket.note_id row = Some (Feed.id (feed t))
              ∧ eligible db0 (feed t) = true).
Proof.
  intros Hstep Hnotes Hok.
  assert (Hget : ∀ note_id, get_note (db w) note_id = get_note db0 note_id)
    by (intros; by apply get_note_rows).
  unfold worker_ok in *.
  destruct (at_pc t) eqn:Hpc.
  - (* Queued *)
    unfold worker_step in Hstep. rewrite Hpc in Hstep. simplify_eq/=.
    split; [exact Hok | trace_same].
  - (* Entry *)
    unfold worker_step in Hstep. rewrite Hpc in Hstep.
    destruct (String.eqb (Feed.modelType (feed t)) "note") eqn:Htype;
      cbn [negb] in Hstep.
    + destruct (String.eqb (Feed.id (feed t)) "" || bool_decide _) eqn:Hinc;
        simplify_eq/=; (split; [| trace_same]); (split; [exact Hok |]);
        unfold well_formed; by rewrite Htype, Hinc.
    + simplify_eq/=. split; [| trace_same]. split; [exact Hok |].
      unfold well_formed. by rewrite Htype.
  - (* AcquireNoteLock *)
    unfold worker_step in Hstep. rewrite Hpc in Hstep.
    destruct (db_lock w); simplify_eq/=. split; [exact Hok | trace_same].
  - (* GetNote *)
    destruct Hok as [Ha Hwf].
    unfold worker_step, session_get_note in Hstep. rewrite Hpc in Hstep.
    cbn [new_notes new_session find] in Hstep.
    destruct (get_note (db w) (Feed.id (feed t))) as [n |] eqn:Hn; simplify_eq/=.
    + split; [| trace_same]. rewrite Hget in Hn.
      split; [exact Ha |]. split; [exact Hwf |].
      split; [by eapply not_eligible_intro | reflexivity].
    + split; [| trace_same]. split; [exact Ha |].
      apply eligible_intro; [exact Hwf | by rewrite <- Hget].
  - (* AddNote *)
    destruct Hok as [Ha Hel].
    rewrite (step_add_note clk tid w t Hpc) in Hstep
      by (rewrite Hget; by apply eligible_no_note).
    simplify_eq/=. split; [by split | trace_same].
  - (* Analyze *)
    destruct Hok as [Ha Hel].
    unfold worker_step in Hstep. rewrite Hpc in Hstep.
    destruct (TicketInfo.is_ticket_resale _); simplify_eq/=;
      (split; [split; [by rewrite Ha | exact Hel] |]);
      (split; [reflexivity |]);
      (split; [right; split; [reflexivity |]; split; [exact Ha | by rewrite Ha]
              | left; reflexivity]).
  - (* AcquireTicketLock *)
    unfold worker_step in Hstep. rewrite Hpc in Hstep.
    destruct (db_lock w); simplify_eq/=. split; [exact Hok | trace_same].
  - (* QueryTicket *)
    unfold worker_step in Hstep. rewrite Hpc in Hstep.
    destruct (first_ticket_of _ _); simplify_eq/=; (split; [exact Hok | trace_same]).
  - (* AddTicket *)
    destruct Hok as [Ha Hel].
    unfold worker_step in Hstep. rewrite Hpc in Hstep.
    destruct (build_ticket _ _) as [ticket | e] eqn:Hbuild;
      [| simplify_eq/=; split; [by split | trace_same]].
    cbn [utcnow] in Hstep.
    destruct (TicketInfo.binds info); cbn [negb] in Hstep;
      [| simplify_eq/=; split; [by split | trace_same]].
    unfold session_commit, session_add_ticket in Hstep.
    cbn [new_notes new_tickets new_session insert_notes mbind result_bind app db]
      in Hstep.
    simplify_eq/=. split; [by split |]. split; [reflexivity |].
    split; [left; split; reflexivity |].
    right. eexists. split; [reflexivity |].
    split; [cbn; by eapply build_ticket_note_id | exact Hel].
  - (* AcquireCommitLock *)
    unfold worker_step in Hstep. rewrite Hpc in Hstep.
    destruct (db_lock w); simplify_eq/=. split; [exact Hok | trace_same].
  - (* CommitNote *)
    unfold worker_step, session_commit in Hstep. rewrite Hpc in Hstep.
    cbn [utcnow new_notes new_tickets new_session insert_notes insert_tickets
         mbind result_bind db] in Hstep.
    simplify_eq/=. split; [exact Hok | trace_same].
  - (* Except *)
    unfold worker_step in Hstep. rewrite Hpc in Hstep. simplify_eq/=.
    split; [exact Hok | trace_same].
  - (* Return *)
    unfold worker_step in Hstep. rewrite Hpc in Hstep. discriminate.
Qed.

Lemma omap_insert_same {A B} (f : A → option B) (l : list A) i x y :
  l !! i = Some x → f y = f x → omap f (<[i := y]> l) = omap f l.
Proof.
  intros Hi Hf. rewrite insert_take_drop by (by eapply lookup_lt_Some).
  rewrite <- (take_drop_middle l i x Hi) at 3.
  rewrite !omap_app. cbn. by rewrite Hf.
Qed.

Lemma pool_step_trace clk w0 feeds p i :
  pool_trace w0 feeds p → pool_trace w0 feeds (pool_step clk p i).
Proof.
  intros Htrace. unfold pool_step.
  destruct (workers p !! i) as [t |] eqn:Hi; [| exact Htrace].
  destruct (is_queued t && negb (can_start i (workers p))); [exact Htrace |].
  destruct (worker_step clk i (world p) t) as [[w' t'] |] eqn:Hstep; [| exact Htrace].
  destruct Htrace as [Hnotes Hfeeds Hworkers (made & Hcalls & Hmade)
                        (added & Htickets & Hadded)].
  destruct (worker_step_trace _ _ _ _ _ _ (db w0) Hstep Hnotes (Hworkers i t Hi))
    as (Hok' & Hfeed & Hcall & Hticket).
  pose proof (worker_step_effect _ _ _ _ _ _ Hstep) as [Hn _ _ _ _ _].
  assert (Hin : feed t ∈ feeds).
  { rewrite <- Hfeeds. apply list_elem_of_fmap. exists t. split; [done |].
    by eapply list_elem_of_lookup_2. }
  split; cbn [world workers].
  - by rewrite Hn.
  - rewrite list_fmap_insert, Hfeed, list_insert_id; [exact Hfeeds |].
    by rewrite list_lookup_fmap, Hi.
  - intros j t0 Hj. destruct (decide (j = i)) as [-> | Hne].
    + rewrite list_lookup_insert_eq in Hj by (by eapply lookup_lt_Some).
      by simplify_eq.
    + rewrite list_lookup_insert_ne in Hj by done. by eapply Hworkers.
  - destruct Hcall as [(Hsame & Han) | (Hmore & Han & Han')].
    + exists made. split; [by rewrite Hsame |].
      rewrite (omap_insert_same _ _ _ _ _ Hi); [exact Hmade |].
      unfold analysed_call. by rewrite Han, Hfeed.
    + exists (made ++ [CallAnalyze (displayTitle (feed t))]).
      split; [by rewrite Hmore, Hcalls, app_assoc |].
      rewrite (omap_insert_Some analysed_call _ _ _ _
                 (CallAnalyze (displayTitle (feed t))) Hi).
      * by apply Permutation_app_tail.
      * unfold analysed_call. by rewrite Han.
      * unfold analysed_call. by rewrite Han', Hfeed.
  - destruct Hticket as [Hsame | (row & Hmore & Hrow & Hel)].
    + exists added. split; [by rewrite Hsame | exact Hadded].
    + exists (added ++ [row]). split; [by rewrite Hmore, Htickets, app_assoc |].
      apply Forall_app. split; [exact Hadded |].
      apply Forall_singleton. eauto.
Qed.

Lemma omap_analysed_call_new (ws : list Worker) :
  Forall (λ t, analyses t = 0%nat) ws → omap analysed_call ws = [].
Proof.
  induction 1 as [| t ws Ht _ IH]; [reflexivity |].
  cbn. unfold analysed_call at 1. by rewrite Ht.
Qed.

Lemma new_pool_trace apis feeds w : pool_trace w feeds (new_pool apis feeds w).
Proof.
  split; cbn [new_pool world workers].
  - reflexivity.
  - apply list_eq. intros i. rewrite list_lookup_fmap, list_lookup_imap.
    by destruct (feeds !! i).
  - intros i t Hi. rewrite list_lookup_imap in Hi.
    destruct (feeds !! i); simplify_eq/=. reflexivity.
  - exists []. split; [by rewrite app_nil_r |].
    rewrite omap_analysed_call_new; [reflexivity |].
    apply Forall_forall. intros t Ht. apply list_elem_of_lookup in Ht as [i Hi].
    rewrite list_lookup_imap in Hi.
    destruct (feeds !! i); simplify_eq/=. reflexivity.
  - exists []. split; [by rewrite app_nil_r | constructor].
Qed.

Lemma pool_steps_trace clk w0 feeds p l :
  pool_trace w0 feeds p → pool_trace w0 feeds (foldl (pool_step clk) p l).
Proof.
  revert p. induction l as [| i l IH]; intros p Htrace; [exact Htrace |].
  cbn [foldl]. by apply IH, pool_step_trace.
Qed.

Lemma pool_finish_trace clk w0 feeds p l :
  pool_trace w0 feeds p → pool_trace w0 feeds (foldl (pool_finish_one clk) p l).
Proof.
  revert p. induction l as [| i l IH]; intros p Htrace; [exact Htrace |].
  cbn [foldl]. apply IH. unfold pool_finish_one. generalize 10%nat. intros n.
  induction n as [| n IHn]; [exact Htrace |].
  cbn [Nat.iter]. by apply pool_step_trace.
Qed.

Lemma run_pool_trace clk schedule apis feeds w :
  pool_trace w feeds (run_pool clk schedule apis feeds w).
Proof.
  unfold run_pool. apply pool_finish_trace, pool_steps_trace, new_pool_trace.
Qed.

(** The workers of a joined pool: each has the post it was given, has
    returned and stands as [worker_ok] says. *)
Lemma run_pool_workers clk schedule apis feeds w :
  db_lock w = None →
  ∀ i f, feeds !! i = Some f →
         ∃ t, workers (run_pool clk schedule apis feeds w) !! i = Some t
              ∧ feed t = f ∧ has_returned t = true ∧ worker_ok (db w) t.
Proof.
  intros Hfree i f Hf.
  destruct (run_pool_trace clk schedule apis feeds w) as [_ Hfeeds Hworkers _ _].
  destruct (run_pool_completes clk schedule apis feeds w Hfree) as (Hall & _).
  rewrite <- Hfeeds, list_lookup_fmap in Hf.
  destruct (workers (run_pool clk schedule apis feeds w) !! i) as [t |] eqn:Hi;
    [| discriminate].
  cbn in Hf. exists t. split; [reflexivity |]. split; [congruence |]. eauto.
Qed.

Lemma returned_analysed db0 t :
  has_returned t = true → worker_ok db0 t →
  analysed_call t
  = if eligible db0 (feed t) then Some (CallAnalyze (displayTitle (feed t))) else None.
Proof.
  unfold has_returned, worker_ok, analysed_call.
  destruct (at_pc t) as [| | | | | | | | | | | | o]; try discriminate. intros _.
  destruct o.
  - intros [-> Hwf]. unfold eligible. by rewrite Hwf.
  - intros [-> Hwf]. unfold eligible. by rewrite Hwf.
  - intros (-> & _ & -> & _). reflexivity.
  - intros [-> ->]. reflexivity.
  - intros [-> ->]. reflexivity.
  - intros [-> ->]. reflexivity.
  - intros [-> ->]. reflexivity.
Qed.

Lemma omap_eligible db0 (feeds : list Feed.t) :
  omap (λ f, if eligible db0 f then Some (CallAnalyze (displayTitle f)) else None)
    feeds
  = (λ f, CallAnalyze (displayTitle f)) <$> filter (λ f, eligible db0 f = true) feeds.
Proof.
  induction feeds as [| f feeds IH]; [reflexivity |].
  rewrite filter_cons. cbn [omap list_omap]. destruct (eligible db0 f) eqn:He.
  - rewrite decide_True by reflexivity. rewrite fmap_cons. f_equal. exact IH.
  - rewrite decide_False by discriminate. exact IH.
Qed.

Lemma omap_analysed_returned db0 (ws : list Worker) :
  (∀ t, t ∈ ws → has_returned t = true ∧ worker_ok db0 t) →
  omap analysed_call ws
  = omap (λ f, if eligible db0 f then Some (CallAnalyze (displayTitle f)) else None)
      (feed <$> ws).
Proof.
  induction ws as [| t ws IH]; intros Hws; [reflexivity |].
  destruct (Hws t) as [Hret Hok]; [by left |].
  rewrite fmap_cons. cbn [omap list_omap].
  rewrite (returned_analysed _ _ Hret Hok).
  rewrite <- IH by (intros; apply Hws; by right). reflexivity.
Qed.

(** The requests a joined pool has sent: one analysis for every eligible
    post, and nothing else. *)
Lemma run_pool_calls clk schedule apis feeds w :
  db_lock w = None →
  ∃ made, calls (world (run_pool clk schedule apis feeds w)) = calls w ++ made
          ∧ made ≡ₚ (λ f, CallAnalyze (displayTitle f))
                     <$> filter (λ f, eligible (db w) f = true) feeds.
Proof.
  intros Hfree.
  destruct (run_pool_trace clk schedule apis feeds w)
    as [_ Hfeeds Hworkers (made & Hcalls & Hmade) _].
  destruct (run_pool_completes clk schedule apis feeds w Hfree) as (Hall & _).
  exists made. split; [exact Hcalls |]. rewrite Hmade.
  rewrite (omap_analysed_returned (db w)).
  - by rewrite Hfeeds, omap_eligible.
  - intros t [i Hi]%list_elem_of_lookup. eauto.
Qed.

(** A well-formed post that has its note in the store gets the duplicate
    outcome from a joined pool, and its worker has not called the
    classifier. *)
Lemma run_pool_duplicates clk schedule apis feeds w :
  db_lock w = None →
  ∀ i f, feeds !! i = Some f → well_formed f = true →
         is_Some (get_note (db w) (Feed.id f)) →
         ∃ t, workers (run_pool clk schedule apis feeds w) !! i = Some t
              ∧ at_pc t = Return (AlreadyExists (Feed.id f))
              ∧ analyses t = 0%nat.
Proof.
  intros Hfree i f Hf Hwf [n Hn].
  destruct (run_pool_workers clk schedule apis feeds w Hfree i f Hf)
    as (t & Hi & <- & Hret & Hok).
  exists t. split; [exact Hi |].
  unfold has_returned, worker_ok in *.
  destruct (at_pc t) as [| | | | | | | | | | | | o]; try discriminate.
  destruct o; try (destruct Hok as [_ Hel]; congruence);
    try (destruct Hok as [_ Hel]; apply eligible_no_note in Hel; congruence).
  destruct Hok as (Ha & _ & _ & ->). by split.
Qed.

(** No ticket is added for a post that has its note in the store. *)
Lemma run_pool_stored_post clk schedule apis feeds w note_id :
  is_Some (get_note (db w) note_id) →
  count_tickets (db (world (run_pool clk schedule apis feeds w))) note_id
  = count_tickets (db w) note_id.
Proof.
  intros [n Hn].
  destruct (run_pool_trace clk schedule apis feeds w)
    as [_ _ _ _ (added & Htickets & Hadded)].
  unfold count_tickets. rewrite Htickets, filter_app, length_app.
  assert (Hnone : filter (λ k, Ticket.note_id k = Some note_id) added = []).
  { clear Htickets. induction Hadded as [| k added (f & _ & Hk & Hel) _ IH];
      [reflexivity |].
    rewrite filter_cons, decide_False; [exact IH |].
    rewrite Hk. intros [= Heq]. apply eligible_no_note in Hel. congruence. }
  rewrite Hnone. cbn. lia.
Qed.

(** ** At most one post and one ticket per identity; duplicates *)

Lemma well_formed_spec f :
  well_formed f = true
  ↔ Feed.modelType f = "note" ∧ Feed.id f ≠ "" ∧ Feed.noteCard f ≠ [].
Proof.
  unfold well_formed. rewrite andb_true_iff, negb_true_iff, orb_false_iff.
  rewrite String.eqb_eq, String.eqb_neq, bool_decide_eq_false. tauto.
Qed.

Lemma step_get_note_found clk tid w t n :
  at_pc t = GetNote → get_note (db w) (Feed.id (feed t)) = Some n →
  worker_step clk tid w t
  = Some (leave_block w, goto (Return (AlreadyExists (Feed.id (feed t)))) t).
Proof.
  intros Hpc Hn. unfold worker_step, session_get_note. rewrite Hpc.
  cbn [new_notes new_session find]. by rewrite Hn.
Qed.

(** A call on its own for a well-formed post that has its note in the
    store: it answers [already_exists] from inside the first block; nothing
    is written, no request is sent, no event is published, the clock is not
    read and the lock is free again. *)
Lemma process_single_feed_duplicate clk classifier post workflow_execution_id w :
  well_formed post = true → is_Some (get_note (db w) (Feed.id post)) →
  db_lock w = None →
  let r := process_single_feed clk classifier post workflow_execution_id w in
  outcome_of r.2 = Some (AlreadyExists (Feed.id post))
  ∧ analyses r.2 = 0%nat
  ∧ db r.1 = db w ∧ calls r.1 = calls w ∧ event_queue r.1 = event_queue w
  ∧ reads r.1 = reads w ∧ db_lock r.1 = None.
Proof.
  intros (Htype & Hid & Hcard)%well_formed_spec [n Hn] Hfree. cbn zeta.
  unfold process_single_feed.
  erewrite run_worker_step by (by apply step_entry).
  erewrite run_worker_step by (by apply step_acquire_note_lock).
  erewrite run_worker_step by (by eapply step_get_note_found).
  erewrite run_worker_returned by reflexivity.
  by repeat split.
Qed.

(** C1: whatever the posts of a pool (they may all have the same identity)
    and however its workers interleave, at every moment and at the end of
    the run the store holds at most one post and at most one ticket for an
    identity, provided it did so before; a worker that finds the post of its
    feed in the store returns the duplicate outcome at once, without a write
    or a call, and no worker that returned it ever called the classifier.
    Every call for a well-formed post that has its note in the store, on its
    own or in a pool under any interleaving, answers the duplicate outcome
    without calling the classifier; no ticket is added for such a post, the
    notes stay as they are, and the classifier is called for the eligible
    posts only, once for each. *)
Theorem one_post_one_ticket_per_identity clk apis feeds w schedule note_id :
  (count_notes (db w) note_id ≤ 1)%nat →
  (count_tickets (db w) note_id ≤ 1)%nat →
  let p := foldl (pool_step clk) (new_pool apis feeds w) schedule in
  let final := run_pool clk schedule apis feeds w in
  (count_notes (db (world p)) note_id ≤ 1)%nat
  ∧ (count_tickets (db (world p)) note_id ≤ 1)%nat
  ∧ (count_notes (db (world final)) note_id ≤ 1)%nat
  ∧ (count_tickets (db (world final)) note_id ≤ 1)%nat
  ∧ (∀ i t, workers p !! i = Some t → at_pc t = GetNote →
            is_Some (get_note (db (world p)) (Feed.id (feed t))) →
            at_pc <$> workers (pool_step clk p i) !! i
            = Some (Return (AlreadyExists (Feed.id (feed t))))
            ∧ db (world (pool_step clk p i)) = db (world p)
            ∧ calls (world (pool_step clk p i)) = calls (world p))
  ∧ (∀ i t id, workers p !! i = Some t ∨ workers final !! i = Some t →
               at_pc t = Return (AlreadyExists id) → analyses t = 0%nat)
  ∧ (db_lock w = None →
     ∀ i f, feeds !! i = Some f → well_formed f = true →
            is_Some (get_note (db w) (Feed.id f)) →
            ∃ t, workers final !! i = Some t
                 ∧ outcome_of t = Some (AlreadyExists (Feed.id f))
                 ∧ analyses t = 0%nat)
  ∧ (db_lock w = None →
     ∀ classifier f workflow_execution_id,
       well_formed f = true → is_Some (get_note (db w) (Feed.id f)) →
       let r := process_single_feed clk classifier f workflow_execution_id w in
       outcome_of r.2 = Some (AlreadyExists (Feed.id f))
       ∧ analyses r.2 = 0%nat ∧ db r.1 = db w ∧ calls r.1 = calls w)
  ∧ (is_Some (get_note (db w) note_id) →
     count_tickets (db (world final)) note_id = count_tickets (db w) note_id)
  ∧ notes (db (world final)) = notes (db w)
  ∧ (db_lock w = None →
     ∃ made, calls (world final) = calls w ++ made
             ∧ made ≡ₚ (λ f, CallAnalyze (displayTitle f))
                        <$> filter (λ f, eligible (db w) f = true) feeds).
Proof.
  intros Hnotes Htickets p final.
  pose proof (pool_steps_inv clk note_id _ schedule (new_pool_inv apis feeds w _ Htickets))
    as Hp. fold p in Hp.
  pose proof (run_pool_inv clk schedule apis feeds w _ Htickets) as Hfinal.
  fold final in Hfinal.
  split; [| split; [| split; [| split; [| split; [| split; [| split;
    [| split; [| split; [| split]]]]]]]]].
  - rewrite (count_notes_same (db w)); [exact Hnotes |].
    apply (pool_steps_effect clk (new_pool apis feeds w)).
  - apply Hp.
  - rewrite (count_notes_same (db w)); [exact Hnotes |]. apply run_pool_effect.
  - apply Hfinal.
  - intros i t. apply pool_step_duplicate.
  - intros i t id [Hi | Hi] Hpc.
    + apply (inv_analyses _ _ Hp i t Hi). by rewrite Hpc.
    + apply (inv_analyses _ _ Hfinal i t Hi). by rewrite Hpc.
  - intros Hfree i f Hf Hwf Hnote.
    destruct (run_pool_duplicates clk schedule apis feeds w Hfree i f Hf Hwf Hnote)
      as (t & Hi & Hpc & Ha).
    exists t. split; [exact Hi |]. split; [| exact Ha].
    unfold outcome_of. by rewrite Hpc.
  - intros Hfree classifier f workflow_execution_id Hwf Hnote. cbn zeta.
    destruct (process_single_feed_duplicate clk classifier f workflow_execution_id
                w Hwf Hnote Hfree) as (Hout & Ha & Hdb & Hcalls & _).
    by repeat split.
  - intros Hnote. by apply run_pool_stored_post.
  - apply run_pool_effect.
  - intros Hfree. by apply run_pool_calls.
Qed.

Lemma one_post_one_ticket_per_identity_witness :
  (count_notes (db sample_world) "n1" ≤ 1)%nat
  ∧ (count_tickets (db sample_world) "n1" ≤ 1)%nat
  ∧ ∃ t, workers (run_pool sample_clock [1; 0; 1; 1; 0]%nat
                    (λ _ _, Answer resale_info) [new_feed; seen_feed] sample_world)
         !! 1%nat = Some t
         ∧ outcome_of t = Some (AlreadyExists "n1")
         ∧ analyses t = 0%nat.
Proof.
  assert (H1 : (count_notes (db sample_world) "n1" ≤ 1)%nat) by (vm_compute; lia).
  assert (H2 : (count_tickets (db sample_world) "n1" ≤ 1)%nat) by (vm_compute; lia).
  split; [exact H1 |]. split; [exact H2 |].
  refine (proj1 (proj2 (proj2 (proj2 (proj2 (proj2 (proj2
           (one_post_one_ticket_per_identity sample_clock (λ _ _, Answer resale_info)
              [new_feed; seen_feed] sample_world [1; 0; 1; 1; 0]%nat "n1" H1 H2)))))))
            eq_refl 1%nat seen_feed eq_refl eq_refl _).
  vm_compute. eauto.
Defined.

(** ** A timer fire and its ingestion run *)

(** The run of a timer fire whose search finds posts, with the lock free:
    the optimisation and the search are requested, then every eligible post
    is analysed, once; the tickets are added; the three events of the run
    say that the search starts, how many posts were found and how many
    tickets the run added, which is also written to the task. *)
Lemma scheduled_run_search_ingests env task_id keyword run_count w
    optimized_keyword feeds :
  db_lock w = None →
  optimize_search_keyword keyword (chat_api env keyword) = Ok optimized_keyword →
  mcp_search env optimized_keyword = Ok feeds →
  let w' := scheduled_run_search env task_id keyword run_count w in
  ∃ made added,
    calls w' = calls w ++ [CallOptimize keyword; CallSearch optimized_keyword] ++ made
    ∧ made ≡ₚ (λ f, CallAnalyze (displayTitle f))
               <$> filter (λ f, eligible (db w) f = true) feeds
    ∧ tickets (db w') = tickets (db w) ++ added
    ∧ notes (db w') = notes (db w)
    ∧ get_task (db w') task_id
      = WorkflowExecution.with_message
          ("第 " +:+ pretty run_count +:+ " 次执行完成，发现 "
           +:+ pretty_nat (length added) +:+ " 条新票务")
        <$> get_task (db w) task_id
    ∧ ∃ t1 t2 t3,
        event_queue w'
        = event_queue w
          ++ [mkMessage "task_update"
                (TaskStatus task_id "running"
                   ("正在搜索小红书内容（" +:+ optimized_keyword +:+ "）...")) t1;
              mkMessage "task_update"
                (TaskStatus task_id "running"
                   ("找到 " +:+ pretty_nat (length feeds) +:+ " 条笔记，正在分析..."))
                t2;
              mkMessage "task_update"
                (TaskStatus task_id "running"
                   ("第 " +:+ pretty run_count +:+ " 次执行完成，发现 "
                    +:+ pretty_nat (length added) +:+ " 条新票务")) t3].
Proof.
  intros Hfree Hopt Hfound. cbn zeta. unfold scheduled_run_search.
  rewrite Hopt, Hfound. unfold scheduled_run_feeds.
  set (w3 := record_call (CallSearch optimized_keyword) _).
  set (w4 := notify_clients _ _ _ w3).
  assert (Hfree4 : db_lock w4 = None) by exact Hfree.
  destruct (run_pool_calls (clock env) (schedule env) (analysis_api env) feeds w4
              Hfree4) as (made & Hcalls & Hmade).
  destruct (run_pool_results_saved (clock env) (schedule env) (analysis_api env)
              feeds w4 Hfree4) as (added & Hrows & Hsaved).
  pose proof (run_pool_effect (clock env) (schedule env) (analysis_api env) feeds w4)
    as [Hn Ht Hq _ _ _].
  set (p := run_pool _ _ _ _ _) in *.
  assert (Hcount : length (filter (λ r, success r && is_ticket r = true) (results p))
                   = length added).
  { by rewrite count_saved_tickets, Hsaved, length_fmap. }
  rewrite Hcount. exists made, added.
  rewrite notify_clients_db, notify_clients_queue, notify_clients_calls.
  cbn [db set_db calls event_queue].
  rewrite get_task_update by (by intros []).
  rewrite update_task_tickets, update_task_notes, (get_task_rows _ _ _ Ht).
  split; [rewrite Hcalls; subst w4 w3; rewrite notify_clients_calls;
          cbn [calls record_call]; rewrite notify_clients_calls;
          cbn [calls record_call]; by rewrite <- !app_assoc |].
  split; [exact Hmade |]. split; [exact Hrows |]. split; [exact Hn |].
  split; [reflexivity |].
  do 3 eexists. rewrite Hq. subst w4 w3. rewrite notify_clients_queue.
  cbn [event_queue record_call]. rewrite notify_clients_queue.
  cbn [event_queue record_call]. rewrite <- !app_assoc. reflexivity.
Qed.

(** C8: a timer fire on a task whose status is not exactly [running]
    changes nothing at all (no call, no event, no task state); on a task
    whose status is [running] it increments the run counter, sets the
    last-run and next-run timestamps, publishes a [task_update] event first
    and makes exactly one search of the feed service. When that search finds
    posts (the lock being free), the run ingests them: after the optimisation
    and the search, the classifier is called once for every eligible post and
    for no other; the tickets found are added to the store; the events of the
    fire are the announcement of the run, the start of the search, the number
    of posts found and the number of tickets added, which is also written to
    the task. When the search raises, no post is classified. *)
Theorem timer_fire_gate env task_id keyword w task :
  get_task (db w) task_id = Some task →
  let w' := execute_scheduled_task env task_id keyword w in
  (WorkflowExecution.status task ≠ "running" → w' = w)
  ∧ (WorkflowExecution.status task = "running" →
     let run_count := default 0 (WorkflowExecution.run_count task) + 1 in
     let last_run_at := utc (clock env) (reads w) in
     let next_run_at := utc (clock env) (S (reads w))
                        + WorkflowExecution.schedule_interval task in
     (∃ task', get_task (db w') task_id = Some task'
               ∧ WorkflowExecution.run_count task' = Some run_count
               ∧ WorkflowExecution.last_run_at task' = Some last_run_at
               ∧ WorkflowExecution.next_run_at task' = Some next_run_at)
     ∧ (∃ m later, event_queue w' = event_queue w ++ m :: later
                   ∧ type m = "task_update"
                   ∧ ∃ message, data m = TaskRun task_id "running" message run_count
                                           (Some last_run_at) (Some next_run_at))
     ∧ searches (calls w') = S (searches (calls w))
     ∧ (∀ optimized_keyword feeds,
          db_lock w = None →
          optimize_search_keyword keyword (chat_api env keyword)
          = Ok optimized_keyword →
          mcp_search env optimized_keyword = Ok feeds →
          ∃ made added,
            calls w'
            = calls w ++ [CallOptimize keyword; CallSearch optimized_keyword] ++ made
            ∧ made ≡ₚ (λ f, CallAnalyze (displayTitle f))
                       <$> filter (λ f, eligible (db w) f = true) feeds
            ∧ tickets (db w') = tickets (db w) ++ added
            ∧ notes (db w') = notes (db w)
            ∧ (∃ task', get_task (db w') task_id = Some task'
                        ∧ WorkflowExecution.status task' = "running"
                        ∧ WorkflowExecution.message task'
                          = "第 " +:+ pretty run_count +:+ " 次执行完成，发现 "
                            +:+ pretty_nat (length added) +:+ " 条新票务")
            ∧ data <$> drop (length (event_queue w)) (event_queue w')
              = [TaskRun task_id "running"
                   ("第 " +:+ pretty run_count +:+ " 次定时执行") run_count
                   (Some last_run_at) (Some next_run_at);
                 TaskStatus task_id "running"
                   ("正在搜索小红书内容（" +:+ optimized_keyword +:+ "）...");
                 TaskStatus task_id "running"
                   ("找到 " +:+ pretty_nat (length feeds) +:+ " 条笔记，正在分析...");
                 TaskStatus task_id "running"
                   ("第 " +:+ pretty run_count +:+ " 次执行完成，发现 "
                    +:+ pretty_nat (length added) +:+ " 条新票务")])
     ∧ (∀ optimized_keyword e,
          optimize_search_keyword keyword (chat_api env keyword)
          = Ok optimized_keyword →
          mcp_search env optimized_keyword = Raise e →
          calls w' = calls w ++ [CallOptimize keyword; CallSearch optimized_keyword]
          ∧ tickets (db w') = tickets (db w))).
Proof.
  intros Htask w'. subst w'. split.
  - intros Hst. unfold execute_scheduled_task. rewrite Htask.
    case_bool_decide as Hin; [| reflexivity]. cbn.
    apply list_elem_of_In in Hin. cbn in Hin.
    destruct Hin as [Hin | [Hin | []]]; [congruence |].
    rewrite <- Hin. reflexivity.
  - intros Hst. cbn zeta.
    rewrite (execute_scheduled_task_running _ _ _ _ _ Htask Hst).
    destruct (begin_scheduled_run_spec (clock env) task_id task w Htask)
      as (Hrc & Htask1 & Hq1 & Hc1 & _ & Hn1 & Hk1).
    assert (Hlock1 : db_lock (begin_scheduled_run (clock env) task_id task w).1
                     = db_lock w) by reflexivity.
    set (w1 := (begin_scheduled_run _ _ _ _).1) in *.
    destruct (scheduled_run_search_spec env task_id keyword
                (begin_scheduled_run (clock env) task_id task w).2 w1)
      as ((message & Htask2) & (later & Hq2 & _) & Hs & _).
    split; [| split; [| split; [| split]]].
    + rewrite Htask2, Htask1. eexists. split; [reflexivity |]. by repeat split.
    + rewrite Hq2, Hq1, <- app_assoc. cbn [app]. eauto 10.
    + by rewrite Hs, Hc1.
    + intros optimized_keyword feeds Hfree Hopt Hfound.
      destruct (scheduled_run_search_ingests env task_id keyword
                  (begin_scheduled_run (clock env) task_id task w).2 w1
                  optimized_keyword feeds)
        as (made & added & Hcalls & Hmade & Hrows & Hnotes & Hrow
            & t1 & t2 & t3 & Hqueue); [by rewrite Hlock1 | exact Hopt | exact Hfound |].
      exists made, added. rewrite Hrc in *.
      assert (Hdb1 : get_note (db w1) = get_note (db w)).
      { unfold get_note. by rewrite Hn1. }
      split; [by rewrite Hcalls, Hc1 |].
      split; [rewrite Hmade; unfold eligible; by rewrite Hdb1 |].
      split; [by rewrite Hrows, Hk1 |]. split; [by rewrite Hnotes, Hn1 |].
      split.
      { rewrite Hrow, Htask1. eexists. split; [reflexivity |].
        split; [exact Hst | reflexivity]. }
      rewrite Hqueue, Hq1, <- app_assoc, drop_app_length. reflexivity.
    + intros optimized_keyword e Hopt Hfetch.
      destruct (scheduled_run_search_raises env task_id keyword
                  (begin_scheduled_run (clock env) task_id task w).2 w1
                  optimized_keyword e Hopt Hfetch)
        as (_ & _ & Hc2 & _ & _ & Hk2).
      split; [by rewrite Hc2, Hc1 | by rewrite Hk2, Hk1].
Qed.

Lemma timer_fire_gate_witness :
  get_task (db sample_world) 1 = Some sample_task
  ∧ db_lock sample_world = None
  ∧ mcp_search (sample_env (Ok [new_feed; seen_feed]) (Answer resale_info)) "周杰伦"
    = Ok [new_feed; seen_feed]
  ∧ ∃ made added,
      calls (execute_scheduled_task
               (sample_env (Ok [new_feed; seen_feed]) (Answer resale_info)) 1
               "周杰伦" sample_world)
      = calls sample_world ++ [CallOptimize "周杰伦"; CallSearch "周杰伦"] ++ made
      ∧ made ≡ₚ (λ f, CallAnalyze (displayTitle f))
                 <$> filter (λ f, eligible (db sample_world) f = true)
                       [new_feed; seen_feed]
      ∧ tickets (db (execute_scheduled_task
                       (sample_env (Ok [new_feed; seen_feed]) (Answer resale_info)) 1
                       "周杰伦" sample_world))
        = tickets (db sample_world) ++ added.
Proof.
  split; [reflexivity |]. split; [reflexivity |]. split; [reflexivity |].
  destruct (proj1 (proj2 (proj2 (proj2
              (proj2 (timer_fire_gate
                        (sample_env (Ok [new_feed; seen_feed]) (Answer resale_info))
                        1 "周杰伦" sample_world sample_task eq_refl)
                 eq_refl))))
              "周杰伦" [new_feed; seen_feed] eq_refl eq_refl eq_refl)
    as (made & added & Hcalls & Hmade & Hrows & _).
  exists made, added. split; [exact Hcalls |]. split; [exact Hmade | exact Hrows].
Defined.
